(** * DECODE / deepsmlm: the EmitterSet container and its lowering

    A shallow embedding of [src/deepsmlm/generic/emitter.py].

    Conventions of the embedding:
    - a float tensor entry is a [scalar]: an exact rational or NaN (rounding,
      infinities and signed zeros are not modelled);
    - an integer tensor is a [list Z], a one-dimensional float tensor a
      [list scalar], a two-dimensional float tensor a [mat] (column count and
      rows), so the dtype checks of [_set_typed] and the dimensionality check
      of [_sanity_check] are discharged by typing: the ValueError for an
      attribute that is not one-dimensional lies outside the embedding;
    - the width of an integer tensor (int16, int32 or int64) is not tracked
      and integer sums are those of [Z]: a statement that depends on a sum
      of frame indices assumes operands and sums that fit every such type;
    - the float32 buffers of the lowering are the exception to the
      idealisation of floats: the integers written to them are rounded to
      24 significant bits, and the conversions back to integers are those
      of the integer type, undefined outside its range;
    - Python exceptions are values of [exn]; a method that may warn and raise
      lives in the monad [M] (warnings emitted so far, then the outcome). *)

From Stdlib Require Import String DecimalString.
From Stdlib Require Import List ZArith QArith Qround Qabs Qminmax Bool.
From Stdlib Require Import Lia Lqa Permutation Sorted Arith.
Import ListNotations.

Set Implicit Arguments.

(** ** Python: exceptions, warnings, f-strings *)

Module Py.

Inductive exn : Type :=
| ValueError (msg : string)
| IndexError (msg : string)
| RuntimeError (msg : string)
| AttributeError (msg : string)
| DeprecationWarning
| NotImplementedError.

Inductive res (A : Type) : Type :=
| Ok (a : A)
| Raise (e : exn).

Arguments Ok {A} a.
Arguments Raise {A} e.

(** Warnings issued through [warnings.warn], oldest first, and the outcome. *)
Definition M (A : Type) : Type := (list string * res A)%type.

Definition ret {A} (a : A) : M A := ([], Ok a).
Definition raise {A} (e : exn) : M A := ([], Raise e).
Definition warn (msg : string) : M unit := ([msg], Ok tt).
Definition lift {A} (r : res A) : M A := ([], r).

Definition bind {A B} (c : M A) (k : A -> M B) : M B :=
  match c with
  | (w, Ok a) => let (w', r) := k a in (w ++ w', r)
  | (w, Raise e) => (w, Raise e)
  end.

Definition rbind {A B} (c : res A) (k : A -> res B) : res B :=
  match c with
  | Ok a => k a
  | Raise e => Raise e
  end.

(** [str(z)] for an integer. *)
Definition str (z : Z) : string := NilZero.string_of_int (Z.to_int z).

(** Truthiness of an optional integer argument ([None] and [0] are falsy). *)
Definition truthy (o : option Z) : bool :=
  match o with
  | None => false
  | Some z => negb (z =? 0)%Z
  end.

End Py.

Export Py.

Declare Scope py_scope.
Delimit Scope py_scope with py.
Notation "x <- c ;; k" := (bind c (fun x => k))
  (at level 61, c at next level, right associativity) : py_scope.
Notation "c ;;; k" := (bind c (fun _ => k))
  (at level 61, right associativity) : py_scope.
Notation "x <~ c ;; k" := (rbind c (fun x => k))
  (at level 61, c at next level, right associativity) : py_scope.

(** ** Torch: the tensor operations the source calls *)

Module Torch.

(** A float entry. *)
Inductive scalar : Type :=
| NaN
| Fin (q : Q).

Definition isnan (x : scalar) : bool :=
  match x with NaN => true | Fin _ => false end.

Definition fmul (x y : scalar) : scalar :=
  match x, y with
  | Fin a, Fin b => Fin (a * b)
  | _, _ => NaN
  end.

Definition fadd (x y : scalar) : scalar :=
  match x, y with
  | Fin a, Fin b => Fin (a + b)
  | _, _ => NaN
  end.

(** [1 / x]; a zero divisor leaves the rationals and is collapsed to NaN. *)
Definition finv (x : scalar) : scalar :=
  match x with
  | Fin a => if Qeq_bool a 0 then NaN else Fin (/ a)
  | NaN => NaN
  end.

(** [x / y], element-wise division. *)
Definition fdiv (x y : scalar) : scalar :=
  match x, y with
  | Fin a, Fin b => if Qeq_bool b 0 then NaN else Fin (a / b)
  | _, _ => NaN
  end.

(** A two-dimensional float tensor of shape [nrows x ncols]. *)
Record mat : Type := { ncols : nat; rows : list (list scalar) }.

Definition nrows (m : mat) : nat := length (rows m).

(** Every row has [ncols] entries. *)
Definition mat_ok (m : mat) : Prop :=
  Forall (fun r => length r = ncols m) (rows m).

(** [torch.isnan(x).all()]. *)
Definition all_nan (l : list scalar) : bool := forallb isnan l.
Definition all_nan_mat (m : mat) : bool := forallb all_nan (rows m).

(** [torch.ones_like], [float('nan') * torch.ones_like], [-torch.ones_like]. *)
Definition ones_like {A} (l : list A) : list scalar := repeat (Fin 1) (length l).
Definition nan_like {A} (l : list A) : list scalar := repeat NaN (length l).
Definition neg_ones_like {A} (l : list A) : list Z := repeat (-1)%Z (length l).
Definition nan_like_mat (m : mat) : mat :=
  {| ncols := ncols m; rows := map (fun _ => repeat NaN (ncols m)) (rows m) |}.

(** [torch.zeros((0, 3))]. *)
Definition empty_mat : mat := {| ncols := 3; rows := [] |}.

(** The message of the IndexError torch raises for an index out of range:
    it gives the index, the dimension and the size of that dimension. *)
Definition oob_msg (i : Z) (dim size : nat) : string :=
  ("index " ++ str i ++ " is out of bounds for dimension "
   ++ str (Z.of_nat dim) ++ " with size " ++ str (Z.of_nat size))%string.

(** One entry of an integer index along a dimension [dim] of the given size:
    negative indices count from the end, anything else out of range raises. *)
Definition get {A} (dim : nat) (l : list A) (i : Z) : res A :=
  let n := Z.of_nat (length l) in
  if ((i <? - n) || (n <=? i))%Z then Raise (IndexError (oob_msg i dim (length l)))
  else
    match nth_error l (Z.to_nat (if (i <? 0)%Z then i + n else i)%Z) with
    | Some a => Ok a
    | None => Raise (IndexError (oob_msg i dim (length l)))
    end.

(** [t[ix]] for a list (or integer tensor) of indices. *)
Fixpoint gather {A} (dim : nat) (l : list A) (ix : list Z) : res (list A) :=
  match ix with
  | [] => Ok []
  | i :: ix' =>
      (a <~ get dim l i ;;
       r <~ gather dim l ix' ;;
       Ok (a :: r))%py
  end.

(** [t[mask]] for a boolean mask, which must have the length of [t]. *)
Fixpoint select {A} (l : list A) (mask : list bool) : list A :=
  match l, mask with
  | a :: l', b :: mask' => if b then a :: select l' mask' else select l' mask'
  | _, _ => []
  end.

Definition mask_msg (m n : nat) : string :=
  ("The shape of the mask [" ++ str (Z.of_nat m)
   ++ "] at index 0 does not match the shape of the indexed tensor ["
   ++ str (Z.of_nat n) ++ "] at index 0")%string.

Definition masked {A} (l : list A) (mask : list bool) : res (list A) :=
  if (length mask =? length l)%nat then Ok (select l mask)
  else Raise (IndexError (mask_msg (length mask) (length l))).

(** A list or tensor a tensor can be indexed with. *)
Inductive index : Type :=
| IntList (ix : list Z)          (* a Python list of ints *)
| LongTensor (ix : list Z)       (* an integer tensor (or numpy array) *)
| BoolTensor (mask : list bool). (* a boolean mask tensor *)

(** [t[ix]] along dimension 0 of a one-dimensional tensor. *)
Definition getitem {A} (l : list A) (ix : index) : res (list A) :=
  match ix with
  | IntList ix | LongTensor ix => gather 0 l ix
  | BoolTensor mask => masked l mask
  end.

(** [m[ix, :]] (and [m[ix]]) for a matrix. *)
Definition getrows (m : mat) (ix : index) : res mat :=
  (r <~ getitem (rows m) ix ;; Ok {| ncols := ncols m; rows := r |})%py.

(** [f] on every entry, stopping at the first exception. *)
Fixpoint map_res {A B} (f : A -> res B) (l : list A) : res (list B) :=
  match l with
  | [] => Ok []
  | a :: l' => (b <~ f a ;; r <~ map_res f l' ;; Ok (b :: r))%py
  end.

Definition col_check (c : nat) (i : Z) : res unit :=
  if ((i <? - Z.of_nat c) || (Z.of_nat c <=? i))%Z
  then Raise (IndexError (oob_msg i 1 c)) else Ok tt.

(** [m[:, axis]]: select (or permute) columns. *)
Definition getcols (m : mat) (axis : list Z) : res mat :=
  (_ <~ map_res (col_check (ncols m)) axis ;;
   r <~ map_res (fun row => gather 1 row axis) (rows m) ;;
   Ok {| ncols := length axis; rows := r |})%py.

(** [torch.cat(ts, 0)] of one-dimensional tensors. *)
Definition cat1 {A} (ts : list (list A)) : res (list A) :=
  match ts with
  | [] => Raise (RuntimeError "torch.cat(): expected a non-empty list of Tensors")
  | _ => Ok (concat ts)
  end.

(** [torch.cat(ms, 0)] of matrices: the column counts must agree. *)
Definition cat2 (ms : list mat) : res mat :=
  match ms with
  | [] => Raise (RuntimeError "torch.cat(): expected a non-empty list of Tensors")
  | m :: ms' =>
      if forallb (fun m' => ncols m' =? ncols m)%nat ms'
      then Ok {| ncols := ncols m; rows := concat (map rows ms) |}
      else Raise (RuntimeError "Sizes of tensors must match except in dimension 0")
  end.

(** [torch.cat((m, torch.zeros_like(m[:, [0]])), 1)]: a zero column is put
    after the last column; [m[:, [0]]] needs a column 0. *)
Definition pad_zero_col (m : mat) : res mat :=
  match ncols m with
  | O => Raise (IndexError (oob_msg 0 1 0))
  | S _ => Ok {| ncols := S (ncols m); rows := map (fun r => r ++ [Fin 0]) (rows m) |}
  end.

Definition size_msg (a b : nat) : string :=
  ("The size of tensor a (" ++ str (Z.of_nat a) ++ ") must match the size of tensor b ("
   ++ str (Z.of_nat b) ++ ") at non-singleton dimension")%string.

(** Broadcasting of two one-dimensional shapes: equal, or one of them 1. *)
Definition broadcast2 {A B C} (f : A -> B -> C) (a : list A) (b : list B)
  : res (list C) :=
  if (length a =? length b)%nat then Ok (map (fun p => f (fst p) (snd p)) (combine a b))
  else match a, b with
       | [x], _ => Ok (map (f x) b)
       | _, [y] => Ok (map (fun x => f x y) a)
       | _, _ => Raise (RuntimeError (size_msg (length a) (length b)))
       end.

(** [m * v.unsqueeze(0)]: out of place, so the result takes the broadcast
    shape. *)
Definition mul_rows (m : mat) (v : list scalar) : res mat :=
  if (ncols m =? length v)%nat || (length v =? 1)%nat
  then (r <~ map_res (fun row => broadcast2 fmul row v) (rows m) ;;
        Ok {| ncols := ncols m; rows := r |})%py
  else if (ncols m =? 1)%nat
  then (r <~ map_res (fun row => broadcast2 fmul row v) (rows m) ;;
        Ok {| ncols := length v; rows := r |})%py
  else Raise (RuntimeError (size_msg (ncols m) (length v))).

(** [m += v.unsqueeze(0)]: in place, so the shape of [m] cannot change. *)
Definition add_rows_ (m : mat) (v : list scalar) : res mat :=
  if (ncols m =? length v)%nat || (length v =? 1)%nat
  then (r <~ map_res (fun row => broadcast2 fadd row v) (rows m) ;;
        Ok {| ncols := ncols m; rows := r |})%py
  else Raise (RuntimeError "output with shape doesn't match the broadcast shape").

(** [torch.arange(0, n) * step]. *)
Definition arange_times (n : nat) (step : Z) : list Z :=
  map (fun i => (Z.of_nat i * step)%Z) (seq 0 n).

(** [torch.unique(t).numel()]. *)
Definition unique_numel (l : list Z) : nat := length (nodup Z.eq_dec l).

End Torch.

Export Torch.

(** ** torch.Tensor.sort

    The source calls [sort()] with its defaults, that is without
    [stable=True]: the result holds the values in ascending order and, for
    each, the index it had in the input; the order among equal values is not
    promised. *)

Module Sort.

(** [range(n)] as an index tensor. *)
Definition iota (n : nat) : list Z := map Z.of_nat (seq 0 n).

(** What a sorting routine has to deliver. *)
Definition contract (sort : list Z -> list Z * list Z) : Prop :=
  forall l : list Z,
    Permutation (snd (sort l)) (iota (length l)) /\
    gather 0 l (snd (sort l)) = Ok (fst (sort l)) /\
    Sorted Z.le (fst (sort l)).

(** Insertion of a (value, index) pair into a list sorted by value: before
    the first entry that is not smaller. *)
Fixpoint insert (x : Z * Z) (l : list (Z * Z)) : list (Z * Z) :=
  match l with
  | [] => [x]
  | y :: l' => if (fst x <=? fst y)%Z then x :: l else y :: insert x l'
  end.

Definition isort (l : list (Z * Z)) : list (Z * Z) := fold_right insert [] l.

(** A routine that meets the contract, which shows that the contract can be
    met: insertion sort of the (value, index) pairs. It stands for no
    particular implementation of [sort()]; the statements about
    [sort_by_frame_] hold for every routine that meets the contract. *)
Definition argsort (l : list Z) : list Z * list Z :=
  let s := isort (combine l (iota (length l))) in
  (map fst s, map snd s).

End Sort.

(** ** tutil: the helpers of [utils/test_utils.py] the container calls *)

Module tutil.

(** Modelled from the spec: [same_shape_tensor] of
    [utils/test_utils.py], "all N-length attributes share identical leading
    dimension N". It is given the sizes of its arguments along [dim]. *)
Fixpoint same_shape_tensor (sizes : list nat) : bool :=
  match sizes with
  | a :: (b :: _) as tl => (a =? b)%nat && same_shape_tensor tl
  | _ => true
  end.

(** Modelled from the spec: [same_dim_tensor] of
    [utils/test_utils.py], "expected ... to be 1D". It is given the number of
    dimensions of its arguments. *)
Fixpoint same_dim_tensor (dims : list nat) : bool :=
  match dims with
  | a :: (b :: _) as tl => (a =? b)%nat && same_dim_tensor tl
  | _ => true
  end.

(** Two float entries within an absolute tolerance; NaN is close to nothing. *)
Definition close (prec : Q) (x y : scalar) : bool :=
  match x, y with
  | Fin a, Fin b => Qle_bool (Qabs (a - b)) prec
  | _, _ => false
  end.

Definition close_int (prec : Q) (x y : Z) : bool :=
  Qle_bool (Qabs (inject_Z x - inject_Z y)) prec.

Fixpoint all2 {A} (f : A -> A -> bool) (a b : list A) : bool :=
  match a, b with
  | [], [] => true
  | x :: a', y :: b' => f x y && all2 f a' b'
  | _, _ => false
  end.

(** Modelled from the spec: [tens_almeq] of [utils/test_utils.py],
    "element-wise close within a fixed absolute tolerance". The spec does
    not say what the helper does with tensors of different shapes; here the
    element-wise operation raises on them, and the statements about [==]
    are about operands of the same shape, where this plays no part. *)
Definition tens_almeq (a b : list scalar) (prec : Q) : res bool :=
  if (length a =? length b)%nat then Ok (all2 (close prec) a b)
  else Raise (RuntimeError (size_msg (length a) (length b))).

Definition tens_almeq_int (a b : list Z) (prec : Q) : res bool :=
  if (length a =? length b)%nat then Ok (all2 (close_int prec) a b)
  else Raise (RuntimeError (size_msg (length a) (length b))).

Definition tens_almeq_mat (a b : mat) (prec : Q) : res bool :=
  if negb (ncols a =? ncols b)%nat then Raise (RuntimeError (size_msg (ncols a) (ncols b)))
  else if negb (nrows a =? nrows b)%nat then Raise (RuntimeError (size_msg (nrows a) (nrows b)))
  else Ok (all2 (all2 (close prec)) (rows a) (rows b)).

End tutil.

(** ** class EmitterSet *)

Module EmitterSet.

Definition eq_precision : Q := 1 # 100000000.
Definition xy_units : list string := ["px"; "nm"]%string.

Record t : Type := {
  xyz : mat;
  phot : list scalar;
  frame_ix : list Z;
  id : list Z;
  prob : list scalar;
  bg : list scalar;
  xyz_cr : mat;
  phot_cr : list scalar;
  bg_cr : list scalar;
  xy_unit : option string;
  px_size : option (list scalar);
  _sorted : bool
}.

Definition default {A} (o : option A) (d : A) : A :=
  match o with Some a => a | None => d end.

(** [_set_typed]: pads a position that has not 3 columns, fills the unset
    optionals, and replaces everything by canonical empty tensors when there
    is no row. The attributes it does not set are passed through. *)
Definition _set_typed (self : t) (xyz : mat) (phot : list scalar) (frame_ix : list Z)
    (id : option (list Z)) (prob bg : option (list scalar)) (xyz_cr : option mat)
    (phot_cr bg_cr : option (list scalar)) : res t :=
  (xyz <~ (if (ncols xyz =? 3)%nat then Ok xyz else pad_zero_col xyz) ;;
   let num_input := nrows xyz in
   if negb (num_input =? 0)%nat then
     let bg' := default bg (nan_like frame_ix) in
     Ok {| xyz := xyz;
           phot := phot;
           frame_ix := frame_ix;
           id := default id (neg_ones_like frame_ix);
           prob := default prob (ones_like frame_ix);
           bg := bg';
           xyz_cr := default xyz_cr (nan_like_mat xyz);
           phot_cr := default phot_cr (nan_like phot);
           bg_cr := default bg_cr (nan_like bg');
           xy_unit := xy_unit self;
           px_size := px_size self;
           _sorted := _sorted self |}
   else
     Ok {| xyz := empty_mat;
           phot := [];
           frame_ix := [];
           id := [];
           prob := [];
           bg := [];
           xyz_cr := empty_mat;
           phot_cr := [];
           bg_cr := [];
           xy_unit := xy_unit self;
           px_size := px_size self;
           _sorted := _sorted self |})%py.

Definition __len__ (self : t) : nat := nrows (xyz self).

Definition in_units (u : string) : bool :=
  existsb (String.eqb u) xy_units.

(** [_sanity_check]. The attributes given to [same_dim_tensor] are
    one-dimensional by their type here, so that test is passed the
    dimensions 1 and never fails; a container with an attribute of another
    dimensionality is not a value of [t]. *)
Definition _sanity_check (self : t) (check_uniqueness : bool) : M bool :=
  (if negb (tutil.same_shape_tensor
              [nrows (xyz self); length (phot self); length (frame_ix self);
               length (id self); length (bg self); nrows (xyz_cr self);
               length (phot_cr self); length (bg_cr self)])
   then raise (ValueError
     "Coordinates, photons, frame ix, id and prob are not of equal shape in 0th dimension.")
   else if negb (tutil.same_dim_tensor [1; 1; 1; 1; 1]%nat)
   then raise (ValueError "Expected photons, probability frame index and id to be 1D.")
   else
     (if (0 <? __len__ self)%nat then
        match xy_unit self with
        | None => warn "No xyz unit specified. No guarantees given ..."
        | Some u =>
            if negb (in_units u) then raise (ValueError "XY unit not supported.")
            else ret tt
        end
      else ret tt) ;;;
     (if check_uniqueness then
        if negb (unique_numel (id self) =? length (id self))%nat
        then raise (ValueError "IDs are not unique.")
        else ret tt
      else ret tt) ;;;
     ret true)%py.

(** The object before [__init__] has set anything. *)
Definition blank : t :=
  {| xyz := empty_mat; phot := []; frame_ix := []; id := []; prob := []; bg := [];
     xyz_cr := empty_mat; phot_cr := []; bg_cr := [];
     xy_unit := None; px_size := None; _sorted := false |}.

Definition __init__ (xyz : mat) (phot : list scalar) (frame_ix : list Z)
    (id : option (list Z)) (prob bg : option (list scalar)) (xyz_cr : option mat)
    (phot_cr bg_cr : option (list scalar))
    (sanity_check : bool) (xy_unit : option string) (px_size : option (list scalar))
  : M t :=
  (self <- lift (_set_typed blank xyz phot frame_ix id prob bg xyz_cr phot_cr bg_cr) ;;
   let self :=
     {| EmitterSet.xyz := EmitterSet.xyz self; EmitterSet.phot := EmitterSet.phot self;
        EmitterSet.frame_ix := EmitterSet.frame_ix self; EmitterSet.id := EmitterSet.id self;
        EmitterSet.prob := EmitterSet.prob self; EmitterSet.bg := EmitterSet.bg self;
        EmitterSet.xyz_cr := EmitterSet.xyz_cr self;
        EmitterSet.phot_cr := EmitterSet.phot_cr self;
        EmitterSet.bg_cr := EmitterSet.bg_cr self;
        EmitterSet.xy_unit := xy_unit; EmitterSet.px_size := px_size;
        _sorted := false |} in
   if sanity_check then (_ <- _sanity_check self false ;; ret self) else ret self)%py.

(** [_convert_coordinates]: factor, then shift, then axis. *)
Definition _convert_coordinates (self : t) (factor shift : option (list scalar))
    (axis : option (list Z)) : res mat :=
  (let xyz := xyz self in
   xyz <~ match factor with
          | None => Ok xyz
          | Some factor =>
              let factor :=
                if (length factor =? 2)%nat then factor ++ [Fin 1] else factor in
              mul_rows xyz factor
          end ;;
   xyz <~ match shift with
          | None => Ok xyz
          | Some shift => add_rows_ xyz shift
          end ;;
   match axis with
   | None => Ok xyz
   | Some axis => getcols xyz axis
   end)%py.

Definition no_px_size : exn :=
  ValueError "Cannot convert between px and nm without px-size specified.".

(** The property [xyz_px]; Python's [None] result is [None]. *)
Definition xyz_px (self : t) : M (option mat) :=
  (match xy_unit self with
   | None =>
       warn "If unit is unspecified, can not convert to px coordinates." ;;;
       ret None
   | Some u =>
       if (u =? "nm")%string then
         match px_size self with
         | None => raise no_px_size
         | Some px =>
             r <- lift (_convert_coordinates self (Some (map finv px)) None None) ;;
             ret (Some r)
         end
       else if (u =? "px")%string then ret (Some (xyz self))
       else ret None
   end)%py.

(** The property [xyz_nm]. *)
Definition xyz_nm (self : t) : M (option mat) :=
  (match xy_unit self with
   | None =>
       warn "If unit is unspecified, can not convert to px coordinates." ;;;
       ret None
   | Some u =>
       if (u =? "px")%string then
         match px_size self with
         | None => raise no_px_size
         | Some px =>
             r <- lift (_convert_coordinates self (Some px) None None) ;;
             ret (Some r)
         end
       else if (u =? "nm")%string then ret (Some (xyz self))
       else ret None
   end)%py.

Definition unit_eqb (a b : option string) : bool :=
  match a, b with
  | None, None => true
  | Some x, Some y => (x =? y)%string
  | _, _ => false
  end.

(** [x == y] on float entries. *)
Definition scalar_eqb (x y : scalar) : bool :=
  match x, y with
  | Fin a, Fin b => Qeq_bool a b
  | _, _ => false
  end.

(** [(p == q).all()] for a tensor [p] and an optional tensor [q]: comparing
    a tensor with [None] gives the plain [False], which has no [all]. *)
Definition eq_all (p : list scalar) (q : option (list scalar)) : res bool :=
  match q with
  | None => Raise (AttributeError "'bool' object has no attribute 'all'")
  | Some q => (r <~ broadcast2 scalar_eqb p q ;; Ok (forallb (fun b => b) r))%py
  end.

Definition eq_attr (self other : t) : res bool :=
  match px_size self with
  | None =>
      match px_size other with
      | None => Ok true
      | Some _ => Ok false
      end
  | Some px =>
      (c <~ eq_all px (px_size other) ;;
       if negb c then Ok false
       else if negb (unit_eqb (xy_unit self) (xy_unit other)) then Ok false
       else Ok true)%py
  end.

Definition __eq__ (self other : t) : res bool :=
  (c <~ tutil.tens_almeq_mat (xyz self) (xyz other) eq_precision ;;
   if negb c then Ok false else
   c <~ tutil.tens_almeq_int (frame_ix self) (frame_ix other) eq_precision ;;
   if negb c then Ok false else
   c <~ tutil.tens_almeq (phot self) (phot other) eq_precision ;;
   if negb c then Ok false else
   c <~ tutil.tens_almeq (prob self) (prob other) eq_precision ;;
   if negb c then Ok false else
   if negb (unit_eqb (xy_unit self) (xy_unit other)) then Ok false else
   c <~ (if all_nan (bg self) then Ok (all_nan (bg other))
         else tutil.tens_almeq (bg self) (bg other) eq_precision) ;;
   if negb c then Ok false else
   c <~ (if all_nan_mat (xyz_cr self) then Ok (all_nan_mat (xyz_cr other))
         else tutil.tens_almeq (bg self) (bg other) eq_precision) ;;
   if negb c then Ok false else
   c <~ (if all_nan (phot_cr self) then Ok (all_nan (phot_cr other))
         else tutil.tens_almeq (bg self) (bg other) eq_precision) ;;
   if negb c then Ok false else
   c <~ (if all_nan (bg_cr self) then Ok (all_nan (bg_cr other))
         else tutil.tens_almeq (bg self) (bg other) eq_precision) ;;
   if negb c then Ok false else
   _ <~ eq_attr self other ;;
   Ok true)%py.

(** What [get_subset] and [__getitem__] accept. *)
Inductive item : Type :=
| Int (i : Z)
| Ix (ix : index).

Definition get_subset (self : t) (ix : item) : M t :=
  (let ix :=
     match ix with
     | Int i => IntList [i]
     | Ix (LongTensor [k]) => IntList [k]
     | Ix (BoolTensor [b]) => IntList [if b then 1 else 0]%Z
     | Ix ix => ix
     end in
   xyz' <- lift (getrows (xyz self) ix) ;;
   phot' <- lift (getitem (phot self) ix) ;;
   frame_ix' <- lift (getitem (frame_ix self) ix) ;;
   id' <- lift (getitem (id self) ix) ;;
   prob' <- lift (getitem (prob self) ix) ;;
   bg' <- lift (getitem (bg self) ix) ;;
   xyz_cr' <- lift (getrows (xyz_cr self) ix) ;;
   phot_cr' <- lift (getitem (phot_cr self) ix) ;;
   bg_cr' <- lift (getitem (bg_cr self) ix) ;;
   __init__ xyz' phot' frame_ix' (Some id') (Some prob') (Some bg') (Some xyz_cr')
     (Some phot_cr') (Some bg_cr') false (xy_unit self) (px_size self))%py.

Definition getitem_msg (i : Z) (n : nat) : string :=
  ("Index " ++ str i ++ " out of bounds of EmitterSet of size " ++ str (Z.of_nat n))%string.

Definition __getitem__ (self : t) (it : item) : M t :=
  match it with
  | Int i =>
      if (Z.of_nat (__len__ self) <=? i)%Z
      then raise (IndexError (getitem_msg i (__len__ self)))
      else get_subset self it
  | Ix _ => get_subset self it
  end.

Definition clone (self : t) : M t :=
  __init__ (xyz self) (phot self) (frame_ix self) (Some (id self)) (Some (prob self))
    (Some (bg self)) (Some (xyz_cr self)) (Some (phot_cr self)) (Some (bg_cr self))
    false (xy_unit self) (px_size self).

(** [[emittersets[i].frame_ix + shift[i] for i in range(num_emittersets)]],
    from position [i] on. The sum is the one of [Z]; it is the sum of the
    tensors as long as it fits their integer type. *)
Fixpoint shifted (emittersets : list t) (shift : list Z) (i : nat) : res (list (list Z)) :=
  match emittersets with
  | [] => Ok []
  | e :: rest =>
      (s <~ get 0 shift (Z.of_nat i) ;;
       r <~ shifted rest shift (S i) ;;
       Ok (map (fun f => f + s)%Z (frame_ix e) :: r))%py
  end.

(** The first element of the list for which [f] is set. *)
Fixpoint first_set {A} (f : t -> option A) (emittersets : list t) : option A :=
  match emittersets with
  | [] => None
  | e :: rest => match f e with Some a => Some a | None => first_set f rest end
  end.

Definition cat (emittersets : list t) (remap_frame_ix : option (list Z))
    (step_frame_ix : option Z) : M t :=
  (let num_emittersets := length emittersets in
   shift <- match remap_frame_ix, step_frame_ix with
            | Some _, Some _ =>
                raise (ValueError
                  "You cannot specify remap frame ix and step frame ix at the same time.")
            | Some r, None => ret r
            | None, Some s => ret (arange_times num_emittersets s)
            | None, None => ret (repeat 0%Z num_emittersets)
            end ;;
   xyz <- lift (cat2 (map xyz emittersets)) ;;
   phot <- lift (cat1 (map phot emittersets)) ;;
   fs <- lift (shifted emittersets shift 0) ;;
   frame_ix <- lift (cat1 fs) ;;
   id <- lift (cat1 (map id emittersets)) ;;
   prob <- lift (cat1 (map prob emittersets)) ;;
   bg <- lift (cat1 (map bg emittersets)) ;;
   xyz_cr <- lift (cat2 (map xyz_cr emittersets)) ;;
   phot_cr <- lift (cat1 (map phot_cr emittersets)) ;;
   bg_cr <- lift (cat1 (map bg_cr emittersets)) ;;
   let xy_unit := first_set xy_unit emittersets in
   let px_size := first_set px_size emittersets in
   __init__ xyz phot frame_ix (Some id) (Some prob) (Some bg) (Some xyz_cr)
     (Some phot_cr) (Some bg_cr) true xy_unit px_size)%py.

(** [sort_by_frame_]. [sort] is [torch.Tensor.sort]: the sorted values and
    the indices of the elements in the original tensor. *)
Definition sort_by_frame_ (sort : list Z -> list Z * list Z) (self : t) : res t :=
  (let (frame_ix', ix) := sort (frame_ix self) in
   xyz' <~ getrows (xyz self) (LongTensor ix) ;;
   phot' <~ getitem (phot self) (LongTensor ix) ;;
   id' <~ getitem (id self) (LongTensor ix) ;;
   prob' <~ getitem (prob self) (LongTensor ix) ;;
   bg' <~ getitem (bg self) (LongTensor ix) ;;
   xyz_cr' <~ getrows (xyz_cr self) (LongTensor ix) ;;
   phot_cr' <~ getitem (phot_cr self) (LongTensor ix) ;;
   bg_cr' <~ getitem (bg_cr self) (LongTensor ix) ;;
   Ok {| xyz := xyz'; phot := phot'; frame_ix := frame_ix'; id := id'; prob := prob';
         bg := bg'; xyz_cr := xyz_cr'; phot_cr := phot_cr'; bg_cr := bg_cr';
         xy_unit := xy_unit self; px_size := px_size self; _sorted := true |})%py.

Definition sort_by_frame (sort : list Z -> list Z * list Z) (self : t) : M t :=
  (em <- clone self ;; lift (sort_by_frame_ sort em))%py.

(** The deprecated property [num_emitter]. *)
Definition num_emitter (self : t) : M Z := raise DeprecationWarning.

Definition get_subset_frame (self : t) (frame_start frame_end : Z) (shift_to : option Z)
  : M t :=
  (let ix := map (fun f => (frame_start <=? f) && (f <=? frame_end))%Z (frame_ix self) in
   em <- __getitem__ self (Ix (BoolTensor ix)) ;;
   if negb (truthy shift_to) then ret em
   else
     n <- num_emitter em ;;
     if negb (n =? 0)%Z then raise (ValueError EmptyString) else ret em)%py.

Definition set_xyz (self : t) (m : mat) : t :=
  {| xyz := m; phot := phot self; frame_ix := frame_ix self; id := id self;
     prob := prob self; bg := bg self; xyz_cr := xyz_cr self; phot_cr := phot_cr self;
     bg_cr := bg_cr self; xy_unit := xy_unit self; px_size := px_size self;
     _sorted := _sorted self |}.

Definition set_frame_ix (self : t) (f : list Z) : t :=
  {| xyz := xyz self; phot := phot self; frame_ix := f; id := id self;
     prob := prob self; bg := bg self; xyz_cr := xyz_cr self; phot_cr := phot_cr self;
     bg_cr := bg_cr self; xy_unit := xy_unit self; px_size := px_size self;
     _sorted := _sorted self |}.

Definition set_xy_unit (self : t) (u : option string) : t :=
  {| xyz := xyz self; phot := phot self; frame_ix := frame_ix self; id := id self;
     prob := prob self; bg := bg self; xyz_cr := xyz_cr self; phot_cr := phot_cr self;
     bg_cr := bg_cr self; xy_unit := u; px_size := px_size self;
     _sorted := _sorted self |}.

Definition set_px_size (self : t) (p : option (list scalar)) : t :=
  {| xyz := xyz self; phot := phot self; frame_ix := frame_ix self; id := id self;
     prob := prob self; bg := bg self; xyz_cr := xyz_cr self; phot_cr := phot_cr self;
     bg_cr := bg_cr self; xy_unit := xy_unit self; px_size := p;
     _sorted := _sorted self |}.

(** [convert_em], the conversion of a copy; a [frame_shift] is added to
    the frame indices (in [Z], see [shifted]) only when it is given. *)
Definition convert_em (self : t) (factor shift : option (list scalar))
    (axis : option (list Z)) (frame_shift : option Z) (new_xy_unit : option string)
  : M t :=
  (emn <- clone self ;;
   xyz' <- lift (_convert_coordinates emn factor shift axis) ;;
   let emn := set_xyz emn xyz' in
   let emn :=
     match frame_shift with
     | Some d => set_frame_ix emn (map (fun f => f + d)%Z (frame_ix emn))
     | None => emn
     end in
   let emn :=
     match new_xy_unit with
     | Some u => set_xy_unit emn (Some u)
     | None => emn
     end in
   ret emn)%py.

(** The setters of [xyz_px] and [xyz_nm]: a combined write of the position
    and the unit. *)
Definition xyz_px_setter (self : t) (xyz : mat) : t :=
  set_xy_unit (set_xyz self xyz) (Some "px"%string).

Definition xyz_nm_setter (self : t) (xyz : mat) : t :=
  set_xy_unit (set_xyz self xyz) (Some "nm"%string).

(** What [__next__] hands to the loop: the next element, or the signal
    [StopIteration] that ends it. *)
Inductive next : Type :=
| Yield (em : t)
| StopIteration.

(** [__iter__] resets the counter [n] of the object. *)
Definition __iter__ (self : t) : nat := 0.

(** [__next__] for the object and its counter: the counter is advanced
    before the row is fetched. *)
Definition __next__ (self : t) (n : nat) : M (next * nat) :=
  (if (Z.of_nat n <=? Z.of_nat (__len__ self) - 1)%Z then
     let n := S n in
     em <- get_subset self (Int (Z.of_nat n - 1)) ;;
     ret (Yield em, n)
   else ret (StopIteration, n))%py.

(** A [for] loop over the iterator that collects what it is handed; [None]
    when the fuel runs out before the iterator stops. *)
Fixpoint collect (fuel : nat) (self : t) (n : nat) : M (option (list t)) :=
  match fuel with
  | O => ret None
  | S fuel' =>
      (r <- __next__ self n ;;
       match r with
       | (Yield em, n') =>
           rest <- collect fuel' self n' ;;
           ret (option_map (cons em) rest)
       | (StopIteration, _) => ret (Some [])
       end)%py
  end.

(** [list(self)]. *)
Definition to_list (fuel : nat) (self : t) : M (option (list t)) :=
  collect fuel self (__iter__ self).

(** The property [single_frame]. *)
Definition single_frame (self : t) : bool :=
  (unique_numel (frame_ix self) =? 1)%nat.

(** [convert_em_], the conversion in place; [frame_shift] defaults to 0 and
    is always added (in [Z], see [shifted]). *)
Definition convert_em_ (self : t) (factor shift : option (list scalar))
    (axis : option (list Z)) (frame_shift : Z) (new_xy_unit : option string)
  : res t :=
  (xyz' <~ _convert_coordinates self factor shift axis ;;
   let self := set_xyz self xyz' in
   let self := set_frame_ix self (map (fun f => f + frame_shift)%Z (frame_ix self)) in
   let self :=
     match new_xy_unit with
     | Some u => set_xy_unit self (Some u)
     | None => self
     end in
   Ok self)%py.

End EmitterSet.

(** ** class LooseEmitterSet *)

Module LooseEmitterSet.

(** Start times, on-times and intensities are finite, hence rationals; the
    position is only copied. *)
Record t : Type := {
  xyz : mat;
  intensity : list Q;
  id : list Z;
  t0 : list Q;
  ontime : list Q;
  xy_unit : option string
}.

(** [torch.arange(n)]. *)
Definition arange (n : nat) : list Z := map Z.of_nat (seq 0 n).

Definition __init__ (xyz : mat) (intensity ontime t0 : list Q) (id : option (list Z))
    (xy_unit : option string) : t :=
  {| xyz := xyz;
     intensity := intensity;
     id := match id with Some i => i | None => arange (nrows xyz) end;
     t0 := t0;
     ontime := ontime;
     xy_unit := xy_unit |}.

(** The property [te], the end time. *)
Definition te (self : t) : res (list Q) :=
  broadcast2 Qplus (t0 self) (ontime self).

(** [torch.floor] and [torch.ceil] keep the float type. *)
Definition floor (q : Q) : Q := inject_Z (Qfloor q).
Definition ceil (q : Q) : Q := inject_Z (Qceiling q).

(** Conversion of a float to an integer: truncation towards zero. *)
Definition trunc (q : Q) : Z :=
  if Qle_bool 0 q then Qfloor q else Qceiling q.

(** [t.int()] and [t.type(torch.LongTensor)]: conversion of a float tensor to
    the signed integer type of [bits] bits. A value inside the range of the
    type is truncated towards zero. For a value outside it the conversion has
    no defined result; [oob bits q] stands for whatever the platform gives. *)
Definition to_int (oob : Z -> Q -> Z) (bits : Z) (q : Q) : Z :=
  let z := trunc q in
  if ((- 2 ^ (bits - 1) <=? z) && (z <? 2 ^ (bits - 1)))%Z then z else oob bits q.

(** The integer a float32 holds once the integer [z] is stored in it: 24
    significant bits, rounded to nearest, ties to the even significand.
    Integers of magnitude up to 2^24 are kept. *)
Definition f32_int (z : Z) : Z :=
  let a := Z.abs z in
  if (a <? 2 ^ 24)%Z then z
  else
    let e := (Z.log2 a - 23)%Z in
    let m := Z.shiftr a e in
    let r := Z.land a (Z.ones e) in
    let half := (2 ^ (e - 1))%Z in
    let m' := if (r <? half)%Z then m
              else if (half <? r)%Z then (m + 1)%Z
              else if Z.even m then m else (m + 1)%Z in
    (Z.sgn z * (m' * 2 ^ e))%Z.

(** A value stored in a float32 tensor, which is what [torch.zeros] and
    [torch.zeros_like] of it allocate. An integer value is rounded as
    [f32_int] does; a time, position or photon count is idealised as a
    rational and kept. *)
Definition f32 (q : Q) : Q :=
  if Qeq_bool (inject_Z (Qfloor q)) q then inject_Z (f32_int (Qfloor q)) else q.

(** [buf[c] = v]. *)
Definition set {A} (l : list A) (c : nat) (v : A) : res (list A) :=
  if (c <? length l)%nat then Ok (firstn c l ++ v :: skipn (S c) l)
  else Raise (IndexError (oob_msg (Z.of_nat c) 0 (length l))).

(** The output buffers and the row counter [c] of [_distribute_framewise]. *)
Record buffers : Type := {
  xyz_ : list (list scalar);
  phot_ : list Q;
  frame_ix_ : list Q;
  id_ : list Q;
  c : nat
}.

(** A [for] loop over a list of values, threading the state. *)
Fixpoint for_each {A S} (l : list A) (body : A -> S -> res S) (s : S) : res S :=
  match l with
  | [] => Ok s
  | a :: l' => (s' <~ body a s ;; for_each l' body s')%py
  end.

(** [range(n)] for an integer [n]. *)
Definition range (n : Z) : list nat := seq 0 (Z.to_nat n).

(** The body of the inner loop, for emitter [i] and its [j]-th frame. The
    buffers are float32: the frame index and the identity are stored in
    them, and [f] is the frame index as the photon count reads it back from
    [frame_ix_[c]]; [f + 1] is a float32 sum. *)
Definition fill (self : t) (frame_start te : list Q) (i j : nat) (b : buffers)
  : res buffers :=
  (row <~ get 0 (rows (xyz self)) (Z.of_nat i) ;;
   xyz' <~ set (xyz_ b) (c b) row ;;
   fs <~ get 0 frame_start (Z.of_nat i) ;;
   let f := f32 (fs + inject_Z (Z.of_nat j)) in
   frame_ix' <~ set (frame_ix_ b) (c b) f ;;
   idi <~ get 0 (id self) (Z.of_nat i) ;;
   id' <~ set (id_ b) (c b) (f32 (inject_Z idi)) ;;
   te_i <~ get 0 te (Z.of_nat i) ;;
   t0_i <~ get 0 (t0 self) (Z.of_nat i) ;;
   let ontime_on_frame := Qmin te_i (f32 (f + 1)) - Qmax t0_i f in
   int_i <~ get 0 (intensity self) (Z.of_nat i) ;;
   phot' <~ set (phot_ b) (c b) (ontime_on_frame * int_i) ;;
   Ok {| xyz_ := xyz'; phot_ := phot'; frame_ix_ := frame_ix'; id_ := id';
         c := S (c b) |})%py.

Definition sum (l : list Z) : Z := fold_right Z.add 0%Z l.

Definition _distribute_framewise (oob : Z -> Q -> Z) (self : t)
  : res (mat * list Q * list Q * list Q) :=
  (let frame_start := map floor (t0 self) in
   te <~ te self ;;
   let frame_last := map ceil te in
   d <~ broadcast2 Qminus frame_last frame_start ;;
   let frame_dur := map (to_int oob 64) d in
   let num_emitter_brut := sum frame_dur in
   if (num_emitter_brut <? 0)%Z
   then Raise (RuntimeError "Trying to create tensor with negative dimension")
   else
     let n := Z.to_nat num_emitter_brut in
     _ <~ (match ncols (xyz self) with
           | O => Raise (IndexError (oob_msg 0 1 0))
           | S _ => Ok tt
           end) ;;
     let b0 := {| xyz_ := repeat (repeat (Fin 0) (ncols (xyz self))) n;
                  phot_ := repeat 0 n;
                  frame_ix_ := repeat 0 n;
                  id_ := repeat 0 n;
                  c := 0 |} in
     b <~ for_each (seq 0 (nrows (xyz self)))
            (fun i b =>
               dur <~ get 0 frame_dur (Z.of_nat i) ;;
               for_each (range dur) (fill self frame_start te i) b)
            b0 ;;
     Ok ({| ncols := ncols (xyz self); rows := xyz_ b |}, phot_ b, frame_ix_ b, id_ b))%py.

(** [return_emitterset]: the float32 buffers of frame indices and
    identities are converted with [.int()], that is to int32. *)
Definition return_emitterset (oob : Z -> Q -> Z) (self : t) : M EmitterSet.t :=
  (r <- lift (_distribute_framewise oob self) ;;
   let '(xyz_, phot_, frame_ix_, id_) := r in
   EmitterSet.__init__ xyz_ (map Fin phot_) (map (to_int oob 32) frame_ix_)
     (Some (map (to_int oob 32) id_)) None None None None None true (xy_unit self) None)%py.

End LooseEmitterSet.

(** ** class CoordinateOnlyEmitter and class EmptyEmitterSet *)

Module CoordinateOnlyEmitter.

(** [xyz[:, 0]]: the first column, which has to exist. *)
Definition column0 (xyz : mat) : res (list scalar) :=
  (_ <~ col_check (ncols xyz) 0 ;;
   map_res (fun row => get 1 row 0) (rows xyz))%py.

(** [torch.zeros_like(t).int()]. *)
Definition zeros_like_int {A} (l : list A) : list Z := repeat 0%Z (length l).

(** Photon counts of 1 and frame indices of 0 for the given positions. *)
Definition __init__ (xyz : mat) (xy_unit : option string) : M EmitterSet.t :=
  (c <- lift (column0 xyz) ;;
   c' <- lift (column0 xyz) ;;
   EmitterSet.__init__ xyz (ones_like c) (zeros_like_int c')
     None None None None None None true xy_unit None)%py.

End CoordinateOnlyEmitter.

Module EmptyEmitterSet.

Definition __init__ : M EmitterSet.t :=
  CoordinateOnlyEmitter.__init__ empty_mat None.

End EmptyEmitterSet.

(** ** The data-model invariant and the vocabulary of the statements *)

Module Inv.

Import EmitterSet.

(** Every N-length attribute has the leading dimension of [xyz]. *)
Definition aligned (e : t) : Prop :=
  length (phot e) = __len__ e /\
  length (frame_ix e) = __len__ e /\
  length (id e) = __len__ e /\
  length (prob e) = __len__ e /\
  length (bg e) = __len__ e /\
  nrows (xyz_cr e) = __len__ e /\
  length (phot_cr e) = __len__ e /\
  length (bg_cr e) = __len__ e.

(** What the shape test of [_sanity_check] looks at: [prob] is not among its
    arguments. *)
Definition aligned_checked (e : t) : Prop :=
  length (phot e) = __len__ e /\
  length (frame_ix e) = __len__ e /\
  length (id e) = __len__ e /\
  length (bg e) = __len__ e /\
  nrows (xyz_cr e) = __len__ e /\
  length (phot_cr e) = __len__ e /\
  length (bg_cr e) = __len__ e.

(** The alignment invariant of the data model. *)
Definition wf (e : t) : Prop :=
  aligned e /\
  mat_ok (xyz e) /\ ncols (xyz e) = 3%nat /\
  mat_ok (xyz_cr e) /\ ncols (xyz_cr e) = 3%nat.

(** The unit is unset or one of the two supported ones. *)
Definition unit_ok (u : option string) : Prop :=
  u = None \/ u = Some "px"%string \/ u = Some "nm"%string.

(** The position in a tensor of length [n] an in-range index [i] denotes. *)
Definition row_of (n : nat) (i : Z) : nat :=
  Z.to_nat (if (i <? 0)%Z then i + Z.of_nat n else i)%Z.

(** The one-row tensor holding row [k]. *)
Definition pick {A} (k : nat) (l : list A) : list A :=
  match nth_error l k with
  | Some a => [a]
  | None => []
  end.

(** [op] applied to the entries of two rows, position by position. *)
Definition zip_with {A B C} (op : A -> B -> C) (a : list A) (b : list B) : list C :=
  map (fun p => op (fst p) (snd p)) (combine a b).

(** Every row of [m] scaled component-wise by [v]. *)
Definition scale (op : scalar -> scalar -> scalar) (m : mat) (v : list scalar) : mat :=
  {| ncols := ncols m; rows := map (fun r => zip_with op r v) (rows m) |}.

(** A 2-component scale gets the factor 1 for z. *)
Definition extend (v : list scalar) : list scalar :=
  if (length v =? 2)%nat then v ++ [Fin 1] else v.

(** The comparisons of [__eq__] that come before the metadata check. *)
Definition eq_fields (a b : EmitterSet.t) : res bool :=
  (c <~ tutil.tens_almeq_mat (EmitterSet.xyz a) (EmitterSet.xyz b) EmitterSet.eq_precision ;;
   if negb c then Ok false else
   c <~ tutil.tens_almeq_int (EmitterSet.frame_ix a) (EmitterSet.frame_ix b)
          EmitterSet.eq_precision ;;
   if negb c then Ok false else
   c <~ tutil.tens_almeq (EmitterSet.phot a) (EmitterSet.phot b) EmitterSet.eq_precision ;;
   if negb c then Ok false else
   c <~ tutil.tens_almeq (EmitterSet.prob a) (EmitterSet.prob b) EmitterSet.eq_precision ;;
   if negb c then Ok false else
   if negb (EmitterSet.unit_eqb (EmitterSet.xy_unit a) (EmitterSet.xy_unit b))
   then Ok false else
   c <~ (if all_nan (EmitterSet.bg a) then Ok (all_nan (EmitterSet.bg b))
         else tutil.tens_almeq (EmitterSet.bg a) (EmitterSet.bg b) EmitterSet.eq_precision) ;;
   if negb c then Ok false else
   c <~ (if all_nan_mat (EmitterSet.xyz_cr a) then Ok (all_nan_mat (EmitterSet.xyz_cr b))
         else tutil.tens_almeq (EmitterSet.bg a) (EmitterSet.bg b) EmitterSet.eq_precision) ;;
   if negb c then Ok false else
   c <~ (if all_nan (EmitterSet.phot_cr a) then Ok (all_nan (EmitterSet.phot_cr b))
         else tutil.tens_almeq (EmitterSet.bg a) (EmitterSet.bg b) EmitterSet.eq_precision) ;;
   if negb c then Ok false else
   c <~ (if all_nan (EmitterSet.bg_cr a) then Ok (all_nan (EmitterSet.bg_cr b))
         else tutil.tens_almeq (EmitterSet.bg a) (EmitterSet.bg b) EmitterSet.eq_precision) ;;
   if negb c then Ok false else Ok true)%py.

(** The rows of every attribute a boolean mask keeps. *)
Definition sel (e : t) (mask : list bool) : t :=
  {| xyz := {| ncols := ncols (xyz e); rows := select (rows (xyz e)) mask |};
     phot := select (phot e) mask;
     frame_ix := select (frame_ix e) mask;
     id := select (id e) mask;
     prob := select (prob e) mask;
     bg := select (bg e) mask;
     xyz_cr := {| ncols := ncols (xyz_cr e); rows := select (rows (xyz_cr e)) mask |};
     phot_cr := select (phot_cr e) mask;
     bg_cr := select (bg_cr e) mask;
     xy_unit := xy_unit e;
     px_size := px_size e;
     _sorted := false |}.

(** Frame [f] lies in the inclusive range. *)
Definition in_range (frame_start frame_end f : Z) : bool :=
  ((frame_start <=? f) && (f <=? frame_end))%Z.

(** No entry is NaN. *)
Definition no_nan (l : list scalar) : bool := forallb (fun x => negb (isnan x)) l.
Definition no_nan_mat (m : mat) : bool := forallb no_nan (rows m).

(** A float tensor that is known throughout or not at all: it holds no NaN,
    or nothing but NaN. *)
Definition whole (l : list scalar) : Prop := no_nan l = true \/ all_nan l = true.
Definition whole_mat (m : mat) : Prop := no_nan_mat m = true \/ all_nan_mat m = true.

(** A container that is equal to itself by the design of [==], and for
    which the comparison of the uncertainties does not decide the answer:
    position, photon count and probability hold no NaN; the background and
    each of the three uncertainty fields holds no NaN or nothing but NaN;
    and the background holds no NaN or the three uncertainty fields are all
    NaN. *)
Definition comparable (e : t) : Prop :=
  no_nan_mat (xyz e) = true /\ no_nan (phot e) = true /\ no_nan (prob e) = true /\
  whole (bg e) /\ whole_mat (xyz_cr e) /\ whole (phot_cr e) /\ whole (bg_cr e) /\
  (no_nan (bg e) = true \/
   (all_nan_mat (xyz_cr e) = true /\ all_nan (phot_cr e) = true /\
    all_nan (bg_cr e) = true)).

(** The container with its sort flag reset, as every constructor call
    leaves it. *)
Definition fresh (e : t) : t :=
  {| xyz := xyz e; phot := phot e; frame_ix := frame_ix e; id := id e;
     prob := prob e; bg := bg e; xyz_cr := xyz_cr e; phot_cr := phot_cr e;
     bg_cr := bg_cr e; xy_unit := xy_unit e; px_size := px_size e;
     _sorted := false |}.

(** The warning the validation issues for a non-empty container without a
    unit. *)
Definition unit_warning (e : t) : list string :=
  if (0 <? __len__ e)%nat then
    match xy_unit e with
    | None => ["No xyz unit specified. No guarantees given ..."%string]
    | Some _ => []
    end
  else [].

(** The canonical empty container. *)
Definition empty_set (u : option string) (p : option (list scalar)) : t :=
  {| xyz := empty_mat; phot := []; frame_ix := []; id := []; prob := []; bg := [];
     xyz_cr := empty_mat; phot_cr := []; bg_cr := [];
     xy_unit := u; px_size := p; _sorted := false |}.

(** The container with its sort flag set. *)
Definition marked (e : t) : t :=
  {| xyz := xyz e; phot := phot e; frame_ix := frame_ix e; id := id e;
     prob := prob e; bg := bg e; xyz_cr := xyz_cr e; phot_cr := phot_cr e;
     bg_cr := bg_cr e; xy_unit := xy_unit e; px_size := px_size e;
     _sorted := true |}.

(** [e'] holds, in every attribute, the rows of [e] at the positions [ix],
    in that order; the metadata is kept. *)
Definition permuted_by (ix : list Z) (e e' : t) : Prop :=
  gather 0 (rows (xyz e)) ix = Ok (rows (xyz e')) /\
  ncols (xyz e') = ncols (xyz e) /\
  gather 0 (phot e) ix = Ok (phot e') /\
  gather 0 (frame_ix e) ix = Ok (frame_ix e') /\
  gather 0 (id e) ix = Ok (id e') /\
  gather 0 (prob e) ix = Ok (prob e') /\
  gather 0 (bg e) ix = Ok (bg e') /\
  gather 0 (rows (xyz_cr e)) ix = Ok (rows (xyz_cr e')) /\
  ncols (xyz_cr e') = ncols (xyz_cr e) /\
  gather 0 (phot_cr e) ix = Ok (phot_cr e') /\
  gather 0 (bg_cr e) ix = Ok (bg_cr e') /\
  xy_unit e' = xy_unit e /\
  px_size e' = px_size e.

(** No axis argument, or one that names 3 columns. *)
Definition axis_ok (axis : option (list Z)) : Prop :=
  match axis with
  | None => True
  | Some ax => length ax = 3%nat
  end.

End Inv.

(** ** The vocabulary of the lowering *)

Module Lowering.

Import LooseEmitterSet.

(** One emitter of a LooseEmitterSet. *)
Record emitter : Type := {
  pos : list scalar;
  flux : Q;
  ident : Z;
  start : Q;
  dur : Q
}.

Definition emitter_at (L : t) (i : nat) : emitter :=
  {| pos := nth i (rows (xyz L)) [];
     flux := nth i (intensity L) 0;
     ident := nth i (id L) 0%Z;
     start := nth i (t0 L) 0;
     dur := nth i (ontime L) 0 |}.

Definition emitters (L : t) : list emitter :=
  map (emitter_at L) (seq 0 (nrows (xyz L))).

(** Every attribute has one entry per emitter, positions have 3 columns and
    no on-time is negative. *)
Definition wf_loose (L : t) : Prop :=
  mat_ok (xyz L) /\ ncols (xyz L) = 3%nat /\
  length (intensity L) = nrows (xyz L) /\
  length (id L) = nrows (xyz L) /\
  length (t0 L) = nrows (xyz L) /\
  length (ontime L) = nrows (xyz L) /\
  Forall (fun d => 0 <= d) (ontime L).

(** The number of frames an emitter occupies. *)
Definition span (em : emitter) : Z :=
  (Qceiling (start em + dur em) - Qfloor (start em))%Z.

(** The frames an emitter occupies, ascending. *)
Definition frames (em : emitter) : list Z :=
  map (fun j => (Qfloor (start em) + Z.of_nat j)%Z) (seq 0 (Z.to_nat (span em))).

(** The time an emitter is on during frame [f]. *)
Definition overlap (em : emitter) (f : Z) : Q :=
  Qmin (start em + dur em) (inject_Z f + 1) - Qmax (start em) (inject_Z f).

(** One output row: position, photon count, frame index, identity. *)
Record detection : Type := {
  d_xyz : list scalar;
  d_phot : Q;
  d_frame : Z;
  d_id : Z
}.

Definition detections (em : emitter) : list detection :=
  map (fun f => {| d_xyz := pos em; d_phot := overlap em f * flux em;
                   d_frame := f; d_id := ident em |})
      (frames em).

(** The rows of the lowering: emitter by emitter, frames ascending. *)
Definition lowered (L : t) : list detection := flat_map detections (emitters L).

(** The float [x] is the rational [q]. *)
Definition is_q (x : scalar) (q : Q) : Prop :=
  match x with
  | Fin a => a == q
  | NaN => False
  end.

(** What the inner loop writes for emitter [i] and its [j]-th frame, as the
    floats it stores. *)
Record written : Type := {
  w_xyz : list scalar;
  w_phot : Q;
  w_frame : Q;
  w_id : Q
}.

Definition write (L : t) (i j : nat) : written :=
  let em := emitter_at L i in
  let f := f32 (floor (start em) + inject_Z (Z.of_nat j)) in
  {| w_xyz := pos em;
     w_phot := (Qmin (start em + dur em) (f32 (f + 1)) - Qmax (start em) f) * flux em;
     w_frame := f;
     w_id := f32 (inject_Z (ident em)) |}.

(** The buffers once the rows [D] are written and [k] rows are left. *)
Definition filled (L : t) (D : list written) (k : nat) : buffers :=
  {| xyz_ := map w_xyz D ++ repeat (repeat (Fin 0) (ncols (xyz L))) k;
     phot_ := map w_phot D ++ repeat 0 k;
     frame_ix_ := map w_frame D ++ repeat 0 k;
     id_ := map w_id D ++ repeat 0 k;
     c := length D |}.

(** The rows the emitters with the given indices write. *)
Definition writes (L : t) (indices : list nat) : list written :=
  flat_map (fun i => map (write L i) (range (span (emitter_at L i)))) indices.

(** An integer a float32 holds exactly (and int32 as well): at most 2^24 in
    magnitude. *)
Definition exact (z : Z) : Prop := (- 2 ^ 24 <= z <= 2 ^ 24)%Z.

(** The frames of every emitter can be counted in float32: none lies below
    -2^24 and the first frame after the emitter went off is at most 2^24. *)
Definition frames_exact (L : t) : Prop :=
  Forall (fun em => (- 2 ^ 24 <= Qfloor (start em))%Z /\
                    (Qceiling (start em + dur em) <= 2 ^ 24)%Z)
         (emitters L).

(** Every identity is an integer a float32 holds exactly. *)
Definition ids_exact (L : t) : Prop := Forall exact (id L).

(** The row a loop iteration writes holds the detection of that emitter on
    that frame: its frame index and identity are stored as they are, and
    they are in the range of int32. *)
Definition matches (w : written) (d : detection) : Prop :=
  w_xyz w = d_xyz d /\ w_phot w == d_phot d /\
  w_frame w = inject_Z (d_frame d) /\
  w_id w = inject_Z (d_id d) /\
  exact (d_frame d) /\ exact (d_id d).

End Lowering.

(** ** The vocabulary of the further statements *)

Module Ops.

Import EmitterSet.

(** Two float entries that differ by at most the tolerance of [==]. *)
Definition near (x y : scalar) : Prop :=
  match x, y with
  | Fin a, Fin b => Qabs (a - b) <= eq_precision
  | _, _ => False
  end.

(** Two float entries with the same value (NaN in both, or equal numbers). *)
Definition same (x y : scalar) : Prop :=
  match x, y with
  | Fin a, Fin b => a == b
  | NaN, NaN => True
  | _, _ => False
  end.

(** A scale factor one can divide by. *)
Definition nonzero (x : scalar) : Prop :=
  match x with
  | Fin q => ~ q == 0
  | NaN => False
  end.

(** The container of length 1 that holds row [k] of every attribute. *)
Definition row (e : t) (k : nat) : t :=
  {| xyz := {| ncols := ncols (xyz e); rows := Inv.pick k (rows (xyz e)) |};
     phot := Inv.pick k (phot e);
     frame_ix := Inv.pick k (frame_ix e);
     id := Inv.pick k (id e);
     prob := Inv.pick k (prob e);
     bg := Inv.pick k (bg e);
     xyz_cr := {| ncols := ncols (xyz_cr e); rows := Inv.pick k (rows (xyz_cr e)) |};
     phot_cr := Inv.pick k (phot_cr e);
     bg_cr := Inv.pick k (bg_cr e);
     xy_unit := xy_unit e;
     px_size := px_size e;
     _sorted := false |}.

(** The index [i] lies in the range of a tensor of length [n]; negative
    indices count from the end. *)
Definition in_bounds (n : nat) (i : Z) : Prop := (- Z.of_nat n <= i < Z.of_nat n)%Z.

(** The frame shift of each input, as [cat] takes it from its arguments. *)
Definition shifts (remap_frame_ix : option (list Z)) (step_frame_ix : option Z)
    (num_emittersets : nat) : list Z :=
  match remap_frame_ix, step_frame_ix with
  | Some r, _ => r
  | None, Some s => arange_times num_emittersets s
  | None, None => repeat 0%Z num_emittersets
  end.

(** An integer that every integer type a frame index can have (int16, int32
    or int64) holds. *)
Definition fits (z : Z) : Prop := (- 2 ^ 15 <= z < 2 ^ 15)%Z.

(** Shifting the inputs from position [i] on never leaves the integer type:
    every shift, every frame index and every shifted frame index fits. The
    model adds in Z; under this condition a fixed-width addition gives the
    same sum. *)
Fixpoint shift_fits (emittersets : list t) (shift : list Z) (i : nat) : Prop :=
  match emittersets with
  | [] => True
  | e :: rest =>
      fits (nth i shift 0%Z) /\
      Forall (fun f => fits f /\ fits (f + nth i shift 0)%Z) (frame_ix e) /\
      shift_fits rest shift (S i)
  end.

(** The same for the one frame shift of a conversion; without a frame shift
    nothing is added. *)
Definition frame_shift_fits (frame_shift : option Z) (e : t) : Prop :=
  match frame_shift with
  | None => True
  | Some d => fits d /\ Forall (fun f => fits f /\ fits (f + d)%Z) (frame_ix e)
  end.

(** The frame indices of the inputs from position [i] on, each input shifted
    by its entry of [shift], one input after the other. *)
Fixpoint shifted_frames (emittersets : list t) (shift : list Z) (i : nat) : list Z :=
  match emittersets with
  | [] => []
  | e :: rest =>
      map (fun f => f + nth i shift 0)%Z (frame_ix e) ++ shifted_frames rest shift (S i)
  end.

(** The rows of the inputs one input after the other, the metadata of the
    first input that has it. *)
Definition joined (emittersets : list t) (shift : list Z) : t :=
  {| xyz := {| ncols := 3; rows := concat (map (fun e => rows (xyz e)) emittersets) |};
     phot := concat (map phot emittersets);
     frame_ix := shifted_frames emittersets shift 0;
     id := concat (map id emittersets);
     prob := concat (map prob emittersets);
     bg := concat (map bg emittersets);
     xyz_cr := {| ncols := 3; rows := concat (map (fun e => rows (xyz_cr e)) emittersets) |};
     phot_cr := concat (map phot_cr emittersets);
     bg_cr := concat (map bg_cr emittersets);
     xy_unit := first_set xy_unit emittersets;
     px_size := first_set px_size emittersets;
     _sorted := false |}.

(** The arguments of [cat] do not conflict and name a shift for every
    input. *)
Definition shift_args_ok (remap_frame_ix : option (list Z)) (step_frame_ix : option Z)
    (num_emittersets : nat) : Prop :=
  match remap_frame_ix, step_frame_ix with
  | Some _, Some _ => False
  | Some r, None => (num_emittersets <= length r)%nat
  | None, _ => True
  end.

(** The sum of a list of photon counts. *)
Definition photons (l : list Q) : Q := fold_right Qplus 0 l.

(** The frame shift [convert_em] applies: none when it is not given. *)
Definition frame_shift_of (frame_shift : option Z) : Z :=
  match frame_shift with Some d => d | None => 0%Z end.

(** A container with its positions scaled, then shifted, component by
    component, its frame indices shifted, and its unit replaced when a new
    one is given; the sort flag is unset. *)
Definition converted (e : t) (factor shift : list scalar) (d : Z)
    (new_xy_unit : option string) : t :=
  {| xyz := Inv.scale fadd (Inv.scale fmul (xyz e) factor) shift;
     phot := phot e;
     frame_ix := map (fun f => f + d)%Z (frame_ix e);
     id := id e; prob := prob e; bg := bg e;
     xyz_cr := xyz_cr e; phot_cr := phot_cr e; bg_cr := bg_cr e;
     xy_unit := match new_xy_unit with Some u => Some u | None => xy_unit e end;
     px_size := px_size e;
     _sorted := false |}.

End Ops.

(** ** Concrete containers *)

Module Samples.

Import EmitterSet.

(** [n] rows [x, x, x]. *)
Definition rows3 (n : nat) (x : Q) : mat :=
  {| ncols := 3; rows := repeat [Fin x; Fin x; Fin x] n |}.

Definition nan3 (n : nat) : mat :=
  {| ncols := 3; rows := repeat [NaN; NaN; NaN] n |}.

(** One emitter on frame [f], everything optional at its default. *)
Definition single (f : Z) (u : option string) (px : option (list scalar)) : t :=
  {| xyz := rows3 1 0; phot := [Fin 1]; frame_ix := [f]; id := [(-1)%Z];
     prob := [Fin 1]; bg := [NaN]; xyz_cr := nan3 1; phot_cr := [NaN]; bg_cr := [NaN];
     xy_unit := u; px_size := px; _sorted := false |}.

(** One emitter with a known background and the given position uncertainty. *)
Definition with_cr (cr : Q) : t :=
  {| xyz := rows3 1 0; phot := [Fin 1]; frame_ix := [0%Z]; id := [(-1)%Z];
     prob := [Fin 1]; bg := [Fin 0]; xyz_cr := rows3 1 cr; phot_cr := [NaN];
     bg_cr := [NaN]; xy_unit := Some "px"%string; px_size := None; _sorted := false |}.

(** Two emitters, on the given frames, with distinguishable rows. *)
Definition pair (f1 f2 : Z) : t :=
  {| xyz := {| ncols := 3; rows := [[Fin 1; Fin 1; Fin 1]; [Fin 2; Fin 2; Fin 2]] |};
     phot := [Fin 10; Fin 20]; frame_ix := [f1; f2]; id := [0%Z; 1%Z];
     prob := [Fin 1; Fin 1]; bg := [NaN; NaN]; xyz_cr := nan3 2;
     phot_cr := [NaN; NaN]; bg_cr := [NaN; NaN];
     xy_unit := Some "px"%string; px_size := None; _sorted := false |}.

(** Two emitters, the background known for the first only, as after
    concatenating a container with background and one without. *)
Definition half_bg : t :=
  {| xyz := rows3 2 0; phot := [Fin 1; Fin 1]; frame_ix := [0%Z; 0%Z];
     id := [(-1)%Z; (-1)%Z]; prob := [Fin 1; Fin 1]; bg := [Fin 0; NaN];
     xyz_cr := nan3 2; phot_cr := [NaN; NaN]; bg_cr := [NaN; NaN];
     xy_unit := Some "px"%string; px_size := None; _sorted := false |}.

(** One emitter that starts to blink at t = 0.5 and stays on for one frame
    time, with 100 photons per frame time. *)
Definition blink : LooseEmitterSet.t :=
  LooseEmitterSet.__init__ (rows3 1 0) [100] [1] [1 # 2] None (Some "px"%string).

(** The same emitter with the identity 2^24 + 1, an integer float32 does not
    hold. *)
Definition big_id : LooseEmitterSet.t :=
  LooseEmitterSet.__init__ (rows3 1 0) [100] [1] [1 # 2] (Some [16777217%Z])
    (Some "px"%string).

End Samples.

(** * Properties *)

Import Inv.

(** ** Indexing *)

Section Indexing.

Context {A : Type}.
Implicit Types (l : list A) (i : Z).

Lemma get_in_range dim l i :
  (- Z.of_nat (length l) <= i < Z.of_nat (length l))%Z ->
  exists a, nth_error l (row_of (length l) i) = Some a /\ get dim l i = Ok a.
Proof.
  intros Hi. unfold get, row_of.
  assert (Hk : (Z.to_nat (if (i <? 0)%Z then (i + Z.of_nat (length l))%Z else i)
                < length l)%nat).
  { destruct (Z.ltb_spec i 0); lia. }
  destruct (nth_error l _) as [a|] eqn:E.
  - exists a. split; [reflexivity|].
    destruct (Z.ltb_spec i (- Z.of_nat (length l))); [lia|].
    destruct (Z.leb_spec (Z.of_nat (length l)) i); [lia|]. reflexivity.
  - apply nth_error_None in E. lia.
Qed.

Lemma get_below dim l i :
  (i < - Z.of_nat (length l))%Z ->
  get dim l i = Raise (IndexError (oob_msg i dim (length l))).
Proof.
  intros Hi. unfold get.
  destruct (Z.ltb_spec i (- Z.of_nat (length l))); [reflexivity|lia].
Qed.

Lemma get_above dim l i :
  (Z.of_nat (length l) <= i)%Z ->
  get dim l i = Raise (IndexError (oob_msg i dim (length l))).
Proof.
  intros Hi. unfold get.
  destruct (Z.leb_spec (Z.of_nat (length l)) i); [|lia].
  now rewrite orb_true_r.
Qed.

Lemma pick_length k l : (k < length l)%nat -> length (pick k l) = 1%nat.
Proof.
  intros Hk. unfold pick. destruct (nth_error l k) eqn:E; [reflexivity|].
  apply nth_error_None in E. lia.
Qed.

Lemma gather_one dim l i :
  (- Z.of_nat (length l) <= i < Z.of_nat (length l))%Z ->
  gather dim l [i] = Ok (pick (row_of (length l) i) l).
Proof.
  intros Hi. destruct (get_in_range dim l Hi) as (a & Hn & Hg).
  simpl. rewrite Hg. simpl. unfold pick. now rewrite Hn.
Qed.

End Indexing.

Lemma row_of_lt n i : (- Z.of_nat n <= i < Z.of_nat n)%Z -> (row_of n i < n)%nat.
Proof. unfold row_of. destruct (Z.ltb_spec i 0); lia. Qed.


(** ** Construction *)

Lemma init_unchecked (x : mat) phot frame_ix id prob bg xyz_cr phot_cr bg_cr u p :
  ncols x = 3%nat -> nrows x <> 0%nat ->
  EmitterSet.__init__ x phot frame_ix (Some id) (Some prob) (Some bg) (Some xyz_cr)
    (Some phot_cr) (Some bg_cr) false u p
  = ([], Ok {| EmitterSet.xyz := x; EmitterSet.phot := phot;
               EmitterSet.frame_ix := frame_ix; EmitterSet.id := id;
               EmitterSet.prob := prob; EmitterSet.bg := bg;
               EmitterSet.xyz_cr := xyz_cr; EmitterSet.phot_cr := phot_cr;
               EmitterSet.bg_cr := bg_cr; EmitterSet.xy_unit := u;
               EmitterSet.px_size := p; EmitterSet._sorted := false |}).
Proof.
  intros Hc Hn. unfold EmitterSet.__init__, EmitterSet._set_typed.
  rewrite Hc. cbn. destruct (nrows x) eqn:E; [congruence|]. reflexivity.
Qed.

Lemma init_unchecked_empty (x : mat) phot frame_ix id prob bg xyz_cr phot_cr bg_cr u p :
  ncols x = 3%nat -> nrows x = 0%nat ->
  EmitterSet.__init__ x phot frame_ix id prob bg xyz_cr phot_cr bg_cr false u p
  = ([], Ok {| EmitterSet.xyz := empty_mat; EmitterSet.phot := [];
               EmitterSet.frame_ix := []; EmitterSet.id := [];
               EmitterSet.prob := []; EmitterSet.bg := [];
               EmitterSet.xyz_cr := empty_mat; EmitterSet.phot_cr := [];
               EmitterSet.bg_cr := []; EmitterSet.xy_unit := u;
               EmitterSet.px_size := p; EmitterSet._sorted := false |}).
Proof.
  intros Hc Hn. unfold EmitterSet.__init__, EmitterSet._set_typed.
  rewrite Hc. cbn. rewrite Hn. reflexivity.
Qed.

(** C9. Integer indexing of a container whose attributes are aligned and
    whose position has 3 columns: an index [i >= N] is refused by
    [__getitem__] with an IndexError whose message gives [i] and [N]; an index
    [i < -N] is refused by the tensor indexing with an IndexError that also
    gives [i] and [N]; every other index (Python counts a negative one from
    the end) returns the container of length 1 that holds that row of every
    attribute. *)
Theorem getitem_int_index (e : EmitterSet.t) (i : Z) :
  aligned e -> ncols (EmitterSet.xyz e) = 3%nat ->
  let N := EmitterSet.__len__ e in
  ((Z.of_nat N <= i)%Z ->
     EmitterSet.__getitem__ e (EmitterSet.Int i)
     = ([], Raise (IndexError ("Index " ++ str i ++ " out of bounds of EmitterSet of size "
                               ++ str (Z.of_nat N))%string))) /\
  ((i < - Z.of_nat N)%Z ->
     EmitterSet.__getitem__ e (EmitterSet.Int i)
     = ([], Raise (IndexError ("index " ++ str i ++ " is out of bounds for dimension 0 with size "
                               ++ str (Z.of_nat N))%string))) /\
  ((- Z.of_nat N <= i < Z.of_nat N)%Z ->
     let k := row_of N i in
     exists e',
       EmitterSet.__getitem__ e (EmitterSet.Int i) = ([], Ok e') /\
       EmitterSet.__len__ e' = 1%nat /\
       e' = {| EmitterSet.xyz := {| ncols := 3; rows := pick k (rows (EmitterSet.xyz e)) |};
               EmitterSet.phot := pick k (EmitterSet.phot e);
               EmitterSet.frame_ix := pick k (EmitterSet.frame_ix e);
               EmitterSet.id := pick k (EmitterSet.id e);
               EmitterSet.prob := pick k (EmitterSet.prob e);
               EmitterSet.bg := pick k (EmitterSet.bg e);
               EmitterSet.xyz_cr := {| ncols := ncols (EmitterSet.xyz_cr e);
                                       rows := pick k (rows (EmitterSet.xyz_cr e)) |};
               EmitterSet.phot_cr := pick k (EmitterSet.phot_cr e);
               EmitterSet.bg_cr := pick k (EmitterSet.bg_cr e);
               EmitterSet.xy_unit := EmitterSet.xy_unit e;
               EmitterSet.px_size := EmitterSet.px_size e;
               EmitterSet._sorted := false |}).
Proof.
  intros Hal Hc N. unfold EmitterSet.__len__, nrows in *.
  destruct Hal as (H1 & H2 & H3 & H4 & H5 & H6 & H7 & H8).
  unfold EmitterSet.__len__, nrows in *. subst N.
  split; [|split].
  - intros Hi. unfold EmitterSet.__getitem__, EmitterSet.__len__, nrows.
    destruct (Z.leb_spec (Z.of_nat (length (rows (EmitterSet.xyz e)))) i); [|lia].
    reflexivity.
  - intros Hi. unfold EmitterSet.__getitem__, EmitterSet.__len__, nrows.
    destruct (Z.leb_spec (Z.of_nat (length (rows (EmitterSet.xyz e)))) i); [lia|].
    unfold EmitterSet.get_subset, getrows, getitem. simpl gather.
    rewrite get_below by assumption. reflexivity.
  - intros Hi. set (k := row_of (length (rows (EmitterSet.xyz e))) i). eexists.
    unfold EmitterSet.__getitem__, EmitterSet.__len__, nrows.
    destruct (Z.leb_spec (Z.of_nat (length (rows (EmitterSet.xyz e)))) i); [lia|].
    unfold EmitterSet.get_subset, getrows, getitem.
    rewrite (gather_one 0 (rows (EmitterSet.xyz e))) by assumption.
    rewrite (gather_one 0 (EmitterSet.phot e)) by (rewrite H1; assumption).
    rewrite (gather_one 0 (EmitterSet.frame_ix e)) by (rewrite H2; assumption).
    rewrite (gather_one 0 (EmitterSet.id e)) by (rewrite H3; assumption).
    rewrite (gather_one 0 (EmitterSet.prob e)) by (rewrite H4; assumption).
    rewrite (gather_one 0 (EmitterSet.bg e)) by (rewrite H5; assumption).
    rewrite (gather_one 0 (rows (EmitterSet.xyz_cr e))) by (rewrite H6; assumption).
    rewrite (gather_one 0 (EmitterSet.phot_cr e)) by (rewrite H7; assumption).
    rewrite (gather_one 0 (EmitterSet.bg_cr e)) by (rewrite H8; assumption).
    rewrite H1, H2, H3, H4, H5, H6, H7, H8. fold k.
    assert (Hk : (k < length (rows (EmitterSet.xyz e)))%nat) by (apply row_of_lt; assumption).
    pose proof (pick_length (rows (EmitterSet.xyz e)) Hk) as Hp.
    cbn -[pick EmitterSet.__init__].
    rewrite init_unchecked; [|exact Hc|unfold nrows; cbn -[pick]; rewrite Hp; discriminate].
    rewrite Hc. split; [reflexivity|]. split; [exact Hp|reflexivity].
Qed.

(** ** Unit-aware coordinate accessors *)

Lemma map_res_ok {A B} (f : A -> res B) (g : A -> B) (l : list A) :
  Forall (fun a => f a = Ok (g a)) l -> map_res f l = Ok (map g l).
Proof.
  induction 1 as [|a l Ha _ IH]; [reflexivity|].
  simpl. rewrite Ha. simpl. rewrite IH. reflexivity.
Qed.

Lemma broadcast2_same {A B C} (f : A -> B -> C) (a : list A) (b : list B) :
  length a = length b -> broadcast2 f a b = Ok (zip_with f a b).
Proof.
  intros H. unfold broadcast2, zip_with. rewrite H, Nat.eqb_refl. reflexivity.
Qed.

Lemma mul_rows_same (m : mat) (v : list scalar) :
  mat_ok m -> ncols m = length v -> mul_rows m v = Ok (scale fmul m v).
Proof.
  intros Hm Hc. unfold mul_rows. rewrite Hc, Nat.eqb_refl. simpl.
  rewrite (map_res_ok _ (fun row => zip_with fmul row v)).
  - unfold scale. rewrite Hc. reflexivity.
  - eapply Forall_impl; [|exact Hm]. intros r Hr. cbn beta in Hr.
    apply broadcast2_same. congruence.
Qed.

Lemma fmul_finv (x p : scalar) : fmul x (finv p) = fdiv x p.
Proof.
  destruct x as [|a], p as [|b]; simpl; try reflexivity.
  destruct (Qeq_bool b 0); reflexivity.
Qed.

Lemma fmul_one (x : scalar) : fmul x (Fin 1) = fdiv x (Fin 1).
Proof. destruct x; reflexivity. Qed.

Lemma zip_inv_div (r v : list scalar) :
  zip_with fmul r (map finv v) = zip_with fdiv r v.
Proof.
  unfold zip_with. revert r; induction v as [|p v IH]; intros [|x r]; simpl; try reflexivity.
  rewrite fmul_finv. f_equal. apply IH.
Qed.

Lemma zip_inv_div_ext (r v : list scalar) :
  zip_with fmul r (map finv v ++ [Fin 1]) = zip_with fdiv r (v ++ [Fin 1]).
Proof.
  unfold zip_with. revert r; induction v as [|p v IH]; intros [|x r]; simpl; try reflexivity.
  - rewrite fmul_one. destruct r; reflexivity.
  - rewrite fmul_finv. f_equal. apply IH.
Qed.

Lemma extend_inv (px : list scalar) r :
  zip_with fmul r (extend (map finv px)) = zip_with fdiv r (extend px).
Proof.
  unfold extend. rewrite length_map.
  destruct (length px =? 2)%nat; [apply zip_inv_div_ext|apply zip_inv_div].
Qed.

Lemma extend_length (px : list scalar) :
  length px = 2%nat \/ length px = 3%nat -> length (extend px) = 3%nat.
Proof.
  unfold extend. intros [H|H]; rewrite H; simpl; [|exact H].
  rewrite length_app, H. reflexivity.
Qed.

Lemma convert_factor (e : EmitterSet.t) (f : list scalar) :
  mat_ok (EmitterSet.xyz e) -> ncols (EmitterSet.xyz e) = length (extend f) ->
  EmitterSet._convert_coordinates e (Some f) None None
  = Ok (scale fmul (EmitterSet.xyz e) (extend f)).
Proof.
  intros Hm Hc. unfold EmitterSet._convert_coordinates.
  fold (extend f). rewrite mul_rows_same by assumption. reflexivity.
Qed.

(** C5. The accessors [xyz_px] and [xyz_nm]: with the unit unset both warn
    and return [None] without raising; with the unit already the requested
    one the raw [xyz] is returned; when a conversion is needed and [px_size]
    is unset a ValueError is raised; otherwise (N x 3 positions, a pixel size
    of 2 or 3 components) every row is scaled component-wise by the pixel
    size, divided for px-from-nm and multiplied for nm-from-px, a
    2-component pixel size being extended by the factor 1 for z. *)
Theorem xyz_unit_accessors (e : EmitterSet.t) :
  (EmitterSet.xy_unit e = None ->
     EmitterSet.xyz_px e
       = (["If unit is unspecified, can not convert to px coordinates."%string], Ok None) /\
     EmitterSet.xyz_nm e
       = (["If unit is unspecified, can not convert to px coordinates."%string], Ok None)) /\
  (EmitterSet.xy_unit e = Some "px"%string ->
     EmitterSet.xyz_px e = ([], Ok (Some (EmitterSet.xyz e)))) /\
  (EmitterSet.xy_unit e = Some "nm"%string ->
     EmitterSet.xyz_nm e = ([], Ok (Some (EmitterSet.xyz e)))) /\
  (EmitterSet.xy_unit e = Some "nm"%string -> EmitterSet.px_size e = None ->
     EmitterSet.xyz_px e
       = ([], Raise (ValueError "Cannot convert between px and nm without px-size specified."))) /\
  (EmitterSet.xy_unit e = Some "px"%string -> EmitterSet.px_size e = None ->
     EmitterSet.xyz_nm e
       = ([], Raise (ValueError "Cannot convert between px and nm without px-size specified."))) /\
  (forall px,
     mat_ok (EmitterSet.xyz e) -> ncols (EmitterSet.xyz e) = 3%nat ->
     EmitterSet.px_size e = Some px -> (length px = 2%nat \/ length px = 3%nat) ->
     (EmitterSet.xy_unit e = Some "nm"%string ->
        EmitterSet.xyz_px e = ([], Ok (Some (scale fdiv (EmitterSet.xyz e) (extend px))))) /\
     (EmitterSet.xy_unit e = Some "px"%string ->
        EmitterSet.xyz_nm e = ([], Ok (Some (scale fmul (EmitterSet.xyz e) (extend px)))))).
Proof.
  unfold EmitterSet.xyz_px, EmitterSet.xyz_nm.
  repeat split.
  - rewrite H. reflexivity.
  - rewrite H. reflexivity.
  - intros ->. reflexivity.
  - intros ->. reflexivity.
  - intros -> ->. reflexivity.
  - intros -> ->. reflexivity.
  - intros ->. rewrite H1. simpl.
    rewrite convert_factor; try assumption.
    + simpl. do 3 f_equal. unfold scale. f_equal.
      apply map_ext. intros r. apply extend_inv.
    + rewrite H0. symmetry. apply extend_length. now rewrite length_map.
  - intros ->. rewrite H1. simpl.
    rewrite convert_factor; try assumption.
    + reflexivity.
    + rewrite H0. symmetry. now apply extend_length.
Qed.

(** ** Equality *)

(** C8. With both pixel sizes unset [eq_attr] answers True before it looks
    at the units: two containers in different units are reported to have the
    same metadata. *)
Theorem eq_attr_unset_px_skips_unit :
  EmitterSet.eq_attr (Samples.single 0 (Some "px"%string) None)
                     (Samples.single 0 (Some "nm"%string) None) = Ok true
  /\ EmitterSet.unit_eqb (Some "px"%string) (Some "nm"%string) = false.
Proof. split; reflexivity. Qed.

Lemma eq_attr_unset_px (a b : EmitterSet.t) :
  EmitterSet.px_size a = None -> EmitterSet.px_size b = None ->
  EmitterSet.eq_attr a b = Ok true.
Proof. intros Ha Hb. unfold EmitterSet.eq_attr. now rewrite Ha, Hb. Qed.

(** C2. Two containers that differ only in their (populated) position
    uncertainty, 1 against 2, compare equal: the branch for [xyz_cr] compares
    the backgrounds once more instead of the uncertainties. *)
Theorem eq_compares_bg_for_xyz_cr :
  EmitterSet.__eq__ (Samples.with_cr 1) (Samples.with_cr 2) = Ok true
  /\ all_nan_mat (EmitterSet.xyz_cr (Samples.with_cr 1)) = false
  /\ tutil.tens_almeq_mat (EmitterSet.xyz_cr (Samples.with_cr 1))
       (EmitterSet.xyz_cr (Samples.with_cr 2)) EmitterSet.eq_precision = Ok false.
Proof. repeat split; vm_compute; reflexivity. Qed.

Lemma eq_blind_to_populated_cr (a b : EmitterSet.t) (m : mat) (p c : list scalar) :
  all_nan_mat (EmitterSet.xyz_cr a) = false ->
  all_nan (EmitterSet.phot_cr a) = false ->
  all_nan (EmitterSet.bg_cr a) = false ->
  EmitterSet.__eq__ a
    {| EmitterSet.xyz := EmitterSet.xyz b; EmitterSet.phot := EmitterSet.phot b;
       EmitterSet.frame_ix := EmitterSet.frame_ix b; EmitterSet.id := EmitterSet.id b;
       EmitterSet.prob := EmitterSet.prob b; EmitterSet.bg := EmitterSet.bg b;
       EmitterSet.xyz_cr := m; EmitterSet.phot_cr := p; EmitterSet.bg_cr := c;
       EmitterSet.xy_unit := EmitterSet.xy_unit b;
       EmitterSet.px_size := EmitterSet.px_size b;
       EmitterSet._sorted := EmitterSet._sorted b |}
  = EmitterSet.__eq__ a b.
Proof.
  intros H1 H2 H3. unfold EmitterSet.__eq__, EmitterSet.eq_attr. cbn.
  rewrite H1, H2, H3. reflexivity.
Qed.

Ltac case_test c := destruct c as [[|]|]; cbn [rbind negb]; try reflexivity.

Lemma eq_split (a b : EmitterSet.t) :
  EmitterSet.__eq__ a b
  = (c <~ eq_fields a b ;;
     if c then (_ <~ EmitterSet.eq_attr a b ;; Ok true) else Ok false)%py.
Proof.
  unfold EmitterSet.__eq__, eq_fields.
  case_test (tutil.tens_almeq_mat (EmitterSet.xyz a) (EmitterSet.xyz b) EmitterSet.eq_precision).
  case_test (tutil.tens_almeq_int (EmitterSet.frame_ix a) (EmitterSet.frame_ix b)
               EmitterSet.eq_precision).
  case_test (tutil.tens_almeq (EmitterSet.phot a) (EmitterSet.phot b) EmitterSet.eq_precision).
  case_test (tutil.tens_almeq (EmitterSet.prob a) (EmitterSet.prob b) EmitterSet.eq_precision).
  destruct (EmitterSet.unit_eqb _ _); cbn [negb]; [|reflexivity].
  destruct (tutil.tens_almeq (EmitterSet.bg a) (EmitterSet.bg b) EmitterSet.eq_precision)
    as [[|]|];
  destruct (all_nan (EmitterSet.bg a)), (all_nan (EmitterSet.bg b)),
    (all_nan_mat (EmitterSet.xyz_cr a)), (all_nan_mat (EmitterSet.xyz_cr b)),
    (all_nan (EmitterSet.phot_cr a)), (all_nan (EmitterSet.phot_cr b)),
    (all_nan (EmitterSet.bg_cr a)), (all_nan (EmitterSet.bg_cr b));
  cbn [rbind negb]; reflexivity.
Qed.

(** ** The metadata check inside [__eq__] *)

Lemma eq_fields_px (a b : EmitterSet.t) p q :
  eq_fields (EmitterSet.set_px_size a p) (EmitterSet.set_px_size b q) = eq_fields a b.
Proof. reflexivity. Qed.

(** The value of the metadata check is discarded: changing only the pixel
    sizes of the operands never turns one boolean answer of [==] into the
    other and never changes the answer False; where an answer True is lost,
    it is lost to an exception raised inside [eq_attr]. *)
Lemma eq_answer_ignores_px_size (a b : EmitterSet.t) (p q : option (list scalar)) :
  let a' := EmitterSet.set_px_size a p in
  let b' := EmitterSet.set_px_size b q in
  (forall r r', EmitterSet.__eq__ a b = Ok r -> EmitterSet.__eq__ a' b' = Ok r' -> r = r') /\
  (EmitterSet.__eq__ a b = Ok false -> EmitterSet.__eq__ a' b' = Ok false) /\
  (EmitterSet.__eq__ a b = Ok true ->
     EmitterSet.__eq__ a' b' = Ok true \/
     exists x, EmitterSet.eq_attr a' b' = Raise x /\ EmitterSet.__eq__ a' b' = Raise x).
Proof.
  intros a' b'. subst a' b'. rewrite !eq_split, eq_fields_px.
  destruct (eq_fields a b) as [[|]|x]; cbn [rbind].
  - destruct (EmitterSet.eq_attr a b) as [c|x],
      (EmitterSet.eq_attr (EmitterSet.set_px_size a p) (EmitterSet.set_px_size b q)) as [c'|x'];
    cbn [rbind]; repeat split; try congruence; intros _; eauto.
  - repeat split; congruence.
  - repeat split; congruence.
Qed.

(** C10. The outcome of [==] does depend on the pixel sizes, through the
    exceptions of the metadata check. Two containers that differ in nothing
    else are equal with both pixel sizes unset, and with the right one set
    only, where [eq_attr] answers False and [==] discards it; with the left
    one set only, [(self.px_size == other.px_size)] is the plain False,
    which has no [all], and [==] raises AttributeError; with pixel sizes of
    2 and of 3 components the element-wise comparison raises RuntimeError. *)
Theorem eq_raises_with_px_size :
  EmitterSet.__eq__ (Samples.single 0 None None) (Samples.single 0 None None) = Ok true /\
  EmitterSet.eq_attr (Samples.single 0 None None)
                     (Samples.single 0 None (Some [Fin 100; Fin 100])) = Ok false /\
  EmitterSet.__eq__ (Samples.single 0 None None)
                    (Samples.single 0 None (Some [Fin 100; Fin 100])) = Ok true /\
  EmitterSet.__eq__ (Samples.single 0 None (Some [Fin 100; Fin 100]))
                    (Samples.single 0 None None)
  = Raise (AttributeError "'bool' object has no attribute 'all'") /\
  exists msg,
    EmitterSet.__eq__ (Samples.single 0 None (Some [Fin 100; Fin 100]))
                      (Samples.single 0 None (Some [Fin 100; Fin 100; Fin 1]))
    = Raise (RuntimeError msg).
Proof.
  split; [vm_compute; reflexivity|]. split; [vm_compute; reflexivity|].
  split; [vm_compute; reflexivity|]. split; [vm_compute; reflexivity|].
  eexists. vm_compute. reflexivity.
Qed.

(** What [eq_attr] answers True to. *)
Lemma eq_attr_true_iff (a b : EmitterSet.t) :
  EmitterSet.eq_attr a b = Ok true <->
  (EmitterSet.px_size a = None /\ EmitterSet.px_size b = None) \/
  (exists p q r,
     EmitterSet.px_size a = Some p /\ EmitterSet.px_size b = Some q /\
     broadcast2 EmitterSet.scalar_eqb p q = Ok r /\ forallb (fun c => c) r = true /\
     EmitterSet.unit_eqb (EmitterSet.xy_unit a) (EmitterSet.xy_unit b) = true).
Proof.
  unfold EmitterSet.eq_attr, EmitterSet.eq_all.
  destruct (EmitterSet.px_size a) as [p|], (EmitterSet.px_size b) as [q|]; cbn [rbind].
  - destruct (broadcast2 EmitterSet.scalar_eqb p q) as [r|x] eqn:E; cbn [rbind].
    + destruct (forallb (fun c => c) r) eqn:Er; cbn [negb].
      * destruct (EmitterSet.unit_eqb _ _) eqn:Eu; cbn [negb]; split.
        -- intros _. right. exists p, q, r. auto.
        -- reflexivity.
        -- discriminate.
        -- intros [[H _]|(p' & q' & r' & _ & _ & _ & _ & H)]; discriminate.
      * split; [discriminate|].
        intros [[H _]|(p' & q' & r' & [= <-] & [= <-] & Hr & Hf & _)]; [discriminate|].
        rewrite E in Hr. injection Hr as <-. congruence.
    + split; [discriminate|].
      intros [[H _]|(p' & q' & r' & [= <-] & [= <-] & Hr & _)]; [discriminate|].
      rewrite E in Hr. discriminate.
  - split; [discriminate|].
    intros [[H _]|(p' & q' & r' & _ & H & _)]; discriminate.
  - split; [discriminate|].
    intros [[_ H]|(p' & q' & r' & H & _)]; discriminate.
  - split; [auto|reflexivity].
Qed.

(** ** Frame-range subset *)

Lemma select_map_filter {A} (f : A -> bool) (l : list A) :
  select l (map f l) = filter f l.
Proof.
  induction l as [|a l IH]; [reflexivity|]. simpl. rewrite IH. reflexivity.
Qed.

Lemma select_length {A B} (l : list A) (l' : list B) (mask : list bool) :
  length l = length l' -> length (select l mask) = length (select l' mask).
Proof.
  revert l l'. induction mask as [|b mask IH]; intros [|a l] [|a' l'] H; simpl in *;
    try reflexivity; try discriminate.
  destruct b; simpl; auto.
Qed.

Lemma get_subset_mask (e : EmitterSet.t) (mask : list bool) :
  wf e -> length mask = EmitterSet.__len__ e -> length mask <> 1%nat ->
  EmitterSet.get_subset e (EmitterSet.Ix (BoolTensor mask)) = ([], Ok (sel e mask)).
Proof.
  intros ((H1 & H2 & H3 & H4 & H5 & H6 & H7 & H8) & _ & Hc & _ & Hc') Hm Hn.
  unfold EmitterSet.__len__, nrows in *.
  assert (Hix : match mask with
                | [b] => IntList [if b then 1%Z else 0%Z]
                | _ => BoolTensor mask
                end = BoolTensor mask).
  { destruct mask as [|b [|b' mask]]; try reflexivity. now elim Hn. }
  unfold EmitterSet.get_subset. rewrite Hix.
  unfold getrows, getitem, masked.
  rewrite H1, H2, H3, H4, H5, H6, H7, H8, Hm, Nat.eqb_refl.
  cbn [lift bind rbind app].
  destruct (select (rows (EmitterSet.xyz e)) mask) as [|r rs] eqn:E.
  - rewrite init_unchecked_empty by (assumption || reflexivity).
    unfold sel. rewrite E, Hc, Hc'.
    pose proof (fun B (l' : list B) => select_length (rows (EmitterSet.xyz e)) l' mask) as Hl.
    rewrite E in Hl. simpl in Hl.
    assert (Hnil : forall B (l' : list B),
               length (rows (EmitterSet.xyz e)) = length l' -> select l' mask = []).
    { intros B l' Hlen. apply length_zero_iff_nil. symmetry. now apply Hl. }
    rewrite (Hnil _ (EmitterSet.phot e)), (Hnil _ (EmitterSet.frame_ix e)),
      (Hnil _ (EmitterSet.id e)), (Hnil _ (EmitterSet.prob e)),
      (Hnil _ (EmitterSet.bg e)), (Hnil _ (rows (EmitterSet.xyz_cr e))),
      (Hnil _ (EmitterSet.phot_cr e)), (Hnil _ (EmitterSet.bg_cr e)) by congruence.
    reflexivity.
  - rewrite init_unchecked by (assumption || discriminate).
    unfold sel. rewrite E. reflexivity.
Qed.

(** With a falsy [shift_to], a well-formed container that does not hold
    exactly one emitter is cut down to the rows whose frame lies in the
    inclusive range. *)
Lemma get_subset_frame_selects (e : EmitterSet.t) (frame_start frame_end : Z) :
  wf e -> EmitterSet.__len__ e <> 1%nat ->
  EmitterSet.get_subset_frame e frame_start frame_end None
  = ([], Ok (sel e (map (in_range frame_start frame_end) (EmitterSet.frame_ix e))))
  /\ EmitterSet.frame_ix
       (sel e (map (in_range frame_start frame_end) (EmitterSet.frame_ix e)))
     = filter (in_range frame_start frame_end) (EmitterSet.frame_ix e).
Proof.
  intros Hwf Hn. split.
  - unfold EmitterSet.get_subset_frame, EmitterSet.__getitem__.
    fold (in_range frame_start frame_end).
    rewrite get_subset_mask; try assumption.
    + reflexivity.
    + rewrite length_map. apply Hwf.
    + rewrite length_map. destruct Hwf as ((_ & H2 & _) & _). congruence.
  - apply select_map_filter.
Qed.

(** A truthy [shift_to] never lets the call return: the deprecated
    [num_emitter] raises before the subset is looked at. *)
Lemma get_subset_frame_shift_raises (e : EmitterSet.t) (frame_start frame_end z : Z) :
  z <> 0%Z ->
  exists w x, EmitterSet.get_subset_frame e frame_start frame_end (Some z) = (w, Raise x).
Proof.
  intros Hz. unfold EmitterSet.get_subset_frame.
  destruct (EmitterSet.__getitem__ e _) as [w [em|x]]; cbn [bind].
  - assert (Ht : truthy (Some z) = true).
    { simpl. destruct (Z.eqb_spec z 0); [contradiction|reflexivity]. }
    rewrite Ht. cbn. eauto.
  - eauto.
Qed.

(** C7. Where [get_subset_frame] departs from the claim: an empty selection
    with a truthy [shift_to] is not returned but fails with
    DeprecationWarning; and for a container of exactly one emitter the mask is
    read as the integer index 0 or 1, so an emitter outside the range is
    returned and an emitter inside the range fails with an IndexError. *)
Theorem get_subset_frame_failures :
  EmitterSet.get_subset_frame (Samples.pair 1 7) 3 4 (Some 1%Z)
    = ([], Raise DeprecationWarning)
  /\ filter (in_range 3 4) (EmitterSet.frame_ix (Samples.pair 1 7)) = []
  /\ EmitterSet.get_subset_frame (Samples.single 5 (Some "px"%string) None) 0 3 None
    = ([], Ok (Samples.single 5 (Some "px"%string) None))
  /\ EmitterSet.get_subset_frame (Samples.single 5 (Some "px"%string) None) 5 5 None
    = ([], Raise (IndexError "index 1 is out of bounds for dimension 0 with size 1")).
Proof. repeat split; vm_compute; reflexivity. Qed.

(** ** Validation *)

Lemma same_shape_all (n : nat) (l : list nat) :
  Forall (fun k => k = n) l -> tutil.same_shape_tensor (n :: l) = true.
Proof.
  induction 1 as [|k l -> _ IH]; [reflexivity|].
  change (((n =? n)%nat && tutil.same_shape_tensor (n :: l)) = true).
  now rewrite Nat.eqb_refl, IH.
Qed.

Lemma same_shape_inv (n : nat) (l : list nat) :
  tutil.same_shape_tensor (n :: l) = true -> Forall (fun k => k = n) l.
Proof.
  revert n. induction l as [|k l IH]; intros n H; [constructor|].
  change (((n =? k)%nat && tutil.same_shape_tensor (k :: l)) = true) in H.
  apply andb_true_iff in H as [Hk Hl]. apply Nat.eqb_eq in Hk. subst k.
  constructor; [reflexivity|]. now apply IH.
Qed.

Lemma in_units_ok (u : string) :
  unit_ok (Some u) -> EmitterSet.in_units u = true.
Proof. intros [H|[H|H]]; inversion H; reflexivity. Qed.

Lemma sanity_check_passes (e : EmitterSet.t) :
  aligned_checked e -> unit_ok (EmitterSet.xy_unit e) ->
  EmitterSet._sanity_check e false = (unit_warning e, Ok true).
Proof.
  intros (H1 & H2 & H3 & H4 & H5 & H6 & H7) Hu.
  unfold EmitterSet._sanity_check, unit_warning.
  rewrite same_shape_all by (repeat constructor; assumption).
  cbn [negb tutil.same_dim_tensor Nat.eqb andb].
  destruct (0 <? EmitterSet.__len__ e)%nat; [|reflexivity].
  destruct (EmitterSet.xy_unit e) as [u|] eqn:E; [|reflexivity].
  rewrite in_units_ok by assumption. reflexivity.
Qed.

(** ** Concatenation of one container *)

Lemma init_checked (x : mat) phot frame_ix id prob bg xyz_cr phot_cr bg_cr u p :
  let e := {| EmitterSet.xyz := x; EmitterSet.phot := phot;
              EmitterSet.frame_ix := frame_ix; EmitterSet.id := id;
              EmitterSet.prob := prob; EmitterSet.bg := bg;
              EmitterSet.xyz_cr := xyz_cr; EmitterSet.phot_cr := phot_cr;
              EmitterSet.bg_cr := bg_cr; EmitterSet.xy_unit := u;
              EmitterSet.px_size := p; EmitterSet._sorted := false |} in
  wf e -> unit_ok u ->
  EmitterSet.__init__ x phot frame_ix (Some id) (Some prob) (Some bg) (Some xyz_cr)
    (Some phot_cr) (Some bg_cr) true u p
  = (unit_warning e, Ok e).
Proof.
  intros e Hwf Hu.
  assert (Hal : aligned_checked e).
  { destruct Hwf as ((H1 & H2 & H3 & H4 & H5 & H6 & H7 & H8) & _).
    repeat split; assumption. }
  destruct Hwf as (Hal' & Hm & Hc & Hm' & Hc').
  unfold EmitterSet.__init__, EmitterSet._set_typed.
  cbn [EmitterSet.xyz e] in Hc. rewrite Hc. cbn [Nat.eqb rbind lift bind].
  destruct (nrows x) eqn:En; cbn [Nat.eqb negb EmitterSet.default].
  - (* no row: the canonical empty tensors are the ones given *)
    destruct Hal' as (H1 & H2 & H3 & H4 & H5 & H6 & H7 & H8).
    unfold EmitterSet.__len__ in *. cbn in H1, H2, H3, H4, H5, H6, H7, H8.
    rewrite En in *.
    apply length_zero_iff_nil in H1, H2, H3, H4, H5, H7, H8.
    unfold nrows in H6, En. apply length_zero_iff_nil in H6, En.
    cbn in Hc'.
    assert (Ex : x = empty_mat).
    { destruct x as [c r]. cbn in *. subst. reflexivity. }
    assert (Ecr : xyz_cr = empty_mat).
    { destruct xyz_cr as [c r]. cbn in *. subst. reflexivity. }
    subst. cbn. reflexivity.
  - cbn [EmitterSet.xyz EmitterSet.phot EmitterSet.frame_ix EmitterSet.id
         EmitterSet.prob EmitterSet.bg EmitterSet.xyz_cr EmitterSet.phot_cr
         EmitterSet.bg_cr EmitterSet.xy_unit EmitterSet.px_size EmitterSet._sorted
         EmitterSet.blank].
    fold e. rewrite (sanity_check_passes Hal Hu).
    cbn. rewrite app_nil_r. reflexivity.
Qed.

Lemma map_add_0 (l : list Z) : map (fun f => (f + 0)%Z) l = l.
Proof.
  induction l as [|f l IH]; [reflexivity|]. simpl. now rewrite Z.add_0_r, IH.
Qed.

Lemma cat_single (c : EmitterSet.t) :
  wf c -> unit_ok (EmitterSet.xy_unit c) ->
  EmitterSet.cat [c] None None = (unit_warning c, Ok (fresh c)).
Proof.
  intros Hwf Hu. unfold EmitterSet.cat.
  cbn [length repeat map bind ret lift cat1 cat2 forallb concat EmitterSet.shifted
       get rbind app EmitterSet.first_set].
  cbn -[EmitterSet.__init__]. rewrite !app_nil_r, map_add_0.
  assert (Ex : {| ncols := ncols (EmitterSet.xyz c); rows := rows (EmitterSet.xyz c) |}
               = EmitterSet.xyz c) by (destruct (EmitterSet.xyz c); reflexivity).
  assert (Ecr : {| ncols := ncols (EmitterSet.xyz_cr c); rows := rows (EmitterSet.xyz_cr c) |}
                = EmitterSet.xyz_cr c) by (destruct (EmitterSet.xyz_cr c); reflexivity).
  rewrite Ex, Ecr.
  assert (Eu : match EmitterSet.xy_unit c with Some a => Some a | None => None end
               = EmitterSet.xy_unit c) by (destruct (EmitterSet.xy_unit c); reflexivity).
  assert (Ep : match EmitterSet.px_size c with Some a => Some a | None => None end
               = EmitterSet.px_size c) by (destruct (EmitterSet.px_size c); reflexivity).
  rewrite Eu, Ep.
  rewrite init_checked; [reflexivity| |assumption].
  exact Hwf.
Qed.

Lemma close_refl (a : Q) : tutil.close EmitterSet.eq_precision (Fin a) (Fin a) = true.
Proof.
  unfold tutil.close. apply Qle_bool_iff.
  setoid_replace (a - a) with 0 by ring. discriminate.
Qed.

Lemma close_int_refl (z : Z) : tutil.close_int EmitterSet.eq_precision z z = true.
Proof.
  unfold tutil.close_int. apply Qle_bool_iff.
  setoid_replace (inject_Z z - inject_Z z) with 0 by ring. discriminate.
Qed.

Lemma all2_refl {A} (f : A -> A -> bool) (l : list A) :
  Forall (fun x => f x x = true) l -> tutil.all2 f l l = true.
Proof.
  induction 1 as [|x l Hx _ IH]; [reflexivity|]. simpl. now rewrite Hx, IH.
Qed.

Lemma no_nan_close (l : list scalar) :
  no_nan l = true -> tutil.all2 (tutil.close EmitterSet.eq_precision) l l = true.
Proof.
  intros H. apply all2_refl. unfold no_nan in H. rewrite forallb_forall in H.
  apply Forall_forall. intros [|a] Hin; [|apply close_refl].
  specialize (H _ Hin). discriminate H.
Qed.

Lemma tens_almeq_refl (l : list scalar) :
  no_nan l = true -> tutil.tens_almeq l l EmitterSet.eq_precision = Ok true.
Proof.
  intros H. unfold tutil.tens_almeq. now rewrite Nat.eqb_refl, no_nan_close.
Qed.

Lemma tens_almeq_int_refl (l : list Z) :
  tutil.tens_almeq_int l l EmitterSet.eq_precision = Ok true.
Proof.
  unfold tutil.tens_almeq_int. rewrite Nat.eqb_refl, all2_refl; [reflexivity|].
  apply Forall_forall. intros z _. apply close_int_refl.
Qed.

Lemma tens_almeq_mat_refl (m : mat) :
  no_nan_mat m = true -> tutil.tens_almeq_mat m m EmitterSet.eq_precision = Ok true.
Proof.
  intros H. unfold tutil.tens_almeq_mat. rewrite !Nat.eqb_refl. cbn [negb].
  rewrite all2_refl; [reflexivity|].
  unfold no_nan_mat in H. rewrite forallb_forall in H.
  apply Forall_forall. intros r Hr. apply no_nan_close. now apply H.
Qed.

Lemma unit_eqb_refl (u : option string) : EmitterSet.unit_eqb u u = true.
Proof. destruct u; [apply String.eqb_refl|reflexivity]. Qed.

Lemma eq_attr_refl_returns (c : EmitterSet.t) : exists r, EmitterSet.eq_attr c c = Ok r.
Proof.
  unfold EmitterSet.eq_attr. destruct (EmitterSet.px_size c) as [p|]; [|eauto].
  unfold EmitterSet.eq_all. rewrite broadcast2_same by reflexivity. cbn [rbind].
  destruct (forallb _ _); cbn [negb]; [|eauto].
  destruct (EmitterSet.unit_eqb _ _); cbn [negb]; eauto.
Qed.

Lemma eq_refl_comparable (c : EmitterSet.t) :
  comparable c -> EmitterSet.__eq__ c c = Ok true.
Proof.
  intros (Hx & Hp & Hpr & Hbg & _ & _ & _ & Hcr).
  rewrite eq_split. unfold eq_fields.
  rewrite tens_almeq_mat_refl, tens_almeq_int_refl, !tens_almeq_refl, unit_eqb_refl
    by assumption.
  cbn [rbind negb].
  destruct (eq_attr_refl_returns c) as [r Hr].
  destruct Hcr as [Hn|(H2 & H3 & H4)].
  - rewrite tens_almeq_refl by assumption.
    destruct (all_nan (EmitterSet.bg c)), (all_nan_mat (EmitterSet.xyz_cr c)),
      (all_nan (EmitterSet.phot_cr c)), (all_nan (EmitterSet.bg_cr c));
      cbn [rbind negb]; rewrite Hr; reflexivity.
  - rewrite H2, H3, H4. destruct Hbg as [Hn|Ha].
    + rewrite tens_almeq_refl by assumption.
      destruct (all_nan (EmitterSet.bg c)); cbn [rbind negb]; rewrite Hr; reflexivity.
    + rewrite Ha. cbn [rbind negb]. rewrite Hr. reflexivity.
Qed.

(** C6, as amended. For a container that satisfies the alignment invariant
    and whose unit is unset or supported, [cat] of the one-element list with
    the default shift arguments returns a container with the attributes, the
    unit and the pixel size of the input; so [cat([c]) == c] answers what
    [c == c] answers. That answer is True when no compared field of [c] is
    partly NaN (position, photon count and probability hold no NaN; the
    background and each uncertainty field holds no NaN or nothing but NaN)
    and the background holds no NaN or the uncertainty fields are all NaN.
    Outside of these the answer is left open. *)
Theorem cat_single_identity (c : EmitterSet.t) :
  wf c -> unit_ok (EmitterSet.xy_unit c) ->
  exists w c',
    EmitterSet.cat [c] None None = (w, Ok c') /\
    c' = fresh c /\
    EmitterSet.__eq__ c' c = EmitterSet.__eq__ c c /\
    (comparable c -> EmitterSet.__eq__ c' c = Ok true).
Proof.
  intros Hwf Hu. exists (unit_warning c), (fresh c).
  split; [now apply cat_single|]. split; [reflexivity|].
  split; [reflexivity|]. intros Hc.
  change (EmitterSet.__eq__ c c = Ok true). now apply eq_refl_comparable.
Qed.

(** C6, the claim as stated fails: a validated container whose background
    is known for one of its two emitters only is returned unchanged by [cat],
    and is not equal to itself. *)
Lemma cat_single_nan_not_equal :
  exists c',
    EmitterSet.cat [Samples.half_bg] None None = ([], Ok c') /\
    EmitterSet.__eq__ c' Samples.half_bg = Ok false /\
    EmitterSet.__eq__ Samples.half_bg Samples.half_bg = Ok false.
Proof. eexists. repeat split; vm_compute; reflexivity. Qed.

(** ** The alignment invariant *)

Lemma bind_ok {A B} (c : M A) (k : A -> M B) w b :
  bind c k = (w, Ok b) ->
  exists w1 a w2, c = (w1, Ok a) /\ k a = (w2, Ok b) /\ w = w1 ++ w2.
Proof.
  unfold bind. destruct c as [w1 [a|x]]; [|discriminate].
  destruct (k a) as [w2 r] eqn:E. intros [= <- ->]. eauto 6.
Qed.

Lemma lift_ok {A} (r : res A) w a : lift r = (w, Ok a) -> r = Ok a /\ w = [].
Proof. unfold lift. intros [= <- ->]. auto. Qed.

Lemma rbind_ok {A B} (c : res A) (k : A -> res B) b :
  rbind c k = Ok b -> exists a, c = Ok a /\ k a = Ok b.
Proof. destruct c as [a|x]; [eauto|discriminate]. Qed.

Ltac inv_bind :=
  repeat match goal with
    | H : bind _ _ = (_, Ok _) |- _ =>
        let w1 := fresh "w" in let w2 := fresh "w" in let a := fresh "a" in
        apply bind_ok in H as (w1 & a & w2 & ? & H & ?)
    | H : lift _ = (_, Ok _) |- _ => apply lift_ok in H as [H ?]
    | H : rbind _ _ = Ok _ |- _ =>
        let a := fresh "a" in apply rbind_ok in H as (a & ? & H)
    | H : ret _ = (_, Ok _) |- _ => unfold ret in H; injection H as ? ?
    | H : Ok _ = Ok _ |- _ => injection H as H
    end.

Lemma gather_length {A} dim (l : list A) ix r :
  gather dim l ix = Ok r -> length r = length ix.
Proof.
  revert r. induction ix as [|i ix IH]; intros r H; simpl in H.
  - now injection H as <-.
  - inv_bind. subst r. simpl. f_equal. now apply IH.
Qed.

Lemma get_In {A} dim (l : list A) i a : get dim l i = Ok a -> In a l.
Proof.
  unfold get. destruct (_ || _); [discriminate|].
  destruct (nth_error l _) eqn:E; [|discriminate].
  intros [= <-]. eapply nth_error_In, E.
Qed.

Lemma gather_Forall {A} (P : A -> Prop) dim (l : list A) ix r :
  Forall P l -> gather dim l ix = Ok r -> Forall P r.
Proof.
  intros Hl. revert r. induction ix as [|i ix IH]; intros r H; simpl in H.
  - injection H as <-. constructor.
  - inv_bind. subst r. constructor; [|now apply IH].
    rewrite Forall_forall in Hl. eapply Hl, get_In; eassumption.
Qed.

Lemma select_Forall {A} (P : A -> Prop) (l : list A) mask :
  Forall P l -> Forall P (select l mask).
Proof.
  intros Hl. revert mask. induction Hl as [|a l Ha _ IH]; intros [|b mask]; simpl;
    try constructor.
  destruct b; [constructor|]; auto.
Qed.

(** Indexing a tensor keeps the property of its entries, and indexing two
    tensors of the same length with the same index gives the same length. *)
Lemma getitem_Forall {A} (P : A -> Prop) (l : list A) ix r :
  Forall P l -> getitem l ix = Ok r -> Forall P r.
Proof.
  intros Hl. destruct ix as [ix|ix|mask]; simpl; try apply gather_Forall; try assumption.
  unfold masked. destruct (_ =? _)%nat; [|discriminate].
  intros [= <-]. now apply select_Forall.
Qed.

Lemma getitem_length {A B} (l : list A) (l' : list B) ix r r' :
  length l = length l' -> getitem l ix = Ok r -> getitem l' ix = Ok r' ->
  length r = length r'.
Proof.
  intros Hl. destruct ix as [ix|ix|mask]; simpl.
  - intros H H'. apply gather_length in H, H'. congruence.
  - intros H H'. apply gather_length in H, H'. congruence.
  - unfold masked. rewrite Hl. destruct (_ =? _)%nat; [|discriminate].
    intros [= <-] [= <-]. now apply select_length.
Qed.


Lemma sanity_check_ok (e : EmitterSet.t) cu w b :
  EmitterSet._sanity_check e cu = (w, Ok b) -> aligned_checked e.
Proof.
  unfold EmitterSet._sanity_check.
  destruct (tutil.same_shape_tensor _) eqn:E; [|discriminate].
  intros _. apply same_shape_inv in E.
  repeat match goal with H : Forall _ (_ :: _) |- _ => inversion H; clear H; subst end.
  unfold aligned_checked. repeat split; assumption.
Qed.

Lemma pad_zero_col_shape (m m' : mat) :
  pad_zero_col m = Ok m' ->
  ncols m' = S (ncols m) /\ nrows m' = nrows m /\ (mat_ok m -> mat_ok m').
Proof.
  unfold pad_zero_col. destruct (ncols m) eqn:E; [discriminate|].
  intros [= <-]. unfold nrows, mat_ok. cbn [ncols rows]. rewrite length_map.
  repeat split. rewrite E. intros Hm. apply Forall_map.
  eapply Forall_impl; [|exact Hm]. intros r Hr. cbn beta in *.
  rewrite length_app, Hr. simpl. lia.
Qed.

(** What [_set_typed] makes of the position. *)
Lemma set_typed_xyz self x phot frame_ix id prob bg xyz_cr phot_cr bg_cr e :
  EmitterSet._set_typed self x phot frame_ix id prob bg xyz_cr phot_cr bg_cr = Ok e ->
  (ncols x = 2%nat \/ ncols x = 3%nat -> ncols (EmitterSet.xyz e) = 3%nat) /\
  (mat_ok x -> mat_ok (EmitterSet.xyz e)).
Proof.
  unfold EmitterSet._set_typed. intros H. inv_bind.
  assert (Ha : (ncols x = 2%nat \/ ncols x = 3%nat -> ncols a = 3%nat) /\
               (mat_ok x -> mat_ok a)).
  { destruct (Nat.eqb_spec (ncols x) 3) as [E|E].
    - injection H0 as <-. auto.
    - apply pad_zero_col_shape in H0 as (Hc & _ & Hm). split; [|exact Hm].
      intros [E2|E3]; [|contradiction]. now rewrite Hc, E2. }
  destruct (negb _); injection H as <-; cbn [EmitterSet.xyz].
  - exact Ha.
  - split; [reflexivity|]. intros _. constructor.
Qed.

Lemma init_checked_guarantee x phot frame_ix id prob bg xyz_cr phot_cr bg_cr u p w e :
  EmitterSet.__init__ x phot frame_ix id prob bg xyz_cr phot_cr bg_cr true u p
    = (w, Ok e) ->
  aligned_checked e /\
  (ncols x = 2%nat \/ ncols x = 3%nat -> ncols (EmitterSet.xyz e) = 3%nat) /\
  (mat_ok x -> mat_ok (EmitterSet.xyz e)).
Proof.
  unfold EmitterSet.__init__. intros H. inv_bind. subst.
  match goal with
  | Hs : EmitterSet._sanity_check _ _ = _, Ht : EmitterSet._set_typed _ _ _ _ _ _ _ _ _ _ = _ |- _ =>
      apply sanity_check_ok in Hs; apply set_typed_xyz in Ht;
      split; [exact Hs|exact Ht]
  end.
Qed.

Lemma repeat_Forall {A} (P : A -> Prop) (a : A) n : P a -> Forall P (repeat a n).
Proof. intros Ha. induction n; simpl; constructor; auto. Qed.

(** A validated construction that leaves the optional attributes to their
    defaults satisfies the whole invariant. *)
Lemma init_defaults_wf x phot frame_ix id u p w e :
  EmitterSet.__init__ x phot frame_ix id None None None None None true u p = (w, Ok e) ->
  mat_ok x -> (ncols x = 2%nat \/ ncols x = 3%nat) -> wf e.
Proof.
  intros H Hm Hc.
  destruct (init_checked_guarantee _ _ _ _ _ _ _ _ _ _ _ H)
    as ((H1 & H2 & H3 & H5 & H6 & H7 & H8) & Hc3 & Hmx).
  specialize (Hc3 Hc). specialize (Hmx Hm).
  unfold EmitterSet.__init__ in H. inv_bind. subst.
  match goal with
  | Ht : EmitterSet._set_typed _ _ _ _ _ _ _ _ _ _ = _ |- _ =>
      unfold EmitterSet._set_typed in Ht; inv_bind; rename Ht into H0
  end.
  cbn [EmitterSet.xyz EmitterSet.phot EmitterSet.frame_ix EmitterSet.id EmitterSet.prob
       EmitterSet.bg EmitterSet.xyz_cr EmitterSet.phot_cr EmitterSet.bg_cr
       EmitterSet.__len__] in *.
  destruct (negb _); injection H0 as <-;
    cbn [EmitterSet.xyz EmitterSet.phot EmitterSet.frame_ix EmitterSet.id EmitterSet.prob
         EmitterSet.bg EmitterSet.xyz_cr EmitterSet.phot_cr EmitterSet.bg_cr
         EmitterSet.__len__ EmitterSet.default] in *.
  - unfold wf, aligned, EmitterSet.__len__.
    cbn [EmitterSet.xyz EmitterSet.phot EmitterSet.frame_ix EmitterSet.id EmitterSet.prob
         EmitterSet.bg EmitterSet.xyz_cr EmitterSet.phot_cr EmitterSet.bg_cr].
    repeat split; try assumption.
    + unfold ones_like. rewrite repeat_length. assumption.
    + unfold mat_ok, nan_like_mat. cbn [rows ncols]. apply Forall_map.
      apply Forall_forall. intros r _. apply repeat_length.
  - repeat split; try reflexivity; constructor.
Qed.

Lemma empty_set_wf u p : wf (empty_set u p) /\ EmitterSet.__len__ (empty_set u p) = 0%nat.
Proof. repeat split; constructor. Qed.

(** A position without rows (and with a column to index) constructs the
    canonical empty container, whatever else is passed, and validation
    accepts it. *)
Lemma init_empty x phot frame_ix id prob bg xyz_cr phot_cr bg_cr sc u p :
  nrows x = 0%nat -> ncols x <> 0%nat ->
  EmitterSet.__init__ x phot frame_ix id prob bg xyz_cr phot_cr bg_cr sc u p
  = ([], Ok (empty_set u p)).
Proof.
  intros Hn Hc. unfold EmitterSet.__init__, EmitterSet._set_typed.
  assert (Hx : exists x', (if (ncols x =? 3)%nat then Ok x else pad_zero_col x) = Ok x'
                          /\ nrows x' = 0%nat).
  { destruct (ncols x =? 3)%nat; [eauto|].
    unfold pad_zero_col. destruct (ncols x); [contradiction|].
    eexists. split; [reflexivity|]. unfold nrows in *. cbn. now rewrite length_map. }
  destruct Hx as (x' & -> & Hn'). cbn [rbind]. rewrite Hn'.
  destruct sc; reflexivity.
Qed.

Lemma wf_empty_fields (e : EmitterSet.t) :
  wf e -> EmitterSet.__len__ e = 0%nat -> fresh e = empty_set (EmitterSet.xy_unit e)
                                                       (EmitterSet.px_size e).
Proof.
  intros ((H1 & H2 & H3 & H4 & H5 & H6 & H7 & H8) & _ & Hc & _ & Hc') Hn.
  rewrite Hn in *. unfold EmitterSet.__len__, nrows in *.
  apply length_zero_iff_nil in H1, H2, H3, H4, H5, H6, H7, H8, Hn.
  unfold fresh, empty_set. rewrite H1, H2, H3, H4, H5, H7, H8.
  destruct (EmitterSet.xyz e) as [c r], (EmitterSet.xyz_cr e) as [c' r'].
  cbn in *. subst. reflexivity.
Qed.

Lemma clone_fresh (e : EmitterSet.t) :
  wf e -> EmitterSet.clone e = ([], Ok (fresh e)).
Proof.
  intros Hwf. unfold EmitterSet.clone.
  destruct (Nat.eq_dec (EmitterSet.__len__ e) 0) as [E|E].
  - rewrite init_empty; [|exact E|].
    + now rewrite wf_empty_fields.
    + destruct Hwf as (_ & _ & -> & _). discriminate.
  - rewrite init_unchecked; [reflexivity| |exact E]. apply Hwf.
Qed.

Lemma fresh_wf (e : EmitterSet.t) : wf e -> wf (fresh e).
Proof. intros H. exact H. Qed.

(** The object a constructor call builds from aligned attributes. *)
Lemma init_full_wf (x : mat) phot frame_ix id prob bg xyz_cr phot_cr bg_cr sc u p w e :
  EmitterSet.__init__ x phot frame_ix (Some id) (Some prob) (Some bg) (Some xyz_cr)
    (Some phot_cr) (Some bg_cr) sc u p = (w, Ok e) ->
  mat_ok x -> ncols x = 3%nat -> mat_ok xyz_cr -> ncols xyz_cr = 3%nat ->
  length phot = nrows x -> length frame_ix = nrows x -> length id = nrows x ->
  length prob = nrows x -> length bg = nrows x -> nrows xyz_cr = nrows x ->
  length phot_cr = nrows x -> length bg_cr = nrows x ->
  wf e.
Proof.
  intros H Hm Hc Hm' Hc' H1 H2 H3 H4 H5 H6 H7 H8.
  destruct (Nat.eq_dec (nrows x) 0) as [E|E].
  - rewrite init_empty in H; [|exact E|rewrite Hc; discriminate].
    injection H as _ <-. apply empty_set_wf.
  - unfold EmitterSet.__init__, EmitterSet._set_typed in H.
    rewrite Hc in H. cbn [Nat.eqb rbind lift bind] in H.
    destruct (nrows x) eqn:En; [congruence|]. cbn [Nat.eqb negb EmitterSet.default] in H.
    assert (He : e = {| EmitterSet.xyz := x; EmitterSet.phot := phot;
                        EmitterSet.frame_ix := frame_ix; EmitterSet.id := id;
                        EmitterSet.prob := prob; EmitterSet.bg := bg;
                        EmitterSet.xyz_cr := xyz_cr; EmitterSet.phot_cr := phot_cr;
                        EmitterSet.bg_cr := bg_cr; EmitterSet.xy_unit := u;
                        EmitterSet.px_size := p; EmitterSet._sorted := false |}).
    { destruct sc.
      - destruct (EmitterSet._sanity_check _ _) as [w' [b|x']]; cbn in H.
        + now injection H as _ <-.
        + discriminate.
      - cbn in H. now injection H as _ <-. }
    subst e. unfold wf, aligned, EmitterSet.__len__. cbn. rewrite En.
    repeat split; assumption.
Qed.

Lemma get_subset_wf (e : EmitterSet.t) (ix : EmitterSet.item) w e' :
  wf e -> EmitterSet.get_subset e ix = (w, Ok e') -> wf e'.
Proof.
  intros ((H1 & H2 & H3 & H4 & H5 & H6 & H7 & H8) & Hm & Hc & Hm' & Hc') H.
  unfold EmitterSet.__len__, nrows in *.
  unfold EmitterSet.get_subset in H.
  set (ix' := match ix with
              | EmitterSet.Int i => IntList [i]
              | EmitterSet.Ix (LongTensor [k]) => IntList [k]
              | EmitterSet.Ix (BoolTensor [b]) => IntList [if b then 1%Z else 0%Z]
              | EmitterSet.Ix ix => ix
              end) in H.
  clearbody ix'. inv_bind. unfold getrows in *. inv_bind. subst.
  eapply init_full_wf with (1 := H); unfold nrows, mat_ok; cbn [ncols rows];
    try assumption;
    try (eapply getitem_length; [|eassumption|eassumption]; congruence);
    eapply getitem_Forall; eassumption.
Qed.

(** *** Concatenation *)

Lemma cat1_ok {A} (ts : list (list A)) r : cat1 ts = Ok r -> r = concat ts.
Proof. unfold cat1. destruct ts; [discriminate|]. now intros [= <-]. Qed.

Lemma cat2_ok (ms : list mat) (m : mat) :
  cat2 ms = Ok m ->
  rows m = concat (map rows ms) /\ exists m0 ms', ms = m0 :: ms' /\ ncols m = ncols m0.
Proof.
  unfold cat2. destruct ms as [|m0 ms']; [discriminate|].
  destruct (forallb _ _); [|discriminate]. intros [= <-]. cbn [rows ncols]. eauto.
Qed.

Lemma concat_length_eq {A B C} (f : A -> list B) (g : A -> list C) (l : list A) :
  Forall (fun a => length (f a) = length (g a)) l ->
  length (concat (map f l)) = length (concat (map g l)).
Proof.
  induction 1 as [|a l Ha _ IH]; [reflexivity|].
  simpl. rewrite !length_app. congruence.
Qed.

Lemma concat_Forall {A} (P : A -> Prop) (ls : list (list A)) :
  Forall (Forall P) ls -> Forall P (concat ls).
Proof.
  induction 1 as [|l ls Hl _ IH]; simpl; [constructor|]. apply Forall_app. auto.
Qed.

Lemma shifted_length (es : list EmitterSet.t) shift i fs :
  EmitterSet.shifted es shift i = Ok fs ->
  length (concat fs) = length (concat (map EmitterSet.frame_ix es)).
Proof.
  revert i fs. induction es as [|e es IH]; intros i fs H; simpl in H.
  - now injection H as <-.
  - inv_bind. subst fs. simpl. rewrite !length_app, length_map. f_equal. eauto.
Qed.

Lemma cat_wf (es : list EmitterSet.t) remap step w e' :
  Forall wf es -> EmitterSet.cat es remap step = (w, Ok e') -> wf e'.
Proof.
  intros Hes H. unfold EmitterSet.cat in H. inv_bind. subst.
  repeat match goal with
         | Hc : cat1 _ = Ok _ |- _ => apply cat1_ok in Hc; subst
         | Hc : cat2 _ = Ok _ |- _ =>
             let m0 := fresh "m" in let ms := fresh "ms" in
             apply cat2_ok in Hc as (? & m0 & ms & ? & ?)
         end.
  match goal with Hs : EmitterSet.shifted _ _ _ = _ |- _ => apply shifted_length in Hs end.
  destruct es as [|e0 es]; [discriminate|].
  assert (Hwf0 : wf e0) by now inversion Hes.
  repeat match goal with
         | Hm : map _ (_ :: _) = _ :: _ |- _ => cbn [map] in Hm; injection Hm as ? ?; subst
         end.
  assert (Hlen : forall B (f : EmitterSet.t -> list B),
             (forall e, wf e -> length (f e) = EmitterSet.__len__ e) ->
             length (concat (map f (e0 :: es)))
             = length (concat (map rows (map EmitterSet.xyz (e0 :: es))))).
  { intros B f Hf. rewrite map_map. apply concat_length_eq.
    eapply Forall_impl; [|exact Hes]. intros e He. cbn beta. now rewrite Hf. }
  eapply init_full_wf with (1 := H); unfold nrows, mat_ok;
    repeat match goal with Hr : rows _ = _ |- _ => rewrite Hr end.
  - apply concat_Forall. rewrite map_map. apply Forall_map.
    eapply Forall_impl; [|exact Hes]. intros e (_ & Hm & Hc & _). cbn beta.
    unfold mat_ok in Hm. rewrite Hc in Hm. destruct Hwf0 as (_ & _ & Hc0 & _).
    match goal with Hn : ncols _ = ncols (EmitterSet.xyz e0) |- _ => rewrite Hn end.
    now rewrite Hc0.
  - destruct Hwf0 as (_ & _ & Hc0 & _). congruence.
  - apply concat_Forall. rewrite map_map. apply Forall_map.
    eapply Forall_impl; [|exact Hes]. intros e (_ & _ & _ & Hm & Hc). cbn beta.
    unfold mat_ok in Hm. rewrite Hc in Hm. destruct Hwf0 as (_ & _ & _ & _ & Hc0).
    match goal with Hn : ncols _ = ncols (EmitterSet.xyz_cr e0) |- _ => rewrite Hn end.
    now rewrite Hc0.
  - destruct Hwf0 as (_ & _ & _ & _ & Hc0). congruence.
  - apply Hlen. intros e He. apply He.
  - match goal with Hs : length (concat _) = _ |- _ => rewrite Hs end.
    apply Hlen. intros e He. apply He.
  - apply Hlen. intros e He. apply He.
  - apply Hlen. intros e He. apply He.
  - apply Hlen. intros e He. apply He.
  - rewrite (map_map EmitterSet.xyz_cr rows). apply (Hlen _ (fun e => rows (EmitterSet.xyz_cr e))).
    intros e He. apply He.
  - apply Hlen. intros e He. apply He.
  - apply Hlen. intros e He. apply He.
Qed.

(** *** Coordinate conversion *)

Lemma map_res_Forall2 {A B} (f : A -> res B) (l : list A) (r : list B) :
  map_res f l = Ok r -> Forall2 (fun a b => f a = Ok b) l r.
Proof.
  revert r. induction l as [|a l IH]; intros r H; simpl in H.
  - injection H as <-. constructor.
  - inv_bind. subst r. constructor; auto.
Qed.

Lemma broadcast2_length {A B C} (f : A -> B -> C) (a : list A) (b : list B) r :
  broadcast2 f a b = Ok r -> length a = length b \/ length b = 1%nat ->
  length r = length a.
Proof.
  unfold broadcast2. destruct (Nat.eqb_spec (length a) (length b)) as [E|E].
  - intros [= <-] _. rewrite length_map, length_combine, E. apply Nat.min_id.
  - intros H [Hab|Hb]; [contradiction|].
    destruct a as [|x [|x' a]], b as [|y [|y' b]]; simpl in *; try discriminate;
      try congruence; injection H as <-; simpl; now rewrite ?length_map.
Qed.

Lemma rows_op_shape (op : scalar -> scalar -> scalar) (m : mat) (v : list scalar) r :
  mat_ok m ->
  ((ncols m =? length v)%nat || (length v =? 1)%nat) = true ->
  map_res (fun row => broadcast2 op row v) (rows m) = Ok r ->
  length r = nrows m /\ Forall (fun row => length row = ncols m) r.
Proof.
  intros Hm Hv H. apply map_res_Forall2 in H.
  split; [symmetry; eapply Forall2_length; eassumption|].
  unfold mat_ok in Hm. induction H as [|row row' l l' Hrow _ IH]; [constructor|].
  inversion Hm as [|? ? Hr Hm']; subst. constructor; [|now apply IH].
  apply broadcast2_length in Hrow; [congruence|].
  apply orb_true_iff in Hv as [Hv|Hv]; [left|right].
  - apply Nat.eqb_eq in Hv. congruence.
  - now apply Nat.eqb_eq in Hv.
Qed.

Lemma mul_rows_shape (m : mat) (v : list scalar) m' :
  mat_ok m -> ncols m = 3%nat -> mul_rows m v = Ok m' ->
  mat_ok m' /\ ncols m' = 3%nat /\ nrows m' = nrows m.
Proof.
  intros Hm Hc. unfold mul_rows.
  destruct ((ncols m =? length v)%nat || (length v =? 1)%nat) eqn:E.
  - intros H. inv_bind. subst m'.
    match goal with Hr : map_res _ _ = _ |- _ =>
      destruct (@rows_op_shape _ _ _ _ Hm E Hr) as [Hl Hf] end.
    unfold mat_ok, nrows. cbn [rows ncols]. auto.
  - rewrite Hc. discriminate.
Qed.

Lemma add_rows_shape (m : mat) (v : list scalar) m' :
  mat_ok m -> ncols m = 3%nat -> add_rows_ m v = Ok m' ->
  mat_ok m' /\ ncols m' = 3%nat /\ nrows m' = nrows m.
Proof.
  intros Hm Hc. unfold add_rows_.
  destruct ((ncols m =? length v)%nat || (length v =? 1)%nat) eqn:E; [|discriminate].
  intros H. inv_bind. subst m'.
  match goal with Hr : map_res _ _ = _ |- _ =>
    destruct (@rows_op_shape _ _ _ _ Hm E Hr) as [Hl Hf] end.
  unfold mat_ok, nrows. cbn [rows ncols]. auto.
Qed.

Lemma map_res_length {A B} (f : A -> res B) (l : list A) (r : list B) :
  map_res f l = Ok r -> length r = length l.
Proof.
  intros H. apply map_res_Forall2 in H. symmetry. eapply Forall2_length, H.
Qed.

Lemma getcols_shape (m : mat) (axis : list Z) m' :
  getcols m axis = Ok m' ->
  mat_ok m' /\ ncols m' = length axis /\ nrows m' = nrows m.
Proof.
  unfold getcols. intros H. inv_bind. subst m'.
  unfold mat_ok, nrows. cbn [rows ncols].
  match goal with Hr : map_res (fun row => gather 1 row axis) _ = Ok _ |- _ =>
    pose proof (map_res_length _ _ Hr) as Hl; apply map_res_Forall2 in Hr;
    rename Hr into HF end.
  repeat split; [|exact Hl].
  clear Hl. induction HF as [|row row' l l' Hrow _ IH]; constructor; [|exact IH].
  eapply gather_length, Hrow.
Qed.

Lemma convert_coordinates_shape (e : EmitterSet.t) factor shift axis m' :
  mat_ok (EmitterSet.xyz e) -> ncols (EmitterSet.xyz e) = 3%nat -> axis_ok axis ->
  EmitterSet._convert_coordinates e factor shift axis = Ok m' ->
  mat_ok m' /\ ncols m' = 3%nat /\ nrows m' = EmitterSet.__len__ e.
Proof.
  intros Hm Hc Hax H. unfold EmitterSet._convert_coordinates in H. inv_bind. subst.
  assert (Hshape : mat_ok a /\ ncols a = 3%nat /\ nrows a = EmitterSet.__len__ e).
  { destruct factor as [f|].
    - eapply mul_rows_shape; eassumption.
    - match goal with Hx : Ok _ = Ok a |- _ => injection Hx as <- end. auto. }
  destruct Hshape as (Hma & Hca & Hna).
  assert (Hshape : mat_ok a0 /\ ncols a0 = 3%nat /\ nrows a0 = EmitterSet.__len__ e).
  { destruct shift as [s|].
    - match goal with Hx : add_rows_ _ _ = Ok _ |- _ =>
        destruct (@add_rows_shape _ _ _ Hma Hca Hx) as (? & ? & ?) end.
      repeat split; congruence.
    - match goal with Hx : Ok _ = Ok a0 |- _ => injection Hx as <- end. auto. }
  destruct Hshape as (Hmb & Hcb & Hnb).
  destruct axis as [ax|].
  - destruct (getcols_shape _ _ H) as (? & ? & ?). cbn in Hax.
    repeat split; congruence.
  - injection H as <-. auto.
Qed.

Lemma convert_em_wf (e : EmitterSet.t) factor shift axis frame_shift new_xy_unit w e' :
  wf e -> axis_ok axis ->
  EmitterSet.convert_em e factor shift axis frame_shift new_xy_unit = (w, Ok e') ->
  wf e'.
Proof.
  intros Hwf Hax H. unfold EmitterSet.convert_em in H.
  rewrite clone_fresh in H by assumption. cbn [bind] in H.
  destruct (EmitterSet._convert_coordinates (fresh e) factor shift axis) as [m'|x] eqn:E;
    [|discriminate].
  cbn in H. injection H as _ <-.
  destruct Hwf as ((H1 & H2 & H3 & H4 & H5 & H6 & H7 & H8) & Hm & Hc & Hm' & Hc').
  destruct (@convert_coordinates_shape (fresh e) factor shift axis _ Hm Hc Hax E)
    as (Ha & Hb & Hn).
  unfold EmitterSet.__len__ in *. cbn [fresh EmitterSet.xyz] in Hn.
  destruct frame_shift, new_xy_unit; unfold wf, aligned, EmitterSet.__len__; cbn;
    rewrite ?length_map, Hn; repeat split; assumption.
Qed.

(** ** Sorting by frame *)

Lemma insert_perm x l : Permutation (Sort.insert x l) (x :: l).
Proof.
  induction l as [|y l IH]; simpl; [reflexivity|].
  destruct (_ <=? _)%Z; [reflexivity|].
  rewrite IH. apply perm_swap.
Qed.

Lemma isort_perm l : Permutation (Sort.isort l) l.
Proof.
  induction l as [|x l IH]; simpl; [reflexivity|].
  rewrite insert_perm. now constructor.
Qed.

Lemma insert_hd (a : Z) x l :
  HdRel Z.le a (map fst l) -> (a <= fst x)%Z ->
  HdRel Z.le a (map fst (Sort.insert x l)).
Proof.
  intros Hl Hx. destruct l as [|y l]; simpl; [now constructor|].
  destruct (_ <=? _)%Z; simpl; constructor; [exact Hx|].
  now inversion Hl.
Qed.

Lemma insert_sorted x l :
  Sorted Z.le (map fst l) -> Sorted Z.le (map fst (Sort.insert x l)).
Proof.
  induction l as [|y l IH]; simpl; intros Hs.
  - repeat constructor.
  - destruct (Z.leb_spec (fst x) (fst y)) as [E|E].
    + simpl. constructor; [exact Hs|]. constructor. exact E.
    + simpl. inversion Hs as [|? ? Hs' Hhd]; subst.
      constructor; [now apply IH|].
      apply insert_hd; [exact Hhd|]. lia.
Qed.

Lemma isort_sorted l : Sorted Z.le (map fst (Sort.isort l)).
Proof.
  induction l as [|x l IH]; simpl; [constructor|]. now apply insert_sorted.
Qed.

Lemma iota_length n : length (Sort.iota n) = n.
Proof. unfold Sort.iota. now rewrite length_map, length_seq. Qed.

Lemma combine_snd {A B} (a : list A) (b : list B) :
  length a = length b -> map snd (combine a b) = b.
Proof.
  revert b. induction a as [|x a IH]; intros [|y b] H; simpl in *; try discriminate;
    [reflexivity|]. f_equal. apply IH. lia.
Qed.

Lemma get_nat {A} dim (l : list A) (k : nat) a :
  nth_error l k = Some a -> get dim l (Z.of_nat k) = Ok a.
Proof.
  intros H. assert (Hk : (k < length l)%nat) by (apply nth_error_Some; congruence).
  unfold get.
  destruct (Z.ltb_spec (Z.of_nat k) (- Z.of_nat (length l))); [lia|].
  destruct (Z.leb_spec (Z.of_nat (length l)) (Z.of_nat k)); [lia|]. cbn [orb].
  destruct (Z.ltb_spec (Z.of_nat k) 0); [lia|].
  now rewrite Nat2Z.id, H.
Qed.

(** Every pair of the indexed list holds a value and the index it sits at. *)
Lemma combine_iota_get (pre l : list Z) :
  Forall (fun p => get 0 (pre ++ l) (snd p) = Ok (fst p))
         (combine l (map Z.of_nat (seq (length pre) (length l)))).
Proof.
  revert pre. induction l as [|x l IH]; intros pre; simpl; constructor.
  - cbn [fst snd]. apply get_nat. rewrite nth_error_app2 by lia.
    now rewrite Nat.sub_diag.
  - specialize (IH (pre ++ [x])). rewrite <- app_assoc, length_app in IH. simpl in IH.
    now rewrite Nat.add_1_r in IH.
Qed.

Lemma gather_pairs (l : list Z) (s : list (Z * Z)) :
  Forall (fun p => get 0 l (snd p) = Ok (fst p)) s ->
  gather 0 l (map snd s) = Ok (map fst s).
Proof.
  induction 1 as [|p s Hp _ IH]; [reflexivity|].
  simpl. rewrite Hp. cbn [rbind]. now rewrite IH.
Qed.

Lemma argsort_contract : Sort.contract Sort.argsort.
Proof.
  intros l. unfold Sort.argsort. cbn [fst snd].
  pose proof (isort_perm (combine l (Sort.iota (length l)))) as Hp.
  repeat split.
  - rewrite (Permutation_map snd Hp). rewrite combine_snd; [reflexivity|].
    now rewrite iota_length.
  - apply gather_pairs.
    eapply Permutation_Forall; [symmetry; exact Hp|].
    exact (combine_iota_get [] l).
  - apply isort_sorted.
Qed.

Lemma iota_range n i : In i (Sort.iota n) -> (0 <= i < Z.of_nat n)%Z.
Proof.
  unfold Sort.iota. rewrite in_map_iff. intros (k & <- & Hk).
  apply in_seq in Hk. lia.
Qed.

Lemma gather_total {A} dim (l : list A) ix :
  Forall (fun i => (0 <= i < Z.of_nat (length l))%Z) ix ->
  exists r, gather dim l ix = Ok r.
Proof.
  induction 1 as [|i ix Hi _ [r IH]]; [now exists []|].
  destruct (@get_in_range _ dim l i) as (a & _ & Ha); [lia|].
  exists (a :: r). simpl. now rewrite Ha, IH.
Qed.

Lemma perm_iota_range ix n :
  Permutation ix (Sort.iota n) -> Forall (fun i => (0 <= i < Z.of_nat n)%Z) ix.
Proof.
  intros Hp. apply Forall_forall. intros i Hi. apply iota_range.
  eapply Permutation_in; eassumption.
Qed.

Lemma gather_id_from {A} (pre l : list A) :
  gather 0 (pre ++ l) (map Z.of_nat (seq (length pre) (length l))) = Ok l.
Proof.
  revert pre. induction l as [|x l IH]; intros pre; [reflexivity|].
  simpl. rewrite (@get_nat _ 0 (pre ++ x :: l) (length pre) x).
  - cbn [rbind]. specialize (IH (pre ++ [x])).
    rewrite <- app_assoc, length_app, Nat.add_1_r in IH. simpl in IH.
    now rewrite IH.
  - rewrite nth_error_app2 by lia. now rewrite Nat.sub_diag.
Qed.

Lemma gather_id {A} (l : list A) : gather 0 l (Sort.iota (length l)) = Ok l.
Proof. exact (gather_id_from [] l). Qed.

(** Indexing with a rearranged index rearranges the result. *)
Lemma gather_perm {A} dim (l : list A) ix ix' r :
  Permutation ix ix' -> gather dim l ix = Ok r ->
  exists r', gather dim l ix' = Ok r' /\ Permutation r r'.
Proof.
  intros Hp. revert r. induction Hp as [|i ix ix' _ IH|i j ix|ix1 ix2 ix3 _ IH1 _ IH2];
    intros r H.
  - exists r. split; [exact H|]. simpl in H. injection H as <-. constructor.
  - simpl in H. inv_bind. subst r.
    match goal with Hg : gather _ _ ix = Ok _ |- _ =>
      destruct (IH _ Hg) as (r' & Hr' & Hpr) end.
    eexists. simpl.
    match goal with Hg : get _ _ _ = Ok _ |- _ => rewrite Hg end.
    rewrite Hr'. split; [reflexivity|]. now constructor.
  - simpl in H. inv_bind. subst.
    eexists. simpl.
    repeat match goal with Hg : get _ _ _ = Ok _ |- _ => rewrite Hg; clear Hg end.
    match goal with Hg : gather _ _ _ = Ok _ |- _ => rewrite Hg end.
    split; [reflexivity|]. apply perm_swap.
  - destruct (IH1 _ H) as (r2 & H2 & Hp2). destruct (IH2 _ H2) as (r3 & H3 & Hp3).
    exists r3. split; [exact H3|]. now transitivity r2.
Qed.

Lemma gather_of_perm {A} (l : list A) ix r :
  Permutation ix (Sort.iota (length l)) -> gather 0 l ix = Ok r -> Permutation r l.
Proof.
  intros Hp H. eapply gather_perm in H as (r' & Hr' & Hpr); [|exact Hp].
  rewrite gather_id in Hr'. injection Hr' as <-. exact Hpr.
Qed.

(** A sorted list has one sorted rearrangement. *)
Lemma sorted_perm_eq (a b : list Z) :
  Sorted Z.le a -> Sorted Z.le b -> Permutation a b -> a = b.
Proof.
  intros Ha Hb. apply Sorted_StronglySorted in Ha, Hb;
    try (intros x y z; apply Z.le_trans).
  revert b Hb. induction Ha as [|x a Ha IH Hx]; intros b Hb Hp.
  - apply Permutation_nil in Hp. now subst.
  - destruct b as [|y b]; [apply Permutation_sym, Permutation_nil in Hp; discriminate|].
    inversion Hb as [|? ? Hb' Hy]; subst.
    assert (x = y).
    { rewrite Forall_forall in Hx, Hy.
      assert (Hin : In y (x :: a)) by (eapply Permutation_in; [symmetry; exact Hp|now left]).
      assert (Hin' : In x (y :: b)) by (eapply Permutation_in; [exact Hp|now left]).
      destruct Hin as [|Hin]; [assumption|]. destruct Hin' as [|Hin']; [congruence|].
      specialize (Hx _ Hin). specialize (Hy _ Hin'). lia. }
    subst y. f_equal. apply IH; [assumption|]. eapply Permutation_cons_inv, Hp.
Qed.

Lemma get_nonneg {A} dim (l : list A) i a :
  (0 <= i)%Z -> get dim l i = Ok a -> nth_error l (Z.to_nat i) = Some a.
Proof.
  intros Hi. unfold get. destruct (_ || _); [discriminate|].
  destruct (Z.ltb_spec i 0); [lia|].
  destruct (nth_error l (Z.to_nat i)); [|discriminate]. now intros [= <-].
Qed.

(** Without repeated entries the index is determined by what it selects. *)
Lemma gather_inj {A} (l : list A) ix ix' r :
  NoDup l ->
  Forall (fun i => (0 <= i)%Z) ix -> Forall (fun i => (0 <= i)%Z) ix' ->
  gather 0 l ix = Ok r -> gather 0 l ix' = Ok r -> ix = ix'.
Proof.
  intros Hnd Hix. revert ix' r.
  induction Hix as [|i ix Hi _ IH]; intros ix' r Hix' H H'.
  - simpl in H. injection H as <-. apply gather_length in H'.
    destruct ix'; [reflexivity|discriminate].
  - destruct Hix' as [|j ix' Hj Hix'].
    + simpl in H'. injection H' as <-. apply gather_length in H. discriminate.
    + simpl in H, H'. inv_bind. subst r.
      match goal with Hr : _ :: _ = _ :: _ |- _ => injection Hr as -> -> end.
      f_equal.
      * repeat match goal with Hg : get _ _ _ = Ok _ |- _ =>
          apply get_nonneg in Hg; [|assumption] end.
        assert (Z.to_nat i = Z.to_nat j).
        { eapply NoDup_nth_error; [exact Hnd| |congruence].
          apply nth_error_Some. congruence. }
        lia.
      * eapply IH; eassumption.
Qed.

Lemma strictly_sorted_NoDup (l : list Z) : StronglySorted Z.lt l -> NoDup l.
Proof.
  induction 1 as [|x l _ IH Hx]; constructor; [|exact IH].
  intros Hin. rewrite Forall_forall in Hx. specialize (Hx _ Hin). lia.
Qed.

Lemma strictly_sorted_le (l : list Z) : StronglySorted Z.lt l -> Sorted Z.le l.
Proof.
  intros H. apply StronglySorted_Sorted.
  induction H as [|x l _ IH Hx]; constructor; [exact IH|].
  eapply Forall_impl; [|exact Hx]. intros y Hy. cbn beta in *. lia.
Qed.

Section SortByFrame.

Variable sort : list Z -> list Z * list Z.
Hypothesis sort_ok : Sort.contract sort.

Variable e : EmitterSet.t.
Hypothesis e_wf : wf e.

Let ix : list Z := snd (sort (EmitterSet.frame_ix e)).

Lemma sort_ix_perm : Permutation ix (Sort.iota (EmitterSet.__len__ e)).
Proof.
  destruct (sort_ok (EmitterSet.frame_ix e)) as (Hp & _ & _).
  destruct e_wf as ((_ & H2 & _) & _). now rewrite <- H2.
Qed.

Lemma sort_gather_attr {A} (l : list A) :
  length l = EmitterSet.__len__ e -> exists r, gather 0 l ix = Ok r.
Proof.
  intros Hl. apply gather_total. rewrite Hl.
  apply perm_iota_range, sort_ix_perm.
Qed.

Lemma sort_by_frame_inplace_ok :
  exists e',
    EmitterSet.sort_by_frame_ sort e = Ok e' /\
    EmitterSet.sort_by_frame_ sort (fresh e) = Ok e' /\
    EmitterSet.frame_ix e' = fst (sort (EmitterSet.frame_ix e)) /\
    gather 0 (rows (EmitterSet.xyz e)) ix = Ok (rows (EmitterSet.xyz e')) /\
    ncols (EmitterSet.xyz e') = ncols (EmitterSet.xyz e) /\
    gather 0 (EmitterSet.phot e) ix = Ok (EmitterSet.phot e') /\
    gather 0 (EmitterSet.id e) ix = Ok (EmitterSet.id e') /\
    gather 0 (EmitterSet.prob e) ix = Ok (EmitterSet.prob e') /\
    gather 0 (EmitterSet.bg e) ix = Ok (EmitterSet.bg e') /\
    gather 0 (rows (EmitterSet.xyz_cr e)) ix = Ok (rows (EmitterSet.xyz_cr e')) /\
    ncols (EmitterSet.xyz_cr e') = ncols (EmitterSet.xyz_cr e) /\
    gather 0 (EmitterSet.phot_cr e) ix = Ok (EmitterSet.phot_cr e') /\
    gather 0 (EmitterSet.bg_cr e) ix = Ok (EmitterSet.bg_cr e') /\
    EmitterSet.xy_unit e' = EmitterSet.xy_unit e /\
    EmitterSet.px_size e' = EmitterSet.px_size e /\
    EmitterSet._sorted e' = true.
Proof.
  destruct e_wf as ((H1 & H2 & H3 & H4 & H5 & H6 & H7 & H8) & _).
  destruct (sort_gather_attr (rows (EmitterSet.xyz e)) eq_refl) as [r0 E0].
  destruct (sort_gather_attr _ H1) as [r1 E1].
  destruct (sort_gather_attr _ H3) as [r3 E3].
  destruct (sort_gather_attr _ H4) as [r4 E4].
  destruct (sort_gather_attr _ H5) as [r5 E5].
  destruct (sort_gather_attr (rows (EmitterSet.xyz_cr e)) H6) as [r6 E6].
  destruct (sort_gather_attr _ H7) as [r7 E7].
  destruct (sort_gather_attr _ H8) as [r8 E8].
  unfold EmitterSet.sort_by_frame_, getrows, getitem. cbn [fresh EmitterSet.xyz
    EmitterSet.phot EmitterSet.frame_ix EmitterSet.id EmitterSet.prob EmitterSet.bg
    EmitterSet.xyz_cr EmitterSet.phot_cr EmitterSet.bg_cr EmitterSet.xy_unit
    EmitterSet.px_size].
  subst ix. destruct (sort (EmitterSet.frame_ix e)) as [v ix'] eqn:Es. cbn [snd fst] in *.
  rewrite E0, E1, E3, E4, E5, E6, E7, E8. cbn [rbind].
  eexists. repeat split; cbn; try reflexivity; assumption.
Qed.

End SortByFrame.

Lemma permuted_by_wf ix e e' :
  wf e -> Permutation ix (Sort.iota (EmitterSet.__len__ e)) -> permuted_by ix e e' -> wf e'.
Proof.
  intros ((H1 & H2 & H3 & H4 & H5 & H6 & H7 & H8) & Hm & Hc & Hm' & Hc') Hp
         (G0 & C0 & G1 & G2 & G3 & G4 & G5 & G6 & C6 & G7 & G8 & _ & _).
  pose proof (gather_length _ _ _ G0) as L0.
  unfold wf, aligned, EmitterSet.__len__, nrows, mat_ok.
  rewrite (gather_length _ _ _ G1), (gather_length _ _ _ G2), (gather_length _ _ _ G3),
    (gather_length _ _ _ G4), (gather_length _ _ _ G5), (gather_length _ _ _ G6),
    (gather_length _ _ _ G7), (gather_length _ _ _ G8), L0, C0, C6.
  repeat split; try assumption.
  - eapply gather_Forall; [|exact G0]. exact Hm.
  - eapply gather_Forall; [|exact G6]. exact Hm'.
Qed.

Lemma mat_eq (a b : mat) : ncols a = ncols b -> rows a = rows b -> a = b.
Proof. destruct a, b. cbn. now intros -> ->. Qed.

(** X18. For a container that satisfies the alignment invariant and any
    sorting routine with the guarantees of [torch.Tensor.sort] (ascending
    values, and the indices of the values in the input, a rearrangement of
    [0 .. N-1]), [sort_by_frame_] (and [sort_by_frame], on a copy)
    succeeds; the frame indices come out ascending; one and the same
    rearrangement [ix], the one the sort returns, is applied to every
    N-aligned attribute; the sort flag is set; the frame indices of an
    already sorted container are left as they are; and when these are
    pairwise distinct (strictly ascending) sorting changes nothing but the
    sort flag. Nothing is said about the order of rows with the same frame
    index. *)
Theorem sort_by_frame_permutes (sort : list Z -> list Z * list Z) (e : EmitterSet.t) :
  Sort.contract sort -> wf e ->
  let ix := snd (sort (EmitterSet.frame_ix e)) in
  exists e',
    EmitterSet.sort_by_frame_ sort e = Ok e' /\
    EmitterSet.sort_by_frame sort e = ([], Ok e') /\
    Permutation ix (Sort.iota (EmitterSet.__len__ e)) /\
    permuted_by ix e e' /\
    Sorted Z.le (EmitterSet.frame_ix e') /\
    EmitterSet._sorted e' = true /\
    (Sorted Z.le (EmitterSet.frame_ix e) ->
       EmitterSet.frame_ix e' = EmitterSet.frame_ix e) /\
    (StronglySorted Z.lt (EmitterSet.frame_ix e) -> e' = marked e).
Proof.
  intros Hsort Hwf ix.
  destruct (sort_by_frame_inplace_ok Hsort Hwf)
    as (e' & He' & Hf' & Hfr & G0 & C0 & G1 & G3 & G4 & G5 & G6 & C6 & G7 & G8 & Hu & Hpx & Hs).
  fold ix in G0, G1, G3, G4, G5, G6, G7, G8.
  destruct (Hsort (EmitterSet.frame_ix e)) as (Hp & Hg & Hsorted).
  fold ix in Hp, Hg. rewrite <- Hfr in Hg, Hsorted.
  pose proof (sort_ix_perm Hsort Hwf) as Hperm. fold ix in Hperm.
  assert (Hkeep : Sorted Z.le (EmitterSet.frame_ix e) ->
                  EmitterSet.frame_ix e' = EmitterSet.frame_ix e).
  { intros Hs0. apply sorted_perm_eq; try assumption.
    eapply gather_of_perm; eassumption. }
  exists e'. split; [exact He'|]. split.
  { unfold EmitterSet.sort_by_frame. rewrite clone_fresh by assumption.
    cbn [bind]. rewrite Hf'. reflexivity. }
  split; [exact Hperm|]. split.
  { unfold permuted_by. repeat split; assumption. }
  split; [exact Hsorted|]. split; [exact Hs|]. split; [exact Hkeep|].
  intros Hstrict.
  assert (Hix : ix = Sort.iota (EmitterSet.__len__ e)).
  { destruct Hwf as ((_ & H2 & _) & _).
    eapply gather_inj with (l := EmitterSet.frame_ix e).
    - now apply strictly_sorted_NoDup.
    - eapply Forall_impl; [|eapply perm_iota_range; exact Hperm]. intros i Hi. cbn beta in Hi. lia.
    - apply Forall_forall. intros i Hi. apply iota_range in Hi. lia.
    - exact Hg.
    - rewrite <- H2, gather_id. f_equal. symmetry.
      apply Hkeep. now apply strictly_sorted_le. }
  destruct Hwf as ((H1 & H2 & H3 & H4 & H5 & H6 & H7 & H8) & _).
  rewrite Hix in G0, G1, G3, G4, G5, G6, G7, G8.
  unfold EmitterSet.__len__, nrows in *.
  rewrite gather_id in G0.
  rewrite <- H1, gather_id in G1. rewrite <- H3, gather_id in G3.
  rewrite <- H4, gather_id in G4. rewrite <- H5, gather_id in G5.
  rewrite <- H6, gather_id in G6. rewrite <- H7, gather_id in G7.
  rewrite <- H8, gather_id in G8.
  injection G0 as G0. injection G1 as G1. injection G3 as G3. injection G4 as G4.
  injection G5 as G5. injection G6 as G6. injection G7 as G7. injection G8 as G8.
  specialize (Hkeep (strictly_sorted_le Hstrict)).
  destruct e' as [x' p' f' i' pr' b' xc' pc' bc' u' px' s'].
  cbn in *. subst. unfold marked.
  f_equal; try congruence; apply mat_eq; congruence.
Qed.

(** ** Lowering of a LooseEmitterSet *)

Import Lowering.

Lemma set_app {A} (done rest : list A) (z v : A) :
  LooseEmitterSet.set (done ++ z :: rest) (length done) v = Ok ((done ++ [v]) ++ rest).
Proof.
  unfold LooseEmitterSet.set.
  assert (Hlt : (length done <? length (done ++ z :: rest))%nat = true).
  { apply Nat.ltb_lt. rewrite length_app. simpl. lia. }
  rewrite Hlt. f_equal.
  rewrite firstn_app, Nat.sub_diag, firstn_all, firstn_0, app_nil_r.
  rewrite skipn_app, skipn_all2 by lia.
  replace (S (length done) - length done)%nat with 1%nat by lia.
  cbn [skipn app]. now rewrite <- app_assoc.
Qed.

Lemma get_nth {A} (l : list A) (i : nat) (d : A) :
  (i < length l)%nat -> get 0 l (Z.of_nat i) = Ok (nth i l d).
Proof.
  intros Hi. apply get_nat. now apply nth_error_nth'.
Qed.

Lemma nth_zip_with {A B C} (f : A -> B -> C) (a : list A) (b : list B) i da db dc :
  (i < length a)%nat -> length a = length b ->
  nth i (zip_with f a b) dc = f (nth i a da) (nth i b db).
Proof.
  unfold zip_with. revert b i. induction a as [|x a IH]; intros [|y b] i Hi Hl;
    simpl in *; try lia.
  destruct i; [reflexivity|]. apply IH; lia.
Qed.

Lemma nth_map_default {A B} (f : A -> B) (l : list A) (da : A) (db : B) i :
  (i < length l)%nat -> nth i (map f l) db = f (nth i l da).
Proof.
  revert i. induction l as [|a l IH]; intros i Hi; simpl in *; [lia|].
  destruct i; [reflexivity|]. apply IH. lia.
Qed.

Lemma trunc_inject (z : Z) (q : Q) : q == inject_Z z -> LooseEmitterSet.trunc q = z.
Proof.
  intros E. unfold LooseEmitterSet.trunc.
  rewrite (Qfloor_comp _ _ E), (Qceiling_comp _ _ E), Qfloor_Z, Qceiling_Z.
  now destruct (Qle_bool 0 q).
Qed.

Lemma trunc_sub (x y : Q) :
  LooseEmitterSet.trunc (LooseEmitterSet.ceil x - LooseEmitterSet.floor y)
  = (Qceiling x - Qfloor y)%Z.
Proof.
  apply trunc_inject. unfold LooseEmitterSet.ceil, LooseEmitterSet.floor.
  unfold Z.sub. rewrite inject_Z_plus, inject_Z_opp. reflexivity.
Qed.

Lemma to_int_inject (oob : Z -> Q -> Z) (bits z : Z) (q : Q) :
  q == inject_Z z -> (- 2 ^ (bits - 1) <= z < 2 ^ (bits - 1))%Z ->
  LooseEmitterSet.to_int oob bits q = z.
Proof.
  intros E Hz. unfold LooseEmitterSet.to_int. rewrite (@trunc_inject z q E).
  destruct (Z.leb_spec (- 2 ^ (bits - 1)) z); [|lia].
  destruct (Z.ltb_spec z (2 ^ (bits - 1))); [reflexivity|lia].
Qed.

Lemma f32_int_exact (z : Z) : exact z -> LooseEmitterSet.f32_int z = z.
Proof.
  unfold exact. intros Hz. unfold LooseEmitterSet.f32_int.
  destruct (Z.ltb_spec (Z.abs z) (2 ^ 24)) as [Hlt|Hge]; [reflexivity|].
  assert (Hz' : z = (2 ^ 24)%Z \/ z = (- 2 ^ 24)%Z) by lia.
  destruct Hz' as [-> | ->]; reflexivity.
Qed.

Lemma f32_integer (q : Q) (z : Z) :
  q == inject_Z z -> LooseEmitterSet.f32 q = inject_Z (LooseEmitterSet.f32_int z).
Proof.
  intros E. unfold LooseEmitterSet.f32.
  assert (Hf : Qfloor q = z) by (rewrite (Qfloor_comp _ _ E); apply Qfloor_Z).
  rewrite Hf.
  assert (Ht : Qeq_bool (inject_Z z) q = true) by (apply Qeq_bool_iff; now symmetry).
  now rewrite Ht.
Qed.

Lemma f32_exact (q : Q) (z : Z) :
  q == inject_Z z -> exact z -> LooseEmitterSet.f32 q = inject_Z z.
Proof.
  intros E Hz. rewrite (@f32_integer q z E). now rewrite f32_int_exact.
Qed.

Section Fill.

Variable L : LooseEmitterSet.t.
Hypothesis L_wf : wf_loose L.

Let N := nrows (LooseEmitterSet.xyz L).
Let frame_start := map LooseEmitterSet.floor (LooseEmitterSet.t0 L).
Let te := zip_with Qplus (LooseEmitterSet.t0 L) (LooseEmitterSet.ontime L).

Lemma fill_ok (i j : nat) (D : list written) (k : nat) :
  (i < N)%nat ->
  LooseEmitterSet.fill L frame_start te i j (filled L D (S k))
  = Ok (filled L (D ++ [write L i j]) k).
Proof.
  intros Hi. destruct L_wf as (Hm & Hc & H1 & H2 & H3 & H4 & Hpos).
  fold N in H1, H2, H3, H4.
  unfold LooseEmitterSet.fill, filled.
  cbn [LooseEmitterSet.xyz_ LooseEmitterSet.phot_ LooseEmitterSet.frame_ix_
       LooseEmitterSet.id_ LooseEmitterSet.c repeat].
  rewrite (get_nth (rows (LooseEmitterSet.xyz L)) []) by exact Hi. cbn [rbind].
  rewrite <- (length_map w_xyz D) at 1. rewrite set_app. cbn [rbind].
  rewrite (get_nth frame_start 0)
    by (unfold frame_start; rewrite length_map; lia). cbn [rbind].
  rewrite <- (length_map w_frame D) at 1. rewrite set_app. cbn [rbind].
  rewrite (get_nth (LooseEmitterSet.id L) 0%Z) by lia. cbn [rbind].
  rewrite <- (length_map w_id D) at 1. rewrite set_app. cbn [rbind].
  rewrite (get_nth te 0)
    by (unfold te, zip_with; rewrite length_map, length_combine; lia). cbn [rbind].
  rewrite (get_nth (LooseEmitterSet.t0 L) 0) by lia. cbn [rbind].
  rewrite (get_nth (LooseEmitterSet.intensity L) 0) by lia. cbn [rbind].
  rewrite <- (length_map w_phot D) at 1. rewrite set_app. cbn [rbind].
  unfold te. rewrite (nth_zip_with Qplus _ _ 0 0 0) by lia.
  unfold frame_start.
  rewrite (nth_map_default LooseEmitterSet.floor _ 0 0) by lia.
  rewrite !map_app, length_app. cbn [map length]. rewrite Nat.add_1_r.
  reflexivity.
Qed.

Lemma inner_ok (i : nat) (m j0 : nat) (D : list written) (k : nat) :
  (i < N)%nat ->
  LooseEmitterSet.for_each (seq j0 m) (LooseEmitterSet.fill L frame_start te i)
    (filled L D (m + k))
  = Ok (filled L (D ++ map (write L i) (seq j0 m)) k).
Proof.
  intros Hi. revert j0 D. induction m as [|m IH]; intros j0 D.
  - simpl. now rewrite app_nil_r.
  - cbn [seq LooseEmitterSet.for_each Nat.add]. rewrite fill_ok by exact Hi.
    cbn [rbind]. rewrite IH. cbn [map]. now rewrite <- app_assoc.
Qed.

Lemma span_nonneg (i : nat) : (i < N)%nat -> (0 <= span (emitter_at L i))%Z.
Proof.
  intros Hi. destruct L_wf as (_ & _ & _ & _ & _ & H4 & Hpos). fold N in H4.
  unfold span. cbn [start dur emitter_at].
  set (t := nth i (LooseEmitterSet.t0 L) 0).
  assert (Hd : 0 <= nth i (LooseEmitterSet.ontime L) 0).
  { rewrite Forall_forall in Hpos. apply Hpos, nth_In. lia. }
  set (d := nth i (LooseEmitterSet.ontime L) 0) in *.
  assert (H : inject_Z (Qfloor t) <= inject_Z (Qceiling (t + d))).
  { apply Qle_trans with t; [apply Qfloor_le|].
    apply Qle_trans with (t + d); [|apply Qle_ceiling].
    rewrite <- (Qplus_0_r t) at 1. apply Qplus_le_r. exact Hd. }
  rewrite <- Zle_Qle in H. lia.
Qed.

Variable oob : Z -> Q -> Z.
Hypothesis L_frames : frames_exact L.

Lemma frames_exact_at (i : nat) :
  (i < N)%nat ->
  (- 2 ^ 24 <= Qfloor (start (emitter_at L i)))%Z /\
  (Qceiling (start (emitter_at L i) + dur (emitter_at L i)) <= 2 ^ 24)%Z.
Proof.
  intros Hi. unfold frames_exact in L_frames. rewrite Forall_forall in L_frames.
  apply L_frames. unfold emitters. apply in_map. apply in_seq. fold N. lia.
Qed.

Let frame_dur : list Z :=
  map (LooseEmitterSet.to_int oob 64)
      (zip_with Qminus (map LooseEmitterSet.ceil te) frame_start).

Lemma frame_dur_eq : frame_dur = map (fun i => span (emitter_at L i)) (seq 0 N).
Proof.
  destruct L_wf as (Hm & Hc & H1 & H2 & H3 & H4 & Hpos).
  fold N in H1, H2, H3, H4.
  assert (Hte : length te = N)
    by (unfold te, zip_with; rewrite length_map, length_combine; lia).
  assert (Hz : length (zip_with Qminus (map LooseEmitterSet.ceil te) frame_start) = N).
  { unfold zip_with, frame_start. rewrite length_map, length_combine, !length_map. lia. }
  apply (nth_ext _ _ 0%Z 0%Z).
  - unfold frame_dur. now rewrite !length_map, length_seq.
  - unfold frame_dur. rewrite length_map, Hz. intros i Hi.
    rewrite (nth_map_default (LooseEmitterSet.to_int oob 64) _ 0 0%Z) by lia.
    rewrite (nth_zip_with Qminus _ _ 0 0 0)
      by (unfold frame_start; rewrite !length_map; lia).
    rewrite (nth_map_default LooseEmitterSet.ceil _ 0 0) by lia.
    unfold frame_start. rewrite (nth_map_default LooseEmitterSet.floor _ 0 0) by lia.
    unfold te. rewrite (nth_zip_with Qplus _ _ 0 0 0) by lia.
    rewrite (nth_map_default (fun i => span (emitter_at L i)) _ 0%nat 0%Z)
      by (rewrite length_seq; lia).
    rewrite seq_nth by lia. cbn [Nat.add].
    pose proof (span_nonneg Hi) as Hs0. pose proof (frames_exact_at Hi) as [Hlo Hhi].
    unfold span in *. cbn [start dur emitter_at] in *.
    apply to_int_inject.
    + unfold LooseEmitterSet.ceil, LooseEmitterSet.floor.
      unfold Z.sub. rewrite inject_Z_plus, inject_Z_opp. reflexivity.
    + change (2 ^ (64 - 1))%Z with 9223372036854775808%Z.
      change (2 ^ 24)%Z with 16777216%Z in Hlo, Hhi. lia.
Qed.

Let total (l : list nat) : nat :=
  list_sum (map (fun i => Z.to_nat (span (emitter_at L i))) l).

Lemma outer_ok (m i0 : nat) (D : list written) (k : nat) :
  (i0 + m <= N)%nat ->
  LooseEmitterSet.for_each (seq i0 m)
    (fun i b =>
       (dur <~ get 0 frame_dur (Z.of_nat i) ;;
        LooseEmitterSet.for_each (LooseEmitterSet.range dur)
          (LooseEmitterSet.fill L frame_start te i) b)%py)
    (filled L D (total (seq i0 m) + k))
  = Ok (filled L (D ++ writes L (seq i0 m)) k).
Proof.
  revert i0 D. induction m as [|m IH]; intros i0 D Hm.
  - simpl. now rewrite app_nil_r.
  - cbn [seq LooseEmitterSet.for_each].
    assert (Hget : get 0 frame_dur (Z.of_nat i0) = Ok (span (emitter_at L i0))).
    { rewrite (get_nth frame_dur 0%Z)
        by (rewrite frame_dur_eq, length_map, length_seq; lia).
      rewrite frame_dur_eq.
      rewrite (nth_map_default (fun i => span (emitter_at L i)) _ 0%nat 0%Z)
        by (rewrite length_seq; lia).
      rewrite seq_nth by lia. reflexivity. }
    rewrite Hget. cbn [rbind].
    change (total (i0 :: seq (S i0) m))
      with (Z.to_nat (span (emitter_at L i0)) + total (seq (S i0) m))%nat.
    unfold LooseEmitterSet.range at 1. rewrite <- Nat.add_assoc.
    rewrite inner_ok by lia. cbn [rbind].
    rewrite IH by lia. unfold writes. cbn [flat_map].
    unfold LooseEmitterSet.range. now rewrite <- app_assoc.
Qed.

Lemma sum_spans (l : list nat) :
  Forall (fun i => (i < N)%nat) l ->
  LooseEmitterSet.sum (map (fun i => span (emitter_at L i)) l) = Z.of_nat (total l).
Proof.
  induction 1 as [|i l Hi _ IH]; [reflexivity|].
  change (total (i :: l)) with (Z.to_nat (span (emitter_at L i)) + total l)%nat.
  change (LooseEmitterSet.sum (map (fun i => span (emitter_at L i)) (i :: l)))
    with (span (emitter_at L i)
          + LooseEmitterSet.sum (map (fun i => span (emitter_at L i)) l))%Z.
  rewrite IH. pose proof (span_nonneg Hi). lia.
Qed.

Lemma distribute_ok :
  LooseEmitterSet._distribute_framewise oob L
  = Ok ({| ncols := ncols (LooseEmitterSet.xyz L);
           rows := map w_xyz (writes L (seq 0 N)) |},
        map w_phot (writes L (seq 0 N)),
        map w_frame (writes L (seq 0 N)),
        map w_id (writes L (seq 0 N))).
Proof.
  destruct L_wf as (Hm & Hc & H1 & H2 & H3 & H4 & Hpos).
  fold N in H1, H2, H3, H4.
  unfold LooseEmitterSet._distribute_framewise, LooseEmitterSet.te.
  rewrite broadcast2_same by lia. cbn [rbind]. fold te. fold frame_start.
  rewrite broadcast2_same
    by (unfold te, frame_start, zip_with;
        rewrite !length_map, length_combine; lia).
  cbn [rbind]. fold frame_dur.
  assert (Hsum : LooseEmitterSet.sum frame_dur = Z.of_nat (total (seq 0 N))).
  { rewrite frame_dur_eq. apply sum_spans.
    apply Forall_forall. intros i Hi. apply in_seq in Hi. lia. }
  rewrite Hsum.
  destruct (Z.ltb_spec (Z.of_nat (total (seq 0 N))) 0); [lia|].
  rewrite Hc. cbn [rbind]. rewrite Nat2Z.id. fold N.
  match goal with
  | |- context [LooseEmitterSet.for_each _ _ ?b0] =>
      replace b0 with (filled L [] (total (seq 0 N) + 0))
        by (unfold filled; rewrite Nat.add_0_r, Hc; reflexivity)
  end.
  rewrite outer_ok by lia. cbn [rbind app].
  unfold filled. cbn [LooseEmitterSet.xyz_ LooseEmitterSet.phot_
    LooseEmitterSet.frame_ix_ LooseEmitterSet.id_ repeat].
  now rewrite !app_nil_r.
Qed.

End Fill.

Lemma write_frame (L : LooseEmitterSet.t) (i j : nat) :
  let em := emitter_at L i in
  let f := (Qfloor (start em) + Z.of_nat j)%Z in
  (- 2 ^ 24 <= Qfloor (start em))%Z -> (f + 1 <= 2 ^ 24)%Z ->
  w_frame (write L i j) = inject_Z f /\
  w_phot (write L i j) == overlap em f * flux em /\
  exact f.
Proof.
  intros em f Hlo Hhi.
  assert (Hex : exact f) by (unfold exact, f in *; lia).
  assert (Hex1 : exact (f + 1)) by (unfold exact, f in *; lia).
  assert (Hf : LooseEmitterSet.floor (start em) + inject_Z (Z.of_nat j) == inject_Z f).
  { unfold f, LooseEmitterSet.floor. now rewrite inject_Z_plus. }
  assert (Hw : LooseEmitterSet.f32
                 (LooseEmitterSet.floor (start em) + inject_Z (Z.of_nat j))
               = inject_Z f) by (now apply f32_exact).
  assert (Hf1 : inject_Z f + 1 == inject_Z (f + 1)) by (now rewrite inject_Z_plus).
  assert (Hw1 : LooseEmitterSet.f32 (inject_Z f + 1) = inject_Z (f + 1))
    by (now apply f32_exact).
  unfold write. cbn [w_phot w_frame]. fold em. rewrite Hw, Hw1.
  split; [reflexivity|]. split; [|exact Hex].
  unfold overlap. now rewrite <- Hf1.
Qed.

Lemma write_matches (L : LooseEmitterSet.t) (i j : nat) :
  let em := emitter_at L i in
  let f := (Qfloor (start em) + Z.of_nat j)%Z in
  exact (ident em) -> (- 2 ^ 24 <= Qfloor (start em))%Z -> (f + 1 <= 2 ^ 24)%Z ->
  matches (write L i j)
    {| d_xyz := pos em; d_phot := overlap em f * flux em; d_frame := f; d_id := ident em |}.
Proof.
  intros em f Hid Hlo Hhi.
  destruct (@write_frame L i j Hlo Hhi) as (Hw & Hp & Hex).
  unfold matches. cbn [d_xyz d_phot d_frame d_id].
  split; [reflexivity|]. split; [exact Hp|]. split; [exact Hw|].
  split; [|split; [exact Hex|exact Hid]].
  unfold write. cbn [w_id]. fold em. now apply f32_exact.
Qed.

(** The emitters with the given indices have frames and identities that are
    stored exactly. *)
Lemma exact_at (L : LooseEmitterSet.t) (i : nat) :
  wf_loose L -> frames_exact L -> ids_exact L -> (i < nrows (LooseEmitterSet.xyz L))%nat ->
  exact (ident (emitter_at L i)) /\
  (- 2 ^ 24 <= Qfloor (start (emitter_at L i)))%Z /\
  (Qceiling (start (emitter_at L i) + dur (emitter_at L i)) <= 2 ^ 24)%Z.
Proof.
  intros Hwf Hfr Hid Hi. split.
  - destruct Hwf as (_ & _ & _ & H2 & _). unfold ids_exact in Hid.
    rewrite Forall_forall in Hid. cbn [ident emitter_at]. apply Hid, nth_In. lia.
  - now apply frames_exact_at.
Qed.

Lemma writes_lowered (L : LooseEmitterSet.t) (l : list nat) :
  Forall (fun i => exact (ident (emitter_at L i)) /\
                   (- 2 ^ 24 <= Qfloor (start (emitter_at L i)))%Z /\
                   (Qceiling (start (emitter_at L i) + dur (emitter_at L i)) <= 2 ^ 24)%Z) l ->
  Forall2 matches (writes L l) (flat_map detections (map (emitter_at L) l)).
Proof.
  induction 1 as [|i l (Hid & Hlo & Hhi) _ IH]; [constructor|].
  cbn [writes flat_map map]. apply Forall2_app; [|exact IH].
  unfold detections, frames, LooseEmitterSet.range. rewrite map_map.
  assert (Hj : Forall (fun j => (j < Z.to_nat (span (emitter_at L i)))%nat)
                      (seq 0 (Z.to_nat (span (emitter_at L i))))).
  { apply Forall_forall. intros j Hj. apply in_seq in Hj. lia. }
  revert Hj. generalize (seq 0 (Z.to_nat (span (emitter_at L i)))). intros js Hjs.
  induction Hjs as [|j js Hj _ IHj]; simpl; constructor; [|exact IHj].
  apply write_matches; [exact Hid|exact Hlo|]. unfold span in Hj. lia.
Qed.

Lemma writes_phot (L : LooseEmitterSet.t) (l : list nat) :
  Forall (fun i => (- 2 ^ 24 <= Qfloor (start (emitter_at L i)))%Z /\
                   (Qceiling (start (emitter_at L i) + dur (emitter_at L i)) <= 2 ^ 24)%Z) l ->
  Forall2 (fun w d => w_phot w == d_phot d)
          (writes L l) (flat_map detections (map (emitter_at L) l)).
Proof.
  induction 1 as [|i l (Hlo & Hhi) _ IH]; [constructor|].
  cbn [writes flat_map map]. apply Forall2_app; [|exact IH].
  unfold detections, frames, LooseEmitterSet.range. rewrite map_map.
  assert (Hj : Forall (fun j => (j < Z.to_nat (span (emitter_at L i)))%nat)
                      (seq 0 (Z.to_nat (span (emitter_at L i))))).
  { apply Forall_forall. intros j Hj. apply in_seq in Hj. lia. }
  revert Hj. generalize (seq 0 (Z.to_nat (span (emitter_at L i)))). intros js Hjs.
  induction Hjs as [|j js Hj _ IHj]; simpl; constructor; [|exact IHj].
  cbn [d_phot]. apply write_frame; [exact Hlo|]. unfold span in Hj. lia.
Qed.

Lemma Forall2_map_eq {A B C} (R : A -> B -> Prop) (g : A -> C) (h : B -> C) a b :
  Forall2 R a b -> (forall x y, R x y -> g x = h y) -> map g a = map h b.
Proof.
  intros H Hgh. induction H as [|x y a b Hxy _ IH]; [reflexivity|].
  simpl. now rewrite (Hgh _ _ Hxy), IH.
Qed.

Lemma Forall2_map_rel {A B C D} (R : A -> B -> Prop) (S : C -> D -> Prop)
    (g : A -> C) (h : B -> D) a b :
  Forall2 R a b -> (forall x y, R x y -> S (g x) (h y)) -> Forall2 S (map g a) (map h b).
Proof.
  intros H Hgh. induction H as [|x y a b Hxy _ IH]; simpl; constructor; auto.
Qed.

Lemma frames_spec (em : emitter) (f : Z) :
  In f (frames em) <-> (Qfloor (start em) <= f < Qceiling (start em + dur em))%Z.
Proof.
  unfold frames, span. rewrite in_map_iff. split.
  - intros (j & <- & Hj). apply in_seq in Hj. lia.
  - intros Hf. exists (Z.to_nat (f - Qfloor (start em))). split; [lia|].
    apply in_seq. lia.
Qed.

Lemma frames_NoDup (em : emitter) : NoDup (frames em).
Proof.
  unfold frames. apply Finite.Injective_map_NoDup; [|apply seq_NoDup].
  intros j j' H. lia.
Qed.

Lemma lowered_length (L : LooseEmitterSet.t) :
  wf_loose L ->
  Z.of_nat (length (lowered L)) = LooseEmitterSet.sum (map span (emitters L)).
Proof.
  intros Hwf. unfold lowered, emitters.
  assert (Hall : Forall (fun i => (i < nrows (LooseEmitterSet.xyz L))%nat)
                        (seq 0 (nrows (LooseEmitterSet.xyz L)))).
  { apply Forall_forall. intros i Hi. apply in_seq in Hi. lia. }
  induction Hall as [|i l Hi _ IH]; [reflexivity|].
  cbn [map flat_map]. rewrite length_app, Nat2Z.inj_add, IH.
  change (LooseEmitterSet.sum (span (emitter_at L i) :: map span (map (emitter_at L) l)))
    with (span (emitter_at L i) + LooseEmitterSet.sum (map span (map (emitter_at L) l)))%Z.
  f_equal. unfold detections, frames. rewrite !length_map, length_seq.
  pose proof (span_nonneg Hwf Hi). lia.
Qed.

(** A validated construction from aligned position, photon count, frame
    index and identity, the rest left to the defaults. *)
Lemma init_defaults_ok (x : mat) phot frame_ix ident u :
  ncols x = 3%nat -> length phot = nrows x -> length frame_ix = nrows x ->
  length ident = nrows x -> unit_ok u ->
  exists w e,
    EmitterSet.__init__ x phot frame_ix (Some ident) None None None None None true u None
      = (w, Ok e) /\
    EmitterSet.xyz e = x /\ EmitterSet.phot e = phot /\
    EmitterSet.frame_ix e = frame_ix /\ EmitterSet.id e = ident /\
    EmitterSet.prob e = repeat (Fin 1) (nrows x) /\
    EmitterSet.bg e = repeat NaN (nrows x) /\
    EmitterSet.xyz_cr e = nan_like_mat x /\
    EmitterSet.phot_cr e = repeat NaN (nrows x) /\
    EmitterSet.bg_cr e = repeat NaN (nrows x) /\
    EmitterSet.xy_unit e = u /\ EmitterSet.px_size e = None.
Proof.
  intros Hc H1 H2 H3 Hu.
  destruct (Nat.eq_dec (nrows x) 0) as [E|E].
  - rewrite init_empty; [|exact E|rewrite Hc; discriminate].
    rewrite E in *. apply length_zero_iff_nil in H1, H2, H3. subst.
    unfold nrows in E. apply length_zero_iff_nil in E.
    do 2 eexists. split; [reflexivity|]. cbn.
    assert (Hx : x = empty_mat) by (apply mat_eq; [exact Hc|exact E]).
    subst x. repeat split; reflexivity.
  - unfold EmitterSet.__init__, EmitterSet._set_typed.
    rewrite Hc. cbn [Nat.eqb rbind lift bind].
    destruct (nrows x) as [|n] eqn:En; [congruence|].
    cbn [Nat.eqb negb EmitterSet.default].
    set (e := {| EmitterSet.xyz := x; EmitterSet.phot := phot;
                 EmitterSet.frame_ix := frame_ix; EmitterSet.id := ident;
                 EmitterSet.prob := ones_like frame_ix;
                 EmitterSet.bg := nan_like frame_ix;
                 EmitterSet.xyz_cr := nan_like_mat x;
                 EmitterSet.phot_cr := nan_like phot;
                 EmitterSet.bg_cr := nan_like (nan_like frame_ix);
                 EmitterSet.xy_unit := u; EmitterSet.px_size := None;
                 EmitterSet._sorted := false |}).
    assert (Hal : aligned_checked e).
    { unfold aligned_checked, EmitterSet.__len__, e, nan_like, nan_like_mat, nrows.
      cbn. rewrite !repeat_length, length_map. unfold nrows in En.
      repeat split; congruence. }
    exists (unit_warning e), e.
    split.
    + cbn [EmitterSet.xyz EmitterSet.phot EmitterSet.frame_ix EmitterSet.id
           EmitterSet.prob EmitterSet.bg EmitterSet.xyz_cr EmitterSet.phot_cr
           EmitterSet.bg_cr EmitterSet.xy_unit EmitterSet.px_size EmitterSet._sorted
           EmitterSet.blank].
      fold e. rewrite (sanity_check_passes Hal Hu). cbn. now rewrite app_nil_r.
    + unfold e, ones_like, nan_like. cbn. rewrite ?repeat_length, H1, H2.
      repeat split; reflexivity.
Qed.

(** The on-times have to be non-negative: the buffers are allocated with
    the sum of the frame counts, and a negative count makes the allocation
    (or a later write) fail. *)
Lemma lowering_negative_ontime_raises (oob : Z -> Q -> Z) :
  LooseEmitterSet.return_emitterset oob
    (LooseEmitterSet.__init__ (Samples.rows3 1 0) [100] [-3] [1 # 2] None None)
  = ([], Raise (RuntimeError "Trying to create tensor with negative dimension")).
Proof. vm_compute. reflexivity. Qed.

Lemma to_int32_exact (oob : Z -> Q -> Z) (z : Z) :
  exact z -> LooseEmitterSet.to_int oob 32 (inject_Z z) = z.
Proof.
  unfold exact. intros Hz. apply to_int_inject; [reflexivity|].
  change (2 ^ (32 - 1))%Z with 2147483648%Z. change (2 ^ 24)%Z with 16777216%Z in Hz. lia.
Qed.

Lemma exact_all (L : LooseEmitterSet.t) :
  wf_loose L -> frames_exact L -> ids_exact L ->
  Forall (fun i => exact (ident (emitter_at L i)) /\
                   (- 2 ^ 24 <= Qfloor (start (emitter_at L i)))%Z /\
                   (Qceiling (start (emitter_at L i) + dur (emitter_at L i)) <= 2 ^ 24)%Z)
         (seq 0 (nrows (LooseEmitterSet.xyz L))).
Proof.
  intros Hwf Hfr Hid. apply Forall_forall. intros i Hi. apply in_seq in Hi.
  apply exact_at; [assumption..|lia].
Qed.

(** What the lowering returns when every frame and identity is stored
    exactly. *)
Lemma lowering_exact (oob : Z -> Q -> Z) (L : LooseEmitterSet.t) :
  wf_loose L -> frames_exact L -> ids_exact L -> unit_ok (LooseEmitterSet.xy_unit L) ->
  exists w e,
    LooseEmitterSet.return_emitterset oob L = (w, Ok e) /\
    rows (EmitterSet.xyz e) = map d_xyz (lowered L) /\
    Forall2 is_q (EmitterSet.phot e) (map d_phot (lowered L)) /\
    EmitterSet.frame_ix e = map d_frame (lowered L) /\
    EmitterSet.id e = map d_id (lowered L).
Proof.
  intros Hwf Hfx Hix Hu.
  pose proof (@writes_lowered L (seq 0 (nrows (LooseEmitterSet.xyz L)))
                (exact_all Hwf Hfx Hix)) as HW.
  fold (emitters L) in HW. fold (lowered L) in HW.
  set (W := writes L (seq 0 (nrows (LooseEmitterSet.xyz L)))) in *.
  assert (Hxyz : map w_xyz W = map d_xyz (lowered L)).
  { eapply Forall2_map_eq; [exact HW|]. intros w d Hm. apply Hm. }
  assert (Hfr : map (LooseEmitterSet.to_int oob 32) (map w_frame W)
                = map d_frame (lowered L)).
  { rewrite map_map. eapply Forall2_map_eq; [exact HW|].
    intros w d (_ & _ & Hw & _ & Hex & _). cbn beta. rewrite Hw.
    now apply to_int32_exact. }
  assert (Hid : map (LooseEmitterSet.to_int oob 32) (map w_id W) = map d_id (lowered L)).
  { rewrite map_map. eapply Forall2_map_eq; [exact HW|].
    intros w d (_ & _ & _ & Hw & _ & Hex). cbn beta. rewrite Hw.
    now apply to_int32_exact. }
  assert (Hph : Forall2 is_q (map Fin (map w_phot W)) (map d_phot (lowered L))).
  { rewrite map_map. eapply Forall2_map_rel; [exact HW|]. intros w d Hm. apply Hm. }
  unfold LooseEmitterSet.return_emitterset. rewrite (@distribute_ok L Hwf oob Hfx). fold W.
  cbn [lift bind].
  destruct (@init_defaults_ok
              {| ncols := ncols (LooseEmitterSet.xyz L); rows := map w_xyz W |}
              (map Fin (map w_phot W))
              (map (LooseEmitterSet.to_int oob 32) (map w_frame W))
              (map (LooseEmitterSet.to_int oob 32) (map w_id W))
              (LooseEmitterSet.xy_unit L))
    as (w & e & He & Ex & Ep & Ef & Ei & _);
    try (unfold nrows; cbn [rows]; now rewrite !length_map);
    [apply Hwf|exact Hu|].
  exists w, e. rewrite He. cbn [app].
  split; [reflexivity|].
  split; [rewrite Ex; exact Hxyz|].
  split; [rewrite Ep; exact Hph|].
  split; [rewrite Ef; exact Hfr|rewrite Ei; exact Hid].
Qed.

(** C1. The identity is not copied unchanged: the buffers of
    [_distribute_framewise] are float32, and an identity of 2^24 + 1 comes
    back as 2^24 in both rows of the emitter, whatever the conversion gives
    outside the range of int32. The rows themselves, their frame indices
    and the rounding of [f32_int] are as computed here. *)
Theorem lowering_rounds_large_identity (oob : Z -> Q -> Z) :
  LooseEmitterSet.id Samples.big_id = [16777217%Z] /\
  LooseEmitterSet.f32_int 16777217 = 16777216%Z /\
  exists e,
    LooseEmitterSet.return_emitterset oob Samples.big_id = ([], Ok e) /\
    EmitterSet.frame_ix e = [0%Z; 1%Z] /\
    EmitterSet.id e = [16777216%Z; 16777216%Z].
Proof.
  split; [reflexivity|]. split; [reflexivity|].
  eexists. split; [vm_compute; reflexivity|]. split; reflexivity.
Qed.

(** *** The lowering builds aligned containers *)

Lemma for_each_inv {A S} (P : S -> Prop) (l : list A) (body : A -> S -> res S) s s' :
  (forall a s s', body a s = Ok s' -> P s -> P s') ->
  P s -> LooseEmitterSet.for_each l body s = Ok s' -> P s'.
Proof.
  intros Hbody. revert s. induction l as [|a l IH]; intros s Hs H; simpl in H.
  - now injection H as <-.
  - inv_bind. eauto.
Qed.

Lemma firstn_Forall {A} (P : A -> Prop) (l : list A) n :
  Forall P l -> Forall P (firstn n l).
Proof.
  intros H. revert n. induction H as [|a l Ha _ IH]; intros [|n]; simpl;
    constructor; auto.
Qed.

Lemma skipn_Forall {A} (P : A -> Prop) (l : list A) n :
  Forall P l -> Forall P (skipn n l).
Proof.
  intros H. revert n. induction H as [|a l Ha Hl IH]; intros [|n]; simpl;
    try constructor; auto.
Qed.

Lemma set_Forall {A} (P : A -> Prop) (l : list A) c v l' :
  Forall P l -> P v -> LooseEmitterSet.set l c v = Ok l' -> Forall P l'.
Proof.
  intros Hl Hv. unfold LooseEmitterSet.set. destruct (_ <? _)%nat; [|discriminate].
  intros [= <-]. apply Forall_app. split; [now apply firstn_Forall|].
  constructor; [exact Hv|]. now apply (skipn_Forall (S c)).
Qed.

Lemma fill_rows (L : LooseEmitterSet.t) fs te i j b b' :
  mat_ok (LooseEmitterSet.xyz L) ->
  LooseEmitterSet.fill L fs te i j b = Ok b' ->
  Forall (fun r => length r = ncols (LooseEmitterSet.xyz L)) (LooseEmitterSet.xyz_ b) ->
  Forall (fun r => length r = ncols (LooseEmitterSet.xyz L)) (LooseEmitterSet.xyz_ b').
Proof.
  intros Hm H Hb. unfold LooseEmitterSet.fill in H. inv_bind. subst b'.
  cbn [LooseEmitterSet.xyz_].
  match goal with
  | Hs : LooseEmitterSet.set (LooseEmitterSet.xyz_ b) _ _ = Ok _,
    Hg : get 0 (rows (LooseEmitterSet.xyz L)) _ = Ok _ |- _ =>
      eapply set_Forall; [exact Hb| |exact Hs];
      apply get_In in Hg; unfold mat_ok in Hm; rewrite Forall_forall in Hm; now apply Hm
  end.
Qed.

Lemma distribute_rows (oob : Z -> Q -> Z) (L : LooseEmitterSet.t) m p f i :
  mat_ok (LooseEmitterSet.xyz L) ->
  LooseEmitterSet._distribute_framewise oob L = Ok (m, p, f, i) ->
  mat_ok m /\ ncols m = ncols (LooseEmitterSet.xyz L).
Proof.
  intros Hm H. unfold LooseEmitterSet._distribute_framewise in H. inv_bind.
  destruct (_ <? _)%Z; [discriminate|]. inv_bind. subst m.
  split; [|reflexivity]. unfold mat_ok. cbn [rows ncols].
  match goal with
  | Hl : LooseEmitterSet.for_each _ _ _ = Ok _ |- _ =>
      eapply (@for_each_inv _ _
                (fun b => Forall (fun r => length r = ncols (LooseEmitterSet.xyz L))
                                 (LooseEmitterSet.xyz_ b)));
        [| |exact Hl]
  end.
  - intros k s s' Hk Hs. cbn beta in Hk. inv_bind.
    eapply (@for_each_inv _ _
              (fun b => Forall (fun r => length r = ncols (LooseEmitterSet.xyz L))
                               (LooseEmitterSet.xyz_ b)));
      [|exact Hs|eassumption].
    intros j s1 s2 Hf Hs1. eapply fill_rows; eassumption.
  - cbn [LooseEmitterSet.xyz_]. apply repeat_Forall. apply repeat_length.
Qed.

Lemma lowering_wf (oob : Z -> Q -> Z) (L : LooseEmitterSet.t) w e :
  mat_ok (LooseEmitterSet.xyz L) ->
  ncols (LooseEmitterSet.xyz L) = 2%nat \/ ncols (LooseEmitterSet.xyz L) = 3%nat ->
  LooseEmitterSet.return_emitterset oob L = (w, Ok e) -> wf e.
Proof.
  intros Hm Hc H. unfold LooseEmitterSet.return_emitterset in H. inv_bind.
  match goal with Hd : LooseEmitterSet._distribute_framewise oob L = Ok ?r |- _ =>
    destruct r as [[[m p] f] i]; destruct (@distribute_rows oob L _ _ _ _ Hm Hd) as [Hm' Hc'] end.
  eapply init_defaults_wf; [eassumption|exact Hm'|now rewrite Hc'].
Qed.

Lemma sort_by_frame_wf (sort : list Z -> list Z * list Z) (e : EmitterSet.t) :
  Sort.contract sort -> wf e ->
  exists e', EmitterSet.sort_by_frame sort e = ([], Ok e') /\ wf e'.
Proof.
  intros Hsort Hwf.
  destruct (sort_by_frame_inplace_ok Hsort Hwf)
    as (e' & _ & Hf' & Hfr & G0 & C0 & G1 & G3 & G4 & G5 & G6 & C6 & G7 & G8 & Hu & Hpx & _).
  destruct (Hsort (EmitterSet.frame_ix e)) as (_ & Hg & _). rewrite <- Hfr in Hg.
  exists e'. split.
  - unfold EmitterSet.sort_by_frame. rewrite clone_fresh by assumption.
    cbn [bind]. now rewrite Hf'.
  - eapply permuted_by_wf; [exact Hwf|exact (sort_ix_perm Hsort Hwf)|].
    unfold permuted_by. repeat split; assumption.
Qed.

(** C3, as amended. What validation and the public operations guarantee:
    a construction with validation enabled returns a container whose phot,
    frame_ix, id, bg, xyz_cr, phot_cr and bg_cr have the leading dimension of
    xyz, and whose xyz has 3 columns when the given position has 2 or 3; a
    position without rows constructs the canonical empty container, which
    satisfies the whole alignment invariant and passes validation;
    [get_subset], [cat], [sort_by_frame] and [convert_em] with no axis or an
    axis of 3 entries return containers that satisfy the whole invariant when their
    inputs do; and the lowering of a LooseEmitterSet with N x 2 or N x 3
    positions returns a container that satisfies it. *)
Theorem alignment_invariant :
  (forall x phot frame_ix id prob bg xyz_cr phot_cr bg_cr u p w e,
     EmitterSet.__init__ x phot frame_ix id prob bg xyz_cr phot_cr bg_cr true u p
       = (w, Ok e) ->
     aligned_checked e /\
     (ncols x = 2%nat \/ ncols x = 3%nat -> ncols (EmitterSet.xyz e) = 3%nat) /\
     (mat_ok x -> mat_ok (EmitterSet.xyz e))) /\
  (forall x phot frame_ix id prob bg xyz_cr phot_cr bg_cr u p,
     nrows x = 0%nat -> ncols x <> 0%nat ->
     exists e,
       EmitterSet.__init__ x phot frame_ix id prob bg xyz_cr phot_cr bg_cr true u p
         = ([], Ok e) /\
       wf e /\ EmitterSet.__len__ e = 0%nat) /\
  (forall e ix w e',
     wf e -> EmitterSet.get_subset e ix = (w, Ok e') -> wf e') /\
  (forall es remap step w e',
     Forall wf es -> EmitterSet.cat es remap step = (w, Ok e') -> wf e') /\
  (forall sort e,
     Sort.contract sort -> wf e ->
     exists e', EmitterSet.sort_by_frame sort e = ([], Ok e') /\ wf e') /\
  (forall e factor shift axis frame_shift new_xy_unit w e',
     wf e -> axis_ok axis ->
     EmitterSet.convert_em e factor shift axis frame_shift new_xy_unit = (w, Ok e') ->
     wf e') /\
  (forall oob L w e,
     mat_ok (LooseEmitterSet.xyz L) ->
     ncols (LooseEmitterSet.xyz L) = 2%nat \/ ncols (LooseEmitterSet.xyz L) = 3%nat ->
     LooseEmitterSet.return_emitterset oob L = (w, Ok e) -> wf e).
Proof.
  split; [|split; [|split; [|split; [|split; [|split]]]]].
  - intros. eapply init_checked_guarantee; eassumption.
  - intros x phot frame_ix id prob bg xyz_cr phot_cr bg_cr u p Hn Hc.
    exists (empty_set u p). split; [now apply init_empty|apply empty_set_wf].
  - intros. eapply get_subset_wf; eassumption.
  - intros. eapply cat_wf; eassumption.
  - intros. now apply sort_by_frame_wf.
  - intros. eapply convert_em_wf; eassumption.
  - intros. eapply lowering_wf; eassumption.
Qed.

(** An axis that names 2 columns leaves a position with 2 columns. *)
Lemma convert_em_axis_drops_column :
  exists e',
    EmitterSet.convert_em (Samples.pair 1 7) None None (Some [0%Z; 1%Z]) None None
      = ([], Ok e') /\
    ncols (EmitterSet.xyz e') = 2%nat.
Proof. eexists. split; [vm_compute; reflexivity|reflexivity]. Qed.

(** C3, the claim as stated fails: validation does not look at the columns
    of [xyz_cr]; a position uncertainty with 2 columns is accepted and kept. *)
Lemma validation_accepts_two_column_xyz_cr :
  exists e,
    EmitterSet.__init__ (Samples.rows3 1 0) [Fin 1] [0%Z] None None None
      (Some {| ncols := 2; rows := [[Fin 1; Fin 1]] |}) None None
      true (Some "px"%string) None = ([], Ok e) /\
    ncols (EmitterSet.xyz_cr e) = 2%nat /\ ~ wf e.
Proof.
  eexists. split; [vm_compute; reflexivity|]. split; [reflexivity|].
  intros (_ & _ & _ & _ & H). discriminate H.
Qed.

(** The shape test of the validation names [prob] in its message but is not
    given it: a probability tensor of another length is accepted. *)
Lemma validation_accepts_misaligned_prob :
  exists e,
    EmitterSet.__init__ (Samples.rows3 1 0) [Fin 1] [0%Z] None
      (Some [Fin 1; Fin 1; Fin 1]) None None None None
      true (Some "px"%string) None = ([], Ok e) /\
    EmitterSet.__len__ e = 1%nat /\ length (EmitterSet.prob e) = 3%nat.
Proof. eexists. split; [vm_compute; reflexivity|]. split; reflexivity. Qed.

(** ** The theorems at concrete inputs *)

Lemma alignment_invariant_witness :
  wf (Samples.pair 1 7) /\
  exists w e',
    EmitterSet.get_subset (Samples.pair 1 7) (EmitterSet.Int 0) = (w, Ok e') /\ wf e'.
Proof.
  assert (Hwf : wf (Samples.pair 1 7)).
  { unfold wf, aligned, mat_ok. repeat split; repeat constructor. }
  split; [exact Hwf|].
  destruct alignment_invariant as (_ & _ & Hsub & _).
  eexists. eexists. split; [vm_compute; reflexivity|].
  eapply (Hsub (Samples.pair 1 7) (EmitterSet.Int 0)); [exact Hwf|].
  vm_compute. reflexivity.
Defined.

Lemma sort_by_frame_permutes_witness :
  Sort.contract Sort.argsort /\ wf (Samples.pair 7 1) /\
  exists e',
    EmitterSet.sort_by_frame_ Sort.argsort (Samples.pair 7 1) = Ok e' /\
    permuted_by [1%Z; 0%Z] (Samples.pair 7 1) e' /\
    Sorted Z.le (EmitterSet.frame_ix e').
Proof.
  assert (Hwf : wf (Samples.pair 7 1)).
  { unfold wf, aligned, mat_ok. repeat split; repeat constructor. }
  split; [apply argsort_contract|]. split; [exact Hwf|].
  destruct (sort_by_frame_permutes argsort_contract Hwf)
    as (e' & He' & _ & _ & Hpb & Hs & _).
  exists e'. split; [exact He'|]. split; [exact Hpb|exact Hs].
Defined.

Lemma xyz_unit_accessors_witness :
  let e := Samples.single 0 (Some "nm"%string) (Some [Fin 100; Fin 100]) in
  mat_ok (EmitterSet.xyz e) /\ ncols (EmitterSet.xyz e) = 3%nat /\
  EmitterSet.xyz_px e
  = ([], Ok (Some (scale fdiv (EmitterSet.xyz e) [Fin 100; Fin 100; Fin 1]))).
Proof.
  intros e.
  assert (Hm : mat_ok (EmitterSet.xyz e)) by (repeat constructor).
  split; [exact Hm|]. split; [reflexivity|].
  destruct (xyz_unit_accessors e) as (_ & _ & _ & _ & _ & H).
  destruct (H [Fin 100; Fin 100] Hm eq_refl eq_refl (or_introl eq_refl)) as [Hpx _].
  exact (Hpx eq_refl).
Defined.

Lemma cat_single_identity_witness :
  let c := Samples.single 3 (Some "px"%string) None in
  wf c /\ unit_ok (EmitterSet.xy_unit c) /\ comparable c /\
  exists w c',
    EmitterSet.cat [c] None None = (w, Ok c') /\ EmitterSet.__eq__ c' c = Ok true.
Proof.
  intros c.
  assert (Hwf : wf c) by (unfold wf, aligned, mat_ok; repeat split; repeat constructor).
  assert (Hu : unit_ok (EmitterSet.xy_unit c)) by (right; left; reflexivity).
  assert (Hc : comparable c).
  { unfold comparable, whole, whole_mat.
    split; [reflexivity|]. split; [reflexivity|]. split; [reflexivity|].
    split; [right; reflexivity|]. split; [right; reflexivity|].
    split; [right; reflexivity|]. split; [right; reflexivity|].
    right. repeat split. }
  split; [exact Hwf|]. split; [exact Hu|]. split; [exact Hc|].
  destruct (cat_single_identity Hwf Hu) as (w & c' & Hcat & _ & _ & Heq).
  exists w, c'. split; [exact Hcat|exact (Heq Hc)].
Defined.

Lemma getitem_int_index_witness :
  let e := Samples.pair 1 7 in
  aligned e /\ ncols (EmitterSet.xyz e) = 3%nat /\
  EmitterSet.__getitem__ e (EmitterSet.Int 2)
    = ([], Raise (IndexError "Index 2 out of bounds of EmitterSet of size 2")) /\
  EmitterSet.__getitem__ e (EmitterSet.Int (-3))
    = ([], Raise (IndexError "index -3 is out of bounds for dimension 0 with size 2")) /\
  exists e', EmitterSet.__getitem__ e (EmitterSet.Int (-1)) = ([], Ok e') /\
             EmitterSet.__len__ e' = 1%nat /\ EmitterSet.frame_ix e' = [7%Z].
Proof.
  intros e.
  assert (Hal : aligned e) by (unfold aligned; repeat split).
  split; [exact Hal|]. split; [reflexivity|].
  split; [|split].
  - exact (proj1 (getitem_int_index 2 Hal eq_refl) ltac:(vm_compute; discriminate)).
  - exact (proj1 (proj2 (getitem_int_index (-3) Hal eq_refl)) eq_refl).
  - destruct (proj2 (proj2 (getitem_int_index (-1) Hal eq_refl)))
      as (e' & He' & Hn & Hrec).
    + vm_compute. split; [discriminate|reflexivity].
    + exists e'. split; [exact He'|]. split; [exact Hn|]. rewrite Hrec. reflexivity.
Defined.

(** * Further properties of the container *)

(** ** What validation accepts *)

Lemma same_shape_aligned (e : EmitterSet.t) :
  tutil.same_shape_tensor
    [nrows (EmitterSet.xyz e); length (EmitterSet.phot e); length (EmitterSet.frame_ix e);
     length (EmitterSet.id e); length (EmitterSet.bg e); nrows (EmitterSet.xyz_cr e);
     length (EmitterSet.phot_cr e); length (EmitterSet.bg_cr e)] = true
  <-> aligned_checked e.
Proof.
  split.
  - intros H. apply same_shape_inv in H.
    repeat match goal with H : Forall _ (_ :: _) |- _ => inversion H; clear H; subst end.
    unfold aligned_checked. repeat split; assumption.
  - intros (H1 & H2 & H3 & H4 & H5 & H6 & H7).
    apply same_shape_all. repeat constructor; assumption.
Qed.

Lemma in_units_iff (u : string) :
  EmitterSet.in_units u = true <-> unit_ok (Some u).
Proof.
  split; [|apply in_units_ok].
  unfold EmitterSet.in_units, EmitterSet.xy_units, unit_ok. cbn [existsb].
  rewrite !orb_true_iff, !String.eqb_eq. intros [->|[->|H]]; auto. discriminate.
Qed.

Lemma unique_numel_NoDup (l : list Z) :
  (unique_numel l =? length l)%nat = true <-> NoDup l.
Proof.
  unfold unique_numel. rewrite Nat.eqb_eq. split.
  - intros H. induction l as [|x l IH]; [constructor|].
    simpl in H. destruct (in_dec Z.eq_dec x l) as [Hin|Hin].
    + assert (Hle : (length (nodup Z.eq_dec l) <= length l)%nat).
      { apply NoDup_incl_length; [apply NoDup_nodup|].
        intros y Hy. now apply nodup_In in Hy. }
      simpl in H. lia.
    + simpl in H. constructor; [exact Hin|]. apply IH. lia.
  - intros H. now rewrite nodup_fixed_point.
Qed.

(** X2. With [check_uniqueness] a container that passes the other tests is
    accepted exactly when no identity occurs twice; otherwise the check
    raises the ValueError about the identities. The default identity -1 of
    two or more emitters is therefore refused. *)
Theorem sanity_check_uniqueness (e : EmitterSet.t) :
  aligned_checked e -> unit_ok (EmitterSet.xy_unit e) ->
  (NoDup (EmitterSet.id e) ->
     EmitterSet._sanity_check e true = (unit_warning e, Ok true)) /\
  (~ NoDup (EmitterSet.id e) ->
     EmitterSet._sanity_check e true
     = (unit_warning e, Raise (ValueError "IDs are not unique."))).
Proof.
  intros Ha Hu. unfold EmitterSet._sanity_check, unit_warning.
  apply same_shape_aligned in Ha. rewrite Ha.
  cbn [negb tutil.same_dim_tensor Nat.eqb andb].
  assert (Hunit : (if (0 <? EmitterSet.__len__ e)%nat
                   then match EmitterSet.xy_unit e with
                        | Some u => if negb (EmitterSet.in_units u)
                                    then raise (ValueError "XY unit not supported.")
                                    else ret tt
                        | None => warn "No xyz unit specified. No guarantees given ..."
                        end
                   else ret tt)
                  = (if (0 <? EmitterSet.__len__ e)%nat
                     then match EmitterSet.xy_unit e with
                          | Some _ => []
                          | None => ["No xyz unit specified. No guarantees given ..."%string]
                          end
                     else [], Ok tt)).
  { destruct (0 <? EmitterSet.__len__ e)%nat; [|reflexivity].
    destruct (EmitterSet.xy_unit e) as [u|] eqn:Eu; [|reflexivity].
    now rewrite in_units_ok. }
  rewrite Hunit. cbn [bind].
  split; intros Hd.
  - apply unique_numel_NoDup in Hd. rewrite Hd. cbn. now rewrite !app_nil_r.
  - destruct (unique_numel (EmitterSet.id e) =? length (EmitterSet.id e))%nat eqn:E.
    + apply unique_numel_NoDup in E. contradiction.
    + cbn. now rewrite app_nil_r.
Qed.

Lemma sanity_check_uniqueness_witness :
  EmitterSet._sanity_check (Samples.pair 1 7) true = ([], Ok true).
Proof.
  assert (Ha : aligned_checked (Samples.pair 1 7)) by (repeat split).
  assert (Hu : unit_ok (EmitterSet.xy_unit (Samples.pair 1 7))) by (right; left; reflexivity).
  assert (Hd : NoDup (EmitterSet.id (Samples.pair 1 7))).
  { cbn. constructor; [cbn; intros [H|[]]; discriminate|]. constructor; [intros []|constructor]. }
  exact (proj1 (sanity_check_uniqueness Ha Hu) Hd).
Defined.

Import Ops.

(** ** What an answer True of [==] means *)

Lemma all2_Forall2 {A} (f : A -> A -> bool) (a b : list A) :
  tutil.all2 f a b = true -> Forall2 (fun x y => f x y = true) a b.
Proof.
  revert b. induction a as [|x a IH]; intros [|y b] H; simpl in H; try discriminate.
  - constructor.
  - apply andb_true_iff in H as [Hx Hr]. constructor; auto.
Qed.

Lemma close_near (x y : scalar) :
  tutil.close EmitterSet.eq_precision x y = true -> near x y.
Proof.
  destruct x as [|a], y as [|b]; simpl; try discriminate.
  intros H. now apply Qle_bool_iff in H.
Qed.

Lemma close_int_eq (x y : Z) :
  tutil.close_int EmitterSet.eq_precision x y = true -> x = y.
Proof.
  unfold tutil.close_int. intros H. apply Qle_bool_iff in H.
  unfold Qle, Qabs, Qminus, Qplus, Qopp, inject_Z, EmitterSet.eq_precision in H.
  cbn [Qnum Qden] in H. lia.
Qed.

Lemma tens_almeq_near (a b : list scalar) :
  tutil.tens_almeq a b EmitterSet.eq_precision = Ok true -> Forall2 near a b.
Proof.
  unfold tutil.tens_almeq. destruct (_ =? _)%nat; [|discriminate].
  intros [= H]. apply all2_Forall2 in H.
  eapply Forall2_impl; [|exact H]. intros x y. apply close_near.
Qed.

Lemma tens_almeq_int_eq (a b : list Z) :
  tutil.tens_almeq_int a b EmitterSet.eq_precision = Ok true -> a = b.
Proof.
  unfold tutil.tens_almeq_int. destruct (_ =? _)%nat; [|discriminate].
  intros [= H]. apply all2_Forall2 in H.
  induction H as [|x y a b Hxy _ IH]; [reflexivity|].
  apply close_int_eq in Hxy. congruence.
Qed.

Lemma tens_almeq_mat_near (a b : mat) :
  tutil.tens_almeq_mat a b EmitterSet.eq_precision = Ok true ->
  ncols a = ncols b /\ nrows a = nrows b /\ Forall2 (Forall2 near) (rows a) (rows b).
Proof.
  unfold tutil.tens_almeq_mat.
  destruct (Nat.eqb_spec (ncols a) (ncols b)); [|discriminate].
  destruct (Nat.eqb_spec (nrows a) (nrows b)); [|discriminate].
  cbn [negb]. intros [= H]. repeat split; try assumption.
  apply all2_Forall2 in H. eapply Forall2_impl; [|exact H].
  intros r r' Hr. cbn beta in Hr. apply all2_Forall2 in Hr.
  eapply Forall2_impl; [|exact Hr]. intros x y. apply close_near.
Qed.

Lemma unit_eqb_eq (u v : option string) : EmitterSet.unit_eqb u v = true -> u = v.
Proof.
  destruct u as [x|], v as [y|]; simpl; try discriminate; [|reflexivity].
  intros H. apply String.eqb_eq in H. now subst.
Qed.

(** X3. For two containers that satisfy the alignment invariant and hold
    the same number of rows, an answer True of [==] is sound for the
    compared required fields: position, photon count and probability agree
    entry by entry within the tolerance and in the same row order, the
    frame indices are identical, the units are the same, and a background
    that is all NaN on the left is all NaN on the right, any other agrees
    within the tolerance. The identities are not looked at. *)
Theorem eq_true_sound (a b : EmitterSet.t) :
  wf a -> wf b -> EmitterSet.__len__ a = EmitterSet.__len__ b ->
  EmitterSet.__eq__ a b = Ok true ->
  Forall2 (Forall2 near) (rows (EmitterSet.xyz a)) (rows (EmitterSet.xyz b)) /\
  EmitterSet.frame_ix a = EmitterSet.frame_ix b /\
  Forall2 near (EmitterSet.phot a) (EmitterSet.phot b) /\
  Forall2 near (EmitterSet.prob a) (EmitterSet.prob b) /\
  EmitterSet.xy_unit a = EmitterSet.xy_unit b /\
  (if all_nan (EmitterSet.bg a) then all_nan (EmitterSet.bg b) = true
   else Forall2 near (EmitterSet.bg a) (EmitterSet.bg b)).
Proof.
  intros _ _ _. rewrite eq_split. unfold eq_fields. intros H.
  destruct (tutil.tens_almeq_mat _ _ _) as [[|]|] eqn:E1; cbn [rbind negb] in H;
    try discriminate.
  destruct (tutil.tens_almeq_int _ _ _) as [[|]|] eqn:E2; cbn [rbind negb] in H;
    try discriminate.
  destruct (tutil.tens_almeq (EmitterSet.phot a) _ _) as [[|]|] eqn:E3;
    cbn [rbind negb] in H; try discriminate.
  destruct (tutil.tens_almeq (EmitterSet.prob a) _ _) as [[|]|] eqn:E4;
    cbn [rbind negb] in H; try discriminate.
  destruct (EmitterSet.unit_eqb _ _) eqn:E5; cbn [negb] in H; try discriminate.
  apply tens_almeq_mat_near in E1 as (Hc & Hn & Hx).
  apply tens_almeq_int_eq in E2. apply tens_almeq_near in E3, E4.
  apply unit_eqb_eq in E5.
  repeat split; try assumption.
  destruct (all_nan (EmitterSet.bg a)).
  - cbn [rbind] in H. destruct (all_nan (EmitterSet.bg b)); [reflexivity|discriminate].
  - destruct (tutil.tens_almeq (EmitterSet.bg a) _ _) as [[|]|] eqn:E6;
      cbn [rbind negb] in H; try discriminate.
    now apply tens_almeq_near.
Qed.

Lemma eq_true_sound_witness :
  EmitterSet.__eq__ (Samples.pair 1 7) (Samples.pair 1 7) = Ok true /\
  EmitterSet.frame_ix (Samples.pair 1 7) = EmitterSet.frame_ix (Samples.pair 1 7) /\
  Forall2 near (EmitterSet.phot (Samples.pair 1 7)) (EmitterSet.phot (Samples.pair 1 7)).
Proof.
  assert (Hwf : wf (Samples.pair 1 7)) by (repeat constructor).
  assert (H : EmitterSet.__eq__ (Samples.pair 1 7) (Samples.pair 1 7) = Ok true)
    by (vm_compute; reflexivity).
  split; [exact H|].
  destruct (@eq_true_sound _ _ Hwf Hwf eq_refl H) as (_ & Hf & Hp & _).
  split; [exact Hf|exact Hp].
Defined.

(** ** single_frame *)

Lemma nodup_singleton (l : list Z) (f : Z) :
  nodup Z.eq_dec l = [f] -> l <> [] /\ Forall (eq f) l.
Proof.
  intros H. split.
  - intros ->. discriminate H.
  - apply Forall_forall. intros x Hx. apply (nodup_In Z.eq_dec) in Hx.
    rewrite H in Hx. destruct Hx as [Hx|[]]. exact Hx.
Qed.

Lemma nodup_all_equal (l : list Z) (f : Z) :
  l <> [] -> Forall (eq f) l -> nodup Z.eq_dec l = [f].
Proof.
  intros Hne Hall.
  assert (Hsub : Forall (eq f) (nodup Z.eq_dec l)).
  { apply Forall_forall. intros x Hx. apply nodup_In in Hx.
    rewrite Forall_forall in Hall. now apply Hall. }
  pose proof (NoDup_nodup Z.eq_dec l) as Hnd.
  destruct (nodup Z.eq_dec l) as [|x [|y r]] eqn:E.
  - destruct l as [|z l]; [contradiction|].
    assert (Hin : In z (nodup Z.eq_dec (z :: l))) by (apply nodup_In; now left).
    rewrite E in Hin. contradiction.
  - inversion Hsub; subst. reflexivity.
  - inversion Hsub as [|? ? Hx Hr]; subst. inversion Hr; subst.
    inversion Hnd as [|? ? Hnin _]; subst. elim Hnin. now left.
Qed.

(** X4. [single_frame] is True exactly when the container holds at least one
    emitter and all its emitters are on one frame; for the empty container
    it is False. *)
Theorem single_frame_iff (e : EmitterSet.t) :
  EmitterSet.single_frame e = true <->
  exists f, EmitterSet.frame_ix e <> [] /\ Forall (eq f) (EmitterSet.frame_ix e).
Proof.
  unfold EmitterSet.single_frame, unique_numel. rewrite Nat.eqb_eq. split.
  - intros H. destruct (nodup Z.eq_dec (EmitterSet.frame_ix e)) as [|f [|g r]] eqn:E;
      try discriminate.
    exists f. now apply nodup_singleton.
  - intros (f & Hne & Hall). now rewrite (nodup_all_equal Hne Hall).
Qed.

(** ** Unit conversion there and back *)

Lemma fdiv_fmul (x p : scalar) : nonzero p -> same (fdiv (fmul x p) p) x.
Proof.
  destruct p as [|q]; [contradiction|]. intros Hq. destruct x as [|a]; simpl; [exact I|].
  destruct (Qeq_bool q 0) eqn:E.
  - apply Qeq_bool_iff in E. contradiction.
  - simpl. now apply Qdiv_mult_l.
Qed.

Lemma zip_round_trip (r v : list scalar) :
  length r = length v -> Forall nonzero v ->
  Forall2 same (zip_with fdiv (zip_with fmul r v) v) r.
Proof.
  unfold zip_with. revert v. induction r as [|x r IH]; intros [|p v] Hl Hv;
    simpl in *; try discriminate; [constructor|].
  inversion Hv; subst. constructor; [now apply fdiv_fmul|]. apply IH; [lia|assumption].
Qed.

Lemma extend_nonzero (px : list scalar) : Forall nonzero px -> Forall nonzero (extend px).
Proof.
  intros H. unfold extend. destruct (_ =? _)%nat; [|exact H].
  apply Forall_app. split; [exact H|]. constructor; [|constructor].
  simpl. discriminate.
Qed.

Lemma scale_ok (op : scalar -> scalar -> scalar) (m : mat) (v : list scalar) :
  mat_ok m -> ncols m = length v -> mat_ok (scale op m v).
Proof.
  intros Hm Hc. unfold mat_ok, scale. cbn [rows ncols]. apply Forall_map.
  eapply Forall_impl; [|exact Hm]. intros r Hr. cbn beta in *.
  unfold zip_with. rewrite length_map, length_combine. lia.
Qed.

(** X5. Pixels to nanometres and back: for N x 3 positions in 'px' and a
    pixel size of 2 or 3 non-zero components, writing the result of [xyz_nm]
    through the setter of [xyz_nm] and reading [xyz_px] returns the original
    coordinates, entry by entry (NaN stays NaN). *)
Theorem px_nm_px_round_trip (e : EmitterSet.t) (px : list scalar) :
  mat_ok (EmitterSet.xyz e) -> ncols (EmitterSet.xyz e) = 3%nat ->
  EmitterSet.xy_unit e = Some "px"%string -> EmitterSet.px_size e = Some px ->
  length px = 2%nat \/ length px = 3%nat -> Forall nonzero px ->
  exists nm back,
    EmitterSet.xyz_nm e = ([], Ok (Some nm)) /\
    EmitterSet.xyz_px (EmitterSet.xyz_nm_setter e nm) = ([], Ok (Some back)) /\
    ncols back = 3%nat /\
    Forall2 (Forall2 same) (rows back) (rows (EmitterSet.xyz e)).
Proof.
  intros Hm Hc Hu Hp Hl Hnz.
  pose proof (extend_length px Hl) as Hle.
  exists (scale fmul (EmitterSet.xyz e) (extend px)),
         (scale fdiv (scale fmul (EmitterSet.xyz e) (extend px)) (extend px)).
  split; [|split; [|split]].
  - unfold EmitterSet.xyz_nm. rewrite Hu, Hp. cbn.
    rewrite convert_factor; [reflexivity|exact Hm|congruence].
  - unfold EmitterSet.xyz_px, EmitterSet.xyz_nm_setter. cbn. rewrite Hp.
    rewrite convert_factor.
    + cbn. do 3 f_equal. unfold scale at 1 3. cbn [rows ncols]. f_equal.
      apply map_ext. intros r. apply extend_inv.
    + cbn. apply scale_ok; [exact Hm|congruence].
    + cbn. rewrite Hc. symmetry. apply extend_length. now rewrite length_map.
  - cbn. exact Hc.
  - cbn. rewrite map_map. unfold mat_ok in Hm.
    induction Hm as [|r rs Hr _ IH]; simpl; constructor; [|exact IH].
    apply zip_round_trip; [congruence|now apply extend_nonzero].
Qed.

Lemma px_nm_px_round_trip_witness :
  let e := Samples.single 0 (Some "px"%string) (Some [Fin 100; Fin 100]) in
  exists nm back,
    EmitterSet.xyz_nm e = ([], Ok (Some nm)) /\
    EmitterSet.xyz_px (EmitterSet.xyz_nm_setter e nm) = ([], Ok (Some back)) /\
    Forall2 (Forall2 same) (rows back) (rows (EmitterSet.xyz e)).
Proof.
  intros e.
  assert (Hm : mat_ok (EmitterSet.xyz e)) by (repeat constructor).
  assert (Hnz : Forall nonzero [Fin 100; Fin 100])
    by (repeat constructor; simpl; discriminate).
  destruct (px_nm_px_round_trip e Hm eq_refl eq_refl eq_refl (or_introl eq_refl) Hnz)
    as (nm & back & H1 & H2 & _ & H3).
  exists nm, back. auto.
Defined.

(** ** Subsets by index and iteration *)

Lemma gather_map {A} dim (l : list A) (d : A) (ix : list Z) :
  Forall (in_bounds (length l)) ix ->
  gather dim l ix = Ok (map (fun i => nth (row_of (length l) i) l d) ix).
Proof.
  induction 1 as [|i ix Hi _ IH]; [reflexivity|].
  destruct (@get_in_range _ dim l i Hi) as (a & Hn & Ha).
  simpl. rewrite Ha, IH. cbn [rbind]. f_equal. f_equal.
  symmetry. now apply nth_error_nth.
Qed.

Lemma get_subset_list (e : EmitterSet.t) (ix : list Z) :
  wf e -> Forall (in_bounds (EmitterSet.__len__ e)) ix ->
  exists e',
    EmitterSet.get_subset e (EmitterSet.Ix (IntList ix)) = ([], Ok e') /\
    EmitterSet.__len__ e' = length ix /\
    EmitterSet.frame_ix e'
    = map (fun i => nth (row_of (EmitterSet.__len__ e) i) (EmitterSet.frame_ix e) 0%Z) ix /\
    permuted_by ix e e' /\ EmitterSet._sorted e' = false.
Proof.
  intros ((H1 & H2 & H3 & H4 & H5 & H6 & H7 & H8) & Hm & Hc & Hm' & Hc') Hix.
  unfold EmitterSet.__len__, nrows in *.
  unfold EmitterSet.get_subset, getrows, getitem.
  rewrite (gather_map 0 (rows (EmitterSet.xyz e)) []) by assumption.
  rewrite (gather_map 0 (EmitterSet.phot e) NaN) by (rewrite H1; assumption).
  rewrite (gather_map 0 (EmitterSet.frame_ix e) 0%Z) by (rewrite H2; assumption).
  rewrite (gather_map 0 (EmitterSet.id e) 0%Z) by (rewrite H3; assumption).
  rewrite (gather_map 0 (EmitterSet.prob e) NaN) by (rewrite H4; assumption).
  rewrite (gather_map 0 (EmitterSet.bg e) NaN) by (rewrite H5; assumption).
  rewrite (gather_map 0 (rows (EmitterSet.xyz_cr e)) []) by (rewrite H6; assumption).
  rewrite (gather_map 0 (EmitterSet.phot_cr e) NaN) by (rewrite H7; assumption).
  rewrite (gather_map 0 (EmitterSet.bg_cr e) NaN) by (rewrite H8; assumption).
  cbn [lift bind rbind app]. rewrite H1, H2, H3, H4, H5, H6, H7, H8.
  destruct ix as [|i ix].
  - cbn [map]. rewrite init_unchecked_empty by (assumption || reflexivity).
    eexists. split; [reflexivity|]. unfold permuted_by. cbn.
    repeat split; congruence.
  - rewrite init_unchecked by (assumption || discriminate).
    eexists. split; [reflexivity|]. cbn [EmitterSet.xyz EmitterSet.frame_ix rows].
    split; [now rewrite length_map|]. split; [reflexivity|]. split; [|reflexivity].
    unfold permuted_by.
    cbn [EmitterSet.xyz EmitterSet.phot EmitterSet.frame_ix EmitterSet.id EmitterSet.prob
         EmitterSet.bg EmitterSet.xyz_cr EmitterSet.phot_cr EmitterSet.bg_cr
         EmitterSet.xy_unit EmitterSet.px_size rows ncols].
    rewrite (gather_map 0 (rows (EmitterSet.xyz e)) []) by assumption.
    rewrite (gather_map 0 (EmitterSet.phot e) NaN) by (rewrite H1; assumption).
    rewrite (gather_map 0 (EmitterSet.frame_ix e) 0%Z) by (rewrite H2; assumption).
    rewrite (gather_map 0 (EmitterSet.id e) 0%Z) by (rewrite H3; assumption).
    rewrite (gather_map 0 (EmitterSet.prob e) NaN) by (rewrite H4; assumption).
    rewrite (gather_map 0 (EmitterSet.bg e) NaN) by (rewrite H5; assumption).
    rewrite (gather_map 0 (rows (EmitterSet.xyz_cr e)) []) by (rewrite H6; assumption).
    rewrite (gather_map 0 (EmitterSet.phot_cr e) NaN) by (rewrite H7; assumption).
    rewrite (gather_map 0 (EmitterSet.bg_cr e) NaN) by (rewrite H8; assumption).
    rewrite H1, H2, H3, H4, H5, H6, H7, H8.
    repeat split; reflexivity.
Qed.

(** X6. [get_subset] with a list or an integer tensor of in-range indices
    (negative ones count from the end) returns a container with one row per
    index, in the order of the indices and with repetitions kept: every
    attribute holds the rows of the input at those positions, unit and pixel
    size are kept, and the sort flag is cleared. *)
Theorem get_subset_by_indices (e : EmitterSet.t) (ix : list Z) :
  wf e -> Forall (in_bounds (EmitterSet.__len__ e)) ix ->
  exists e',
    EmitterSet.get_subset e (EmitterSet.Ix (IntList ix)) = ([], Ok e') /\
    EmitterSet.get_subset e (EmitterSet.Ix (LongTensor ix)) = ([], Ok e') /\
    EmitterSet.__len__ e' = length ix /\
    EmitterSet.frame_ix e'
    = map (fun i => nth (row_of (EmitterSet.__len__ e) i) (EmitterSet.frame_ix e) 0%Z) ix /\
    permuted_by ix e e' /\ EmitterSet._sorted e' = false.
Proof.
  intros Hwf Hix. destruct (get_subset_list Hwf Hix) as (e' & He' & Hrest).
  exists e'. split; [exact He'|]. split; [|exact Hrest].
  rewrite <- He'. unfold EmitterSet.get_subset.
  destruct ix as [|i [|j ix]]; reflexivity.
Qed.

Lemma get_subset_by_indices_witness :
  exists e',
    EmitterSet.get_subset (Samples.pair 1 7) (EmitterSet.Ix (IntList [-1; 0; -1]%Z))
      = ([], Ok e') /\
    EmitterSet.frame_ix e' = [7; 1; 7]%Z.
Proof.
  assert (Hwf : wf (Samples.pair 1 7)).
  { unfold wf, aligned, mat_ok. repeat split; repeat constructor. }
  assert (Hix : Forall (in_bounds (EmitterSet.__len__ (Samples.pair 1 7))) [-1; 0; -1]%Z).
  { repeat constructor; vm_compute; intros [=]. }
  destruct (get_subset_by_indices Hwf Hix) as (e' & He' & _ & _ & Hf & _).
  exists e'. split; [exact He'|]. rewrite Hf. reflexivity.
Defined.

Lemma get_subset_row (e : EmitterSet.t) (k : nat) :
  wf e -> (k < EmitterSet.__len__ e)%nat ->
  EmitterSet.get_subset e (EmitterSet.Int (Z.of_nat k)) = ([], Ok (row e k)).
Proof.
  intros ((H1 & H2 & H3 & H4 & H5 & H6 & H7 & H8) & Hm & Hc & Hm' & Hc') Hk.
  unfold EmitterSet.__len__, nrows in *.
  assert (Hi : (- Z.of_nat (length (rows (EmitterSet.xyz e))) <= Z.of_nat k
                < Z.of_nat (length (rows (EmitterSet.xyz e))))%Z) by lia.
  assert (Hpos : row_of (length (rows (EmitterSet.xyz e))) (Z.of_nat k) = k).
  { unfold row_of. destruct (Z.ltb_spec (Z.of_nat k) 0); lia. }
  unfold EmitterSet.get_subset, getrows, getitem.
  rewrite (gather_one 0 (rows (EmitterSet.xyz e))) by assumption.
  rewrite (gather_one 0 (EmitterSet.phot e)) by (rewrite H1; assumption).
  rewrite (gather_one 0 (EmitterSet.frame_ix e)) by (rewrite H2; assumption).
  rewrite (gather_one 0 (EmitterSet.id e)) by (rewrite H3; assumption).
  rewrite (gather_one 0 (EmitterSet.prob e)) by (rewrite H4; assumption).
  rewrite (gather_one 0 (EmitterSet.bg e)) by (rewrite H5; assumption).
  rewrite (gather_one 0 (rows (EmitterSet.xyz_cr e))) by (rewrite H6; assumption).
  rewrite (gather_one 0 (EmitterSet.phot_cr e)) by (rewrite H7; assumption).
  rewrite (gather_one 0 (EmitterSet.bg_cr e)) by (rewrite H8; assumption).
  rewrite H1, H2, H3, H4, H5, H6, H7, H8, Hpos.
  cbn -[pick EmitterSet.__init__].
  rewrite init_unchecked;
    [reflexivity|exact Hc|unfold nrows; cbn -[pick]; rewrite pick_length by exact Hk; discriminate].
Qed.

Lemma collect_rows (e : EmitterSet.t) (fuel n : nat) :
  wf e -> (n <= EmitterSet.__len__ e)%nat -> (EmitterSet.__len__ e - n < fuel)%nat ->
  EmitterSet.collect fuel e n
  = ([], Ok (Some (map (row e) (seq n (EmitterSet.__len__ e - n))))).
Proof.
  intros Hwf. revert n. induction fuel as [|fuel IH]; intros n Hn Hf; [lia|].
  cbn [EmitterSet.collect]. unfold EmitterSet.__next__.
  destruct (Z.leb_spec (Z.of_nat n) (Z.of_nat (EmitterSet.__len__ e) - 1)) as [Hlt|Hge].
  - replace (Z.of_nat (S n) - 1)%Z with (Z.of_nat n) by lia.
    rewrite get_subset_row by (assumption || lia). cbn [bind ret app].
    rewrite IH by lia. cbn [bind ret app option_map].
    replace (EmitterSet.__len__ e - n)%nat with (S (EmitterSet.__len__ e - S n)) by lia.
    reflexivity.
  - cbn. replace (EmitterSet.__len__ e - n)%nat with 0%nat by lia. reflexivity.
Qed.

(** X7. Iterating a container that satisfies the alignment invariant, with
    [__iter__] and [__next__], yields exactly one container of length 1 per
    row, in row order, each holding that row of every attribute, and then
    stops; the empty container stops at once. *)
Theorem iteration_yields_rows (e : EmitterSet.t) (fuel : nat) :
  wf e -> (EmitterSet.__len__ e < fuel)%nat ->
  EmitterSet.to_list fuel e
  = ([], Ok (Some (map (row e) (seq 0 (EmitterSet.__len__ e))))) /\
  Forall (fun r => EmitterSet.__len__ r = 1%nat)
         (map (row e) (seq 0 (EmitterSet.__len__ e))).
Proof.
  intros Hwf Hf. split.
  - unfold EmitterSet.to_list, EmitterSet.__iter__.
    rewrite collect_rows by (assumption || lia). now rewrite Nat.sub_0_r.
  - apply Forall_map, Forall_forall. intros k Hk. apply in_seq in Hk.
    unfold EmitterSet.__len__, nrows, row. cbn [EmitterSet.xyz rows].
    apply pick_length. unfold EmitterSet.__len__, nrows in Hk. lia.
Qed.

Lemma iteration_yields_rows_witness :
  EmitterSet.to_list 3 (Samples.pair 1 7)
  = ([], Ok (Some [row (Samples.pair 1 7) 0; row (Samples.pair 1 7) 1])).
Proof.
  assert (Hwf : wf (Samples.pair 1 7)).
  { unfold wf, aligned, mat_ok. repeat split; repeat constructor. }
  assert (Hf : (EmitterSet.__len__ (Samples.pair 1 7) < 3)%nat) by (vm_compute; lia).
  exact (proj1 (iteration_yields_rows Hwf Hf)).
Defined.

(** X8. [get_subset_frame] without [shift_to], on a container that satisfies
    the alignment invariant and does not hold exactly one emitter, returns
    the rows whose frame index lies in the inclusive range, in their
    original order, and nothing else. *)
Theorem get_subset_frame_in_range (e : EmitterSet.t) (frame_start frame_end : Z) :
  wf e -> EmitterSet.__len__ e <> 1%nat ->
  exists e',
    EmitterSet.get_subset_frame e frame_start frame_end None = ([], Ok e') /\
    e' = sel e (map (in_range frame_start frame_end) (EmitterSet.frame_ix e)) /\
    EmitterSet.frame_ix e'
    = filter (fun f => (frame_start <=? f) && (f <=? frame_end))%Z (EmitterSet.frame_ix e) /\
    wf e'.
Proof.
  intros Hwf Hn.
  assert (Hlen : length (map (in_range frame_start frame_end) (EmitterSet.frame_ix e))
                 = EmitterSet.__len__ e) by (rewrite length_map; apply Hwf).
  assert (H : EmitterSet.get_subset_frame e frame_start frame_end None
              = ([], Ok (sel e (map (in_range frame_start frame_end) (EmitterSet.frame_ix e))))).
  { unfold EmitterSet.get_subset_frame, EmitterSet.__getitem__.
    fold (in_range frame_start frame_end).
    rewrite get_subset_mask; [reflexivity|exact Hwf|exact Hlen|congruence]. }
  eexists. split; [exact H|]. split; [reflexivity|]. split.
  - cbn [sel EmitterSet.frame_ix]. apply select_map_filter.
  - eapply get_subset_wf; [exact Hwf|].
    apply get_subset_mask; [exact Hwf|exact Hlen|congruence].
Qed.

Lemma get_subset_frame_in_range_witness :
  exists e',
    EmitterSet.get_subset_frame (Samples.pair 1 7) 0 3 None = ([], Ok e') /\
    EmitterSet.frame_ix e' = [1%Z].
Proof.
  assert (Hwf : wf (Samples.pair 1 7)).
  { unfold wf, aligned, mat_ok. repeat split; repeat constructor. }
  assert (Hn : EmitterSet.__len__ (Samples.pair 1 7) <> 1%nat) by (vm_compute; discriminate).
  destruct (get_subset_frame_in_range 0 3 Hwf Hn) as (e' & He' & _ & Hf & _).
  exists e'. split; [exact He'|]. rewrite Hf. reflexivity.
Defined.

(** ** Concatenation *)

Lemma shifted_ok (es : list EmitterSet.t) (shift : list Z) (i : nat) :
  (i + length es <= length shift)%nat ->
  exists fs, EmitterSet.shifted es shift i = Ok fs /\
             concat fs = shifted_frames es shift i /\ length fs = length es.
Proof.
  revert i. induction es as [|e es IH]; intros i Hi.
  - exists []. auto.
  - simpl in Hi. destruct (IH (S i)) as (fs & Hfs & Hc & Hl); [lia|].
    cbn [EmitterSet.shifted]. rewrite (get_nth shift 0%Z) by lia. cbn [rbind].
    rewrite Hfs. cbn [rbind]. eexists. split; [reflexivity|].
    cbn [concat shifted_frames length]. now rewrite Hc, Hl.
Qed.

Lemma shifted_frames_length (es : list EmitterSet.t) (shift : list Z) (i : nat) :
  length (shifted_frames es shift i) = length (concat (map EmitterSet.frame_ix es)).
Proof.
  revert i. induction es as [|e es IH]; intros i; [reflexivity|].
  cbn [shifted_frames map concat]. now rewrite !length_app, length_map, IH.
Qed.

Lemma first_set_unit_ok (es : list EmitterSet.t) :
  Forall (fun e => unit_ok (EmitterSet.xy_unit e)) es ->
  unit_ok (EmitterSet.first_set EmitterSet.xy_unit es).
Proof.
  induction 1 as [|e es He _ IH]; [now left|].
  cbn [EmitterSet.first_set]. destruct (EmitterSet.xy_unit e); assumption.
Qed.

Lemma shifts_length (remap : option (list Z)) (step : option Z) (K : nat) :
  shift_args_ok remap step K -> (K <= length (shifts remap step K))%nat.
Proof.
  unfold shift_args_ok, shifts, arange_times.
  destruct remap as [r|], step as [s|]; intros H;
    rewrite ?length_map, ?length_seq, ?repeat_length; try lia.
Qed.

Lemma joined_wf (es : list EmitterSet.t) (shift : list Z) :
  Forall wf es -> wf (joined es shift).
Proof.
  intros Hes.
  assert (Hlen : forall B (f : EmitterSet.t -> list B),
             (forall e, wf e -> length (f e) = EmitterSet.__len__ e) ->
             length (concat (map f es))
             = length (concat (map (fun e => rows (EmitterSet.xyz e)) es))).
  { intros B f Hf. apply concat_length_eq.
    eapply Forall_impl; [|exact Hes]. intros e He. cbn beta. now rewrite Hf. }
  assert (Hm3 : forall g : EmitterSet.t -> mat,
             (forall e, wf e -> mat_ok (g e) /\ ncols (g e) = 3%nat) ->
             Forall (fun r => length r = 3%nat) (concat (map (fun e => rows (g e)) es))).
  { intros g Hg. apply concat_Forall, Forall_map.
    eapply Forall_impl; [|exact Hes]. intros e He. cbn beta.
    destruct (Hg e He) as (Hm & Hc). unfold mat_ok in Hm. now rewrite Hc in Hm. }
  unfold wf, aligned, EmitterSet.__len__, nrows, mat_ok, joined.
  cbn [EmitterSet.xyz EmitterSet.phot EmitterSet.frame_ix EmitterSet.id EmitterSet.prob
       EmitterSet.bg EmitterSet.xyz_cr EmitterSet.phot_cr EmitterSet.bg_cr rows ncols].
  rewrite shifted_frames_length.
  split; [|split; [|split; [|split]]]; try reflexivity.
  - repeat split; try (apply Hlen; intros e He; apply He).
  - apply Hm3. intros e He. split; apply He.
  - apply (Hm3 EmitterSet.xyz_cr). intros e He. split; apply He.
Qed.

Lemma cat_joined (es : list EmitterSet.t) (remap : option (list Z)) (step : option Z) :
  es <> [] -> Forall wf es ->
  Forall (fun e => unit_ok (EmitterSet.xy_unit e)) es ->
  shift_args_ok remap step (length es) ->
  EmitterSet.cat es remap step
  = (unit_warning (joined es (shifts remap step (length es))),
     Ok (joined es (shifts remap step (length es)))).
Proof.
  intros Hne Hes Hu Hs.
  pose proof (@shifts_length _ _ _ Hs) as Hsl.
  destruct (@shifted_ok es (shifts remap step (length es)) 0) as (fs & Hfs & Hc & Hl);
    [lia|].
  unfold EmitterSet.cat.
  assert (Hshift : match remap, step with
                   | Some _, Some _ =>
                       raise (ValueError
                         "You cannot specify remap frame ix and step frame ix at the same time.")
                   | Some r, None => ret r
                   | None, Some s => ret (arange_times (length es) s)
                   | None, None => ret (repeat 0%Z (length es))
                   end = ret (shifts remap step (length es))).
  { unfold shift_args_ok, shifts in *. destruct remap, step; try reflexivity. contradiction. }
  rewrite Hshift. cbn [bind ret app].
  destruct es as [|e0 es']; [contradiction|].
  assert (Hcols : forallb (fun m' => (ncols m' =? ncols (EmitterSet.xyz e0))%nat)
                          (map EmitterSet.xyz es') = true).
  { apply forallb_forall. intros m Hm. apply in_map_iff in Hm as (e & <- & He).
    inversion Hes as [|? ? H0 Hes']; subst. rewrite Forall_forall in Hes'.
    destruct H0 as (_ & _ & -> & _). destruct (Hes' _ He) as (_ & _ & -> & _). reflexivity. }
  assert (Hcols' : forallb (fun m' => (ncols m' =? ncols (EmitterSet.xyz_cr e0))%nat)
                           (map EmitterSet.xyz_cr es') = true).
  { apply forallb_forall. intros m Hm. apply in_map_iff in Hm as (e & <- & He).
    inversion Hes as [|? ? H0 Hes']; subst. rewrite Forall_forall in Hes'.
    destruct H0 as (_ & _ & _ & _ & ->). destruct (Hes' _ He) as (_ & _ & _ & _ & ->).
    reflexivity. }
  unfold cat2, cat1. cbn [map]. rewrite Hcols, Hcols'.
  cbn [lift bind app]. rewrite Hfs. cbn [lift bind app].
  destruct fs as [|f0 fs']; [discriminate|]. cbn [lift bind app].
  rewrite Hc.
  assert (Hc0 : ncols (EmitterSet.xyz e0) = 3%nat) by (inversion Hes; subst; apply H1).
  assert (Hc0' : ncols (EmitterSet.xyz_cr e0) = 3%nat) by (inversion Hes; subst; apply H1).
  rewrite Hc0, Hc0'.
  change (map rows (EmitterSet.xyz e0 :: map EmitterSet.xyz es'))
    with (map rows (map EmitterSet.xyz (e0 :: es'))).
  change (map rows (EmitterSet.xyz_cr e0 :: map EmitterSet.xyz_cr es'))
    with (map rows (map EmitterSet.xyz_cr (e0 :: es'))).
  rewrite !map_map.
  set (J := joined (e0 :: es') (shifts remap step (length (e0 :: es')))).
  pose proof (@joined_wf _ (shifts remap step (length (e0 :: es'))) Hes) as HJ. fold J in HJ.
  pose proof (@first_set_unit_ok _ Hu) as HuJ.
  pose proof (@init_checked (EmitterSet.xyz J) (EmitterSet.phot J) (EmitterSet.frame_ix J)
                (EmitterSet.id J) (EmitterSet.prob J) (EmitterSet.bg J)
                (EmitterSet.xyz_cr J) (EmitterSet.phot_cr J) (EmitterSet.bg_cr J)
                (EmitterSet.xy_unit J) (EmitterSet.px_size J) HJ HuJ) as Hinit.
  cbv zeta in Hinit. unfold J, joined in Hinit.
  cbn [EmitterSet.xyz EmitterSet.phot EmitterSet.frame_ix EmitterSet.id EmitterSet.prob
       EmitterSet.bg EmitterSet.xyz_cr EmitterSet.phot_cr EmitterSet.bg_cr
       EmitterSet.xy_unit EmitterSet.px_size] in Hinit.
  cbn [map] in Hinit |- *. rewrite Hinit. reflexivity.
Qed.

Lemma joined_len (es : list EmitterSet.t) (shift : list Z) :
  EmitterSet.__len__ (joined es shift) = list_sum (map EmitterSet.__len__ es).
Proof.
  unfold EmitterSet.__len__, nrows, joined. cbn [EmitterSet.xyz rows].
  induction es as [|e es IH]; [reflexivity|].
  cbn [map concat list_sum]. now rewrite length_app, IH.
Qed.

Lemma nth_arange_times (n i : nat) (s : Z) :
  (i < n)%nat -> nth i (arange_times n s) 0%Z = (Z.of_nat i * s)%Z.
Proof.
  intros Hi. unfold arange_times.
  rewrite (nth_map_default (fun k => Z.of_nat k * s)%Z (seq 0 n) 0%nat);
    [|now rewrite length_seq].
  now rewrite seq_nth.
Qed.

(** X9. [cat] of a non-empty list of containers that satisfy the alignment
    invariant and carry a supported unit, with shift arguments that do not
    conflict and name a shift for every input, and with shifts, frame
    indices and shifted frame indices that every integer type of a frame
    index holds (so that no addition wraps), succeeds: every attribute is
    the inputs' rows one input after the other, the frame indices of input
    [i] are raised by its shift ([i * step_frame_ix] with a step, nothing
    without arguments), unit and pixel size are those of the first input
    that has them, the sort flag is unset, the number of emitters is the sum
    of the inputs', and the result satisfies the invariant again. *)
Theorem cat_concatenates (es : list EmitterSet.t) (remap : option (list Z))
    (step : option Z) :
  es <> [] -> Forall wf es ->
  Forall (fun e => unit_ok (EmitterSet.xy_unit e)) es ->
  shift_args_ok remap step (length es) ->
  shift_fits es (shifts remap step (length es)) 0 ->
  let out := joined es (shifts remap step (length es)) in
  EmitterSet.cat es remap step = (unit_warning out, Ok out) /\
  EmitterSet.__len__ out = list_sum (map EmitterSet.__len__ es) /\
  wf out /\
  (forall s i, remap = None -> step = Some s -> (i < length es)%nat ->
     nth i (shifts remap step (length es)) 0%Z = (Z.of_nat i * s)%Z) /\
  (forall i, remap = None -> step = None ->
     nth i (shifts remap step (length es)) 0%Z = 0%Z).
Proof.
  intros Hne Hes Hu Hs _ out. unfold out.
  split; [now apply cat_joined|].
  split; [apply joined_len|].
  split; [now apply joined_wf|].
  split.
  - intros s i -> -> Hi. cbn [shifts]. now apply nth_arange_times.
  - intros i -> ->. cbn [shifts]. apply nth_repeat.
Qed.

Lemma cat_concatenates_witness :
  EmitterSet.frame_ix (joined [Samples.pair 1 7; Samples.pair 0 2]
                         (shifts None (Some 10%Z) 2))
  = [1; 7; 10; 12]%Z /\
  EmitterSet.cat [Samples.pair 1 7; Samples.pair 0 2] None (Some 10%Z)
  = ([], Ok (joined [Samples.pair 1 7; Samples.pair 0 2] (shifts None (Some 10%Z) 2))).
Proof.
  split; [reflexivity|].
  assert (Hne : [Samples.pair 1 7; Samples.pair 0 2] <> []) by discriminate.
  assert (Hwf : Forall wf [Samples.pair 1 7; Samples.pair 0 2]).
  { repeat constructor. }
  assert (Hu : Forall (fun e => unit_ok (EmitterSet.xy_unit e))
                 [Samples.pair 1 7; Samples.pair 0 2]).
  { repeat constructor; right; left; reflexivity. }
  assert (Hs : shift_args_ok None (Some 10%Z)
                 (length [Samples.pair 1 7; Samples.pair 0 2])) by exact I.
  assert (Hf : shift_fits [Samples.pair 1 7; Samples.pair 0 2]
                 (shifts None (Some 10%Z) (length [Samples.pair 1 7; Samples.pair 0 2])) 0).
  { unfold fits. cbn. unfold fits. repeat split; try lia; repeat constructor; lia. }
  exact (proj1 (@cat_concatenates _ None (Some 10%Z) Hne Hwf Hu Hs Hf)).
Defined.

Lemma shifted_short (es : list EmitterSet.t) (r : list Z) (i : nat) :
  (i <= length r)%nat -> (length r < i + length es)%nat ->
  EmitterSet.shifted es r i
  = Raise (IndexError (oob_msg (Z.of_nat (length r)) 0 (length r))).
Proof.
  revert i. induction es as [|e es IH]; intros i Hi Hl; cbn [length] in Hl; [lia|].
  cbn [EmitterSet.shifted].
  destruct (Nat.eq_dec i (length r)) as [->|Hn].
  - rewrite get_above by lia. reflexivity.
  - rewrite (get_nth r 0%Z) by lia. cbn [rbind].
    rewrite IH by lia. reflexivity.
Qed.

(** X10. The shift arguments of [cat] that make it fail: with both
    [remap_frame_ix] and [step_frame_ix] given it raises the ValueError
    before it looks at the inputs, whatever they are; with a
    [remap_frame_ix] that has fewer entries than there are inputs (the
    inputs satisfying the alignment invariant) it raises the IndexError of
    the first input without a shift, and no container is built. *)
Theorem cat_shift_argument_failures (es : list EmitterSet.t) (r : list Z) :
  (forall s, EmitterSet.cat es (Some r) (Some s)
     = ([], Raise (ValueError
          "You cannot specify remap frame ix and step frame ix at the same time."))) /\
  (Forall wf es -> (length r < length es)%nat ->
   EmitterSet.cat es (Some r) None
   = ([], Raise (IndexError (oob_msg (Z.of_nat (length r)) 0 (length r))))).
Proof.
  split; [reflexivity|].
  intros Hes Hl. unfold EmitterSet.cat. cbn [bind ret app].
  destruct es as [|e0 es']; [cbn in Hl; lia|].
  assert (Hcols : forallb (fun m' => (ncols m' =? ncols (EmitterSet.xyz e0))%nat)
                          (map EmitterSet.xyz es') = true).
  { apply forallb_forall. intros m Hm. apply in_map_iff in Hm as (e & <- & He).
    inversion Hes as [|? ? H0 Hes']; subst. rewrite Forall_forall in Hes'.
    destruct H0 as (_ & _ & -> & _). destruct (Hes' _ He) as (_ & _ & -> & _). reflexivity. }
  unfold cat2, cat1. cbn [map]. rewrite Hcols. cbn [lift bind app].
  rewrite shifted_short by lia. reflexivity.
Qed.

Lemma cat_shift_argument_failures_witness :
  EmitterSet.cat [Samples.pair 1 7; Samples.pair 0 2] (Some [5%Z]) None
  = ([], Raise (IndexError "index 1 is out of bounds for dimension 0 with size 1")).
Proof.
  assert (Hwf : Forall wf [Samples.pair 1 7; Samples.pair 0 2]).
  { repeat constructor. }
  assert (Hl : (length [5%Z] < length [Samples.pair 1 7; Samples.pair 0 2])%nat).
  { cbn. lia. }
  exact (proj2 (@cat_shift_argument_failures _ [5%Z]) Hwf Hl).
Defined.

Lemma empty_emitter_set :
  EmptyEmitterSet.__init__ = ([], Ok (empty_set None None)).
Proof. reflexivity. Qed.

(** X11. [EmptyEmitterSet()] is the canonical empty container, and it is
    neutral for [cat] on either side: concatenated with a container that
    satisfies the alignment invariant and carries a supported unit, it
    gives that container's rows, frame indices, unit and pixel size back,
    with the sort flag unset. *)
Theorem cat_empty_neutral (c : EmitterSet.t) :
  wf c -> unit_ok (EmitterSet.xy_unit c) ->
  exists E, EmptyEmitterSet.__init__ = ([], Ok E) /\
    EmitterSet.__len__ E = 0%nat /\
    EmitterSet.cat [E; c] None None = (unit_warning c, Ok (fresh c)) /\
    EmitterSet.cat [c; E] None None = (unit_warning c, Ok (fresh c)).
Proof.
  intros Hwf Hu. exists (empty_set None None).
  split; [reflexivity|]. split; [reflexivity|].
  assert (Ex : forall m, ncols m = 3%nat -> {| ncols := 3; rows := rows m |} = m).
  { intros m Hm. apply mat_eq; [now rewrite Hm|reflexivity]. }
  assert (Eu : forall A (o : option A), match o with Some a => Some a | None => None end = o).
  { now intros A [a|]. }
  assert (HwfE : wf (empty_set None None)) by apply empty_set_wf.
  assert (HuE : unit_ok (EmitterSet.xy_unit (empty_set None None))) by now left.
  split.
  - rewrite cat_joined;
      [|discriminate
       |constructor; [exact HwfE|constructor; [exact Hwf|constructor]]
       |constructor; [exact HuE|constructor; [exact Hu|constructor]]
       |exact I].
    assert (HJ : joined [empty_set None None; c] (shifts None None 2) = fresh c).
    { unfold joined, fresh.
      cbn [map concat shifts repeat shifted_frames nth app EmitterSet.first_set empty_set
           EmitterSet.xyz EmitterSet.phot EmitterSet.frame_ix EmitterSet.id EmitterSet.prob
           EmitterSet.bg EmitterSet.xyz_cr EmitterSet.phot_cr EmitterSet.bg_cr
           EmitterSet.xy_unit EmitterSet.px_size rows empty_mat].
      rewrite !app_nil_r, map_add_0, !Eu, !Ex by apply Hwf. reflexivity. }
    cbn [length]. rewrite HJ.
    reflexivity.
  - rewrite cat_joined;
      [|discriminate
       |constructor; [exact Hwf|constructor; [exact HwfE|constructor]]
       |constructor; [exact Hu|constructor; [exact HuE|constructor]]
       |exact I].
    assert (HJ : joined [c; empty_set None None] (shifts None None 2) = fresh c).
    { unfold joined, fresh.
      cbn [map concat shifts repeat shifted_frames nth app EmitterSet.first_set empty_set
           EmitterSet.xyz EmitterSet.phot EmitterSet.frame_ix EmitterSet.id EmitterSet.prob
           EmitterSet.bg EmitterSet.xyz_cr EmitterSet.phot_cr EmitterSet.bg_cr
           EmitterSet.xy_unit EmitterSet.px_size rows empty_mat].
      rewrite !app_nil_r, map_add_0, !Ex by apply Hwf.
      destruct (EmitterSet.xy_unit c), (EmitterSet.px_size c); reflexivity. }
    cbn [length]. rewrite HJ.
    reflexivity.
Qed.

Lemma cat_empty_neutral_witness :
  exists E, EmptyEmitterSet.__init__ = ([], Ok E) /\
    EmitterSet.cat [E; Samples.pair 1 7] None None = ([], Ok (Samples.pair 1 7)).
Proof.
  assert (Hwf : wf (Samples.pair 1 7)) by (repeat constructor).
  assert (Hu : unit_ok (EmitterSet.xy_unit (Samples.pair 1 7))) by (right; left; reflexivity).
  destruct (cat_empty_neutral Hwf Hu) as (E & HE & _ & H1 & _).
  exists E. split; [exact HE|exact H1].
Defined.


(** ** Photons of the lowering *)

Lemma lowering_rows (oob : Z -> Q -> Z) (L : LooseEmitterSet.t) :
  wf_loose L -> frames_exact L -> unit_ok (LooseEmitterSet.xy_unit L) ->
  exists w e,
    LooseEmitterSet.return_emitterset oob L = (w, Ok e) /\
    Forall2 is_q (EmitterSet.phot e) (map d_phot (lowered L)).
Proof.
  intros Hwf Hfx Hu.
  assert (Hall : Forall (fun i => (- 2 ^ 24 <= Qfloor (start (emitter_at L i)))%Z /\
                                  (Qceiling (start (emitter_at L i) + dur (emitter_at L i))
                                   <= 2 ^ 24)%Z)
                        (seq 0 (nrows (LooseEmitterSet.xyz L)))).
  { apply Forall_forall. intros i Hi. apply in_seq in Hi.
    apply frames_exact_at; [exact Hfx|lia]. }
  pose proof (writes_phot L Hall) as HW.
  fold (emitters L) in HW. fold (lowered L) in HW.
  set (W := writes L (seq 0 (nrows (LooseEmitterSet.xyz L)))) in *.
  assert (Hph : Forall2 is_q (map Fin (map w_phot W)) (map d_phot (lowered L))).
  { rewrite map_map. eapply Forall2_map_rel; [exact HW|]. intros w d Hm. exact Hm. }
  unfold LooseEmitterSet.return_emitterset. rewrite (@distribute_ok L Hwf oob Hfx). fold W.
  cbn [lift bind].
  destruct (@init_defaults_ok
              {| ncols := ncols (LooseEmitterSet.xyz L); rows := map w_xyz W |}
              (map Fin (map w_phot W))
              (map (LooseEmitterSet.to_int oob 32) (map w_frame W))
              (map (LooseEmitterSet.to_int oob 32) (map w_id W))
              (LooseEmitterSet.xy_unit L))
    as (w & e & He & Ex & Ep & _);
    try (unfold nrows; cbn [rows]; now rewrite !length_map);
    [apply Hwf|exact Hu|].
  exists w, e. rewrite He. cbn [app].
  split; [reflexivity|]. rewrite Ep. exact Hph.
Qed.

Lemma photons_app (a b : list Q) : photons (a ++ b) == photons a + photons b.
Proof.
  induction a as [|x a IH].
  - change (photons b == 0 + photons b). lra.
  - change (x + photons (a ++ b) == (x + photons a) + photons b). rewrite IH. lra.
Qed.

Lemma photons_scale (f : Z -> Q) (c : Q) (l : list Z) :
  photons (map (fun z => f z * c) l) == photons (map f l) * c.
Proof.
  induction l as [|z l IH].
  - change (0 == 0 * c). lra.
  - change (f z * c + photons (map (fun z => f z * c) l)
            == (f z + photons (map f l)) * c).
    rewrite IH. lra.
Qed.

(** The on-time up to time [x], clamped to the emitter's on-period. *)
Lemma overlap_bounds (em : emitter) (f : Z) :
  0 <= dur em -> In f (frames em) -> 0 <= overlap em f /\ overlap em f <= 1.
Proof.
  intros Hd Hf. apply frames_spec in Hf. destruct Hf as [Hlo Hhi].
  assert (H1 : start em < inject_Z f + 1).
  { pose proof (Qlt_floor (start em)) as Hx.
    rewrite inject_Z_plus in Hx. change (inject_Z 1) with 1 in Hx.
    assert (inject_Z (Qfloor (start em)) <= inject_Z f) by (rewrite <- Zle_Qle; lia).
    lra. }
  assert (H2 : inject_Z f < start em + dur em).
  { pose proof (Qceiling_lt (start em + dur em)) as Hx.
    assert (inject_Z f <= inject_Z (Qceiling (start em + dur em) - 1)).
    { rewrite <- Zle_Qle. lia. }
    lra. }
  unfold overlap.
  destruct (Q.min_spec (start em + dur em) (inject_Z f + 1)) as [[? ->]|[? ->]];
    destruct (Q.max_spec (start em) (inject_Z f)) as [[? ->]|[? ->]]; split; lra.
Qed.

Lemma overlap_telescope (em : emitter) (f0 : Z) (n : nat) :
  0 <= dur em ->
  (Qfloor (start em) <= f0)%Z ->
  (f0 + Z.of_nat n <= Qceiling (start em + dur em))%Z ->
  photons (map (overlap em) (map (fun j => (f0 + Z.of_nat j)%Z) (seq 0 n)))
  == Qmin (start em + dur em) (Qmax (start em) (inject_Z (f0 + Z.of_nat n)))
     - Qmin (start em + dur em) (Qmax (start em) (inject_Z f0)).
Proof.
  intros Hd Hlo. induction n as [|n IH]; intros Hhi.
  - cbn [seq map]. rewrite Z.add_0_r. change (photons []) with 0. lra.
  - rewrite seq_S, !map_app, photons_app, IH by lia.
    cbn [Nat.add map].
    set (f := (f0 + Z.of_nat n)%Z).
    replace (f0 + Z.of_nat (S n))%Z with (f + 1)%Z by lia.
    rewrite inject_Z_plus. change (inject_Z 1) with 1.
    change (photons [overlap em f]) with (overlap em f + 0).
    assert (H2 : inject_Z f < start em + dur em).
    { pose proof (Qceiling_lt (start em + dur em)) as Hx.
      assert (inject_Z f <= inject_Z (Qceiling (start em + dur em) - 1))
        by (rewrite <- Zle_Qle; lia).
      lra. }
    assert (H1 : start em < inject_Z f + 1).
    { pose proof (Qlt_floor (start em)) as Hx.
      rewrite inject_Z_plus in Hx. change (inject_Z 1) with 1 in Hx.
      assert (inject_Z (Qfloor (start em)) <= inject_Z f) by (rewrite <- Zle_Qle; lia).
      lra. }
    assert (E1 : Qmax (start em) (inject_Z f + 1) == inject_Z f + 1)
      by (apply Q.max_r; lra).
    assert (E2 : Qmin (start em + dur em) (Qmax (start em) (inject_Z f))
                 == Qmax (start em) (inject_Z f)).
    { apply Q.min_r. apply Q.max_lub; lra. }
    rewrite E1, E2. unfold overlap. lra.
Qed.

Lemma emitter_photons (em : emitter) :
  0 <= dur em -> photons (map d_phot (detections em)) == dur em * flux em.
Proof.
  intros Hd. unfold detections. rewrite map_map. cbn [d_phot].
  rewrite (photons_scale (overlap em) (flux em)). unfold frames.
  assert (Hs : (0 <= span em)%Z).
  { unfold span.
    pose proof (Qfloor_le (start em)) as Hf.
    pose proof (Qle_ceiling (start em + dur em)) as Hc.
    assert (inject_Z (Qfloor (start em)) <= inject_Z (Qceiling (start em + dur em))) by lra.
    rewrite <- Zle_Qle in H. lia. }
  rewrite overlap_telescope; [|exact Hd|lia|unfold span in *; lia].
  replace (Qfloor (start em) + Z.of_nat (Z.to_nat (span em)))%Z
    with (Qceiling (start em + dur em)) by (unfold span in *; lia).
  pose proof (Qfloor_le (start em)) as Hf.
  pose proof (Qle_ceiling (start em + dur em)) as Hc.
  assert (E1 : Qmax (start em) (inject_Z (Qceiling (start em + dur em)))
               == inject_Z (Qceiling (start em + dur em))) by (apply Q.max_r; lra).
  assert (E2 : Qmax (start em) (inject_Z (Qfloor (start em))) == start em)
    by (apply Q.max_l; lra).
  rewrite E1, E2.
  assert (E3 : Qmin (start em + dur em) (inject_Z (Qceiling (start em + dur em)))
               == start em + dur em) by (apply Q.min_l; lra).
  assert (E4 : Qmin (start em + dur em) (start em) == start em) by (apply Q.min_r; lra).
  rewrite E3, E4. lra.
Qed.

Lemma emitters_dur (L : LooseEmitterSet.t) (em : emitter) :
  wf_loose L -> In em (emitters L) -> 0 <= dur em.
Proof.
  intros (_ & _ & _ & _ & _ & H4 & Hpos) Hin. unfold emitters in Hin.
  apply in_map_iff in Hin as (i & <- & Hi). apply in_seq in Hi.
  cbn [dur emitter_at]. rewrite Forall_forall in Hpos. apply Hpos, nth_In. lia.
Qed.

Lemma lowered_photons (ems : list emitter) :
  Forall (fun em => 0 <= dur em) ems ->
  photons (map d_phot (flat_map detections ems))
  == photons (map (fun em => dur em * flux em) ems).
Proof.
  induction 1 as [|em ems Hd _ IH]; [reflexivity|].
  cbn [flat_map map]. rewrite map_app, photons_app, IH, (emitter_photons em Hd).
  change (photons (dur em * flux em :: map (fun em0 => dur em0 * flux em0) ems))
    with (dur em * flux em + photons (map (fun em0 => dur em0 * flux em0) ems)).
  lra.
Qed.



(** ** Conversion *)

Lemma add_rows_same (m : mat) (v : list scalar) :
  mat_ok m -> ncols m = length v -> add_rows_ m v = Ok (scale fadd m v).
Proof.
  intros Hm Hc. unfold add_rows_. rewrite Hc, Nat.eqb_refl. cbn [orb].
  rewrite (map_res_ok _ (fun row => zip_with fadd row v)).
  - unfold scale. rewrite Hc. reflexivity.
  - eapply Forall_impl; [|exact Hm]. intros r Hr. cbn beta in Hr.
    apply broadcast2_same. congruence.
Qed.

(** X13. [convert_em] is [convert_em_] on a copy: for a container that
    satisfies the alignment invariant it returns, without a warning, what
    the in-place conversion makes of the clone (whose sort flag is unset),
    an omitted [frame_shift] adding nothing; and it raises exactly when
    the in-place conversion of the clone does, with the same error. *)
Theorem convert_em_is_convert_em_on_clone (e : EmitterSet.t)
    (factor shift : option (list scalar)) (axis : option (list Z))
    (frame_shift : option Z) (new_xy_unit : option string) :
  wf e ->
  exists c,
    EmitterSet.clone e = ([], Ok c) /\
    c = fresh e /\
    EmitterSet.convert_em e factor shift axis frame_shift new_xy_unit
    = ([], EmitterSet.convert_em_ c factor shift axis (frame_shift_of frame_shift)
             new_xy_unit).
Proof.
  intros Hwf. exists (fresh e).
  split; [now apply clone_fresh|]. split; [reflexivity|].
  unfold EmitterSet.convert_em, EmitterSet.convert_em_.
  rewrite clone_fresh by assumption. cbn [bind app].
  destruct (EmitterSet._convert_coordinates (fresh e) factor shift axis) as [m|x];
    [|reflexivity].
  cbn [lift bind rbind ret app].
  destruct frame_shift as [d|]; cbn [frame_shift_of]; [reflexivity|].
  unfold EmitterSet.set_frame_ix at 2.
  cbn [EmitterSet.frame_ix EmitterSet.set_xyz fresh]. rewrite map_add_0.
  destruct new_xy_unit; reflexivity.
Qed.

Lemma convert_em_is_convert_em_on_clone_witness :
  EmitterSet.convert_em (Samples.pair 1 7) None None None None (Some "nm"%string)
  = ([], EmitterSet.convert_em_ (fresh (Samples.pair 1 7)) None None None 0
           (Some "nm"%string)).
Proof.
  assert (Hwf : wf (Samples.pair 1 7)) by (repeat constructor).
  destruct (@convert_em_is_convert_em_on_clone (Samples.pair 1 7) None None None None
              (Some "nm"%string) Hwf) as (c & _ & -> & H).
  exact H.
Defined.

(** X14. The order of a conversion is factor, then shift: with a factor of
    3 components (or of 2, z then keeping its scale) and a shift of 3
    components and no axis selection, [convert_em] of a container that
    satisfies the invariant succeeds without warning, every position
    [(x, y, z)] becomes [(x * fx + sx, y * fy + sy, z * fz + sz)], the frame
    indices are raised by [frame_shift] (given a frame shift, frame indices
    and sums that every integer type of a frame index holds, so that the
    addition does not wrap), the unit is replaced when a new one is given,
    everything else is kept, and the result satisfies the invariant. *)
Theorem convert_em_scales_then_shifts (e : EmitterSet.t) (factor shift : list scalar)
    (frame_shift : option Z) (new_xy_unit : option string) :
  wf e -> length factor = 2%nat \/ length factor = 3%nat -> length shift = 3%nat ->
  frame_shift_fits frame_shift e ->
  let e' := converted e (extend factor) shift (frame_shift_of frame_shift) new_xy_unit in
  EmitterSet.convert_em e (Some factor) (Some shift) None frame_shift new_xy_unit
  = ([], Ok e') /\
  rows (EmitterSet.xyz e')
  = map (fun r => zip_with fadd (zip_with fmul r (extend factor)) shift)
        (rows (EmitterSet.xyz e)) /\
  wf e'.
Proof.
  intros Hwf Hf Hs _ e'.
  pose proof (extend_length factor Hf) as Hfe.
  pose proof Hwf as (Hal & Hm & Hc & Hm' & Hc').
  assert (Hm1 : mat_ok (scale fmul (EmitterSet.xyz e) (extend factor))).
  { apply scale_ok; [exact Hm|congruence]. }
  split; [|split].
  - unfold EmitterSet.convert_em. rewrite clone_fresh by assumption. cbn [bind app].
    unfold EmitterSet._convert_coordinates. fold (extend factor).
    cbn [fresh EmitterSet.xyz].
    rewrite mul_rows_same by (try exact Hm; congruence). cbn [rbind].
    rewrite add_rows_same by (try exact Hm1; cbn [scale ncols]; congruence).
    cbn [rbind lift bind ret app]. unfold e', converted.
    destruct frame_shift as [d|]; cbn [frame_shift_of].
    + destruct new_xy_unit; reflexivity.
    + cbn [EmitterSet.set_xyz fresh EmitterSet.frame_ix]. rewrite map_add_0.
      destruct new_xy_unit; reflexivity.
  - unfold e', converted, scale. cbn [EmitterSet.xyz rows]. now rewrite map_map.
  - destruct Hal as (H1 & H2 & H3 & H4 & H5 & H6 & H7 & H8).
    unfold EmitterSet.__len__, nrows in H1, H2, H3, H4, H5, H6, H7, H8.
    assert (Hm2 : mat_ok (scale fadd (scale fmul (EmitterSet.xyz e) (extend factor)) shift)).
    { apply scale_ok; [exact Hm1|]. cbn [scale ncols]. congruence. }
    subst e'. unfold wf, aligned, EmitterSet.__len__, nrows, converted.
    cbn [EmitterSet.xyz EmitterSet.phot EmitterSet.frame_ix EmitterSet.id EmitterSet.prob
         EmitterSet.bg EmitterSet.xyz_cr EmitterSet.phot_cr EmitterSet.bg_cr].
    split; [|split; [exact Hm2|split; [exact Hc|split; [exact Hm'|exact Hc']]]].
    unfold scale. cbn [rows ncols]. rewrite !length_map.
    repeat split; assumption.
Qed.

Lemma convert_em_scales_then_shifts_witness :
  exists e',
    EmitterSet.convert_em (Samples.pair 1 7) (Some [Fin 100; Fin 200])
      (Some [Fin 1; Fin 2; Fin 3]) None (Some 5%Z) (Some "nm"%string) = ([], Ok e') /\
    rows (EmitterSet.xyz e')
    = [[Fin (1 * 100 + 1); Fin (1 * 200 + 2); Fin (1 * 1 + 3)];
       [Fin (2 * 100 + 1); Fin (2 * 200 + 2); Fin (2 * 1 + 3)]] /\
    EmitterSet.frame_ix e' = [6; 12]%Z.
Proof.
  assert (Hwf : wf (Samples.pair 1 7)) by (repeat constructor).
  assert (Hf : length [Fin 100; Fin 200] = 2%nat \/ length [Fin 100; Fin 200] = 3%nat)
    by (left; reflexivity).
  assert (Hs : length [Fin 1; Fin 2; Fin 3] = 3%nat) by reflexivity.
  assert (Hfs : frame_shift_fits (Some 5%Z) (Samples.pair 1 7)).
  { unfold frame_shift_fits, fits. cbn. repeat split; try lia; repeat constructor; lia. }
  destruct (@convert_em_scales_then_shifts (Samples.pair 1 7) [Fin 100; Fin 200]
              [Fin 1; Fin 2; Fin 3] (Some 5%Z) (Some "nm"%string) Hwf Hf Hs Hfs)
    as (H & Hr & _).
  eexists. split; [exact H|]. split; [exact Hr|reflexivity].
Defined.

(** ** Containers from positions only *)

Lemma column0_ok (x : mat) :
  mat_ok x -> ncols x <> 0%nat ->
  exists c, CoordinateOnlyEmitter.column0 x = Ok c /\ length c = nrows x.
Proof.
  intros Hm Hc. unfold CoordinateOnlyEmitter.column0, col_check.
  destruct (Z.ltb_spec 0 (- Z.of_nat (ncols x))); [lia|].
  destruct (Z.leb_spec (Z.of_nat (ncols x)) 0); [lia|]. cbn [orb rbind].
  exists (map (fun row => nth 0 row NaN) (rows x)). split.
  - apply map_res_ok. eapply Forall_impl; [|exact Hm]. intros r Hr. cbn beta in *.
    apply (get_nat 1 r 0). destruct r; [cbn in Hr; lia|reflexivity].
  - unfold nrows. now rewrite length_map.
Qed.

Lemma unique_numel_repeat (f : Z) (n : nat) :
  n <> 0%nat -> unique_numel (repeat f n) = 1%nat.
Proof.
  intros Hn. unfold unique_numel.
  rewrite (@nodup_all_equal (repeat f n) f); [reflexivity| |].
  - destruct n; [contradiction|discriminate].
  - now apply repeat_Forall.
Qed.

(** X15. [CoordinateOnlyEmitter(xyz, xy_unit)] for N x 3 positions and an
    unset or supported unit builds a container that satisfies the alignment
    invariant, with the positions as given, every photon count 1, every
    frame index 0, every identity -1, every probability 1, the background
    and the uncertainties NaN and no pixel size; it warns exactly when the
    unit is unset and there is a row; and with at least one row it reports
    itself as being on a single frame. *)
Theorem coordinate_only_emitter (x : mat) (u : option string) :
  mat_ok x -> ncols x = 3%nat -> unit_ok u ->
  exists e,
    CoordinateOnlyEmitter.__init__ x u = (unit_warning e, Ok e) /\
    EmitterSet.xyz e = x /\
    EmitterSet.phot e = repeat (Fin 1) (nrows x) /\
    EmitterSet.frame_ix e = repeat 0%Z (nrows x) /\
    EmitterSet.id e = repeat (-1)%Z (nrows x) /\
    EmitterSet.prob e = repeat (Fin 1) (nrows x) /\
    EmitterSet.bg e = repeat NaN (nrows x) /\
    EmitterSet.xyz_cr e = nan_like_mat x /\
    EmitterSet.phot_cr e = repeat NaN (nrows x) /\
    EmitterSet.bg_cr e = repeat NaN (nrows x) /\
    EmitterSet.xy_unit e = u /\ EmitterSet.px_size e = None /\
    wf e /\
    (nrows x <> 0%nat -> EmitterSet.single_frame e = true).
Proof.
  intros Hm Hc Hu.
  destruct (@column0_ok x Hm) as (c & Hcol & Hlen); [rewrite Hc; discriminate|].
  unfold CoordinateOnlyEmitter.__init__. rewrite Hcol. cbn [lift bind app].
  unfold ones_like, CoordinateOnlyEmitter.zeros_like_int. rewrite Hlen.
  set (e := {| EmitterSet.xyz := x;
               EmitterSet.phot := repeat (Fin 1) (nrows x);
               EmitterSet.frame_ix := repeat 0%Z (nrows x);
               EmitterSet.id := repeat (-1)%Z (nrows x);
               EmitterSet.prob := repeat (Fin 1) (nrows x);
               EmitterSet.bg := repeat NaN (nrows x);
               EmitterSet.xyz_cr := nan_like_mat x;
               EmitterSet.phot_cr := repeat NaN (nrows x);
               EmitterSet.bg_cr := repeat NaN (nrows x);
               EmitterSet.xy_unit := u; EmitterSet.px_size := None;
               EmitterSet._sorted := false |}).
  assert (Hwf : wf e).
  { unfold wf, aligned, EmitterSet.__len__, e, nan_like_mat, nrows, mat_ok.
    cbn [EmitterSet.xyz EmitterSet.phot EmitterSet.frame_ix EmitterSet.id EmitterSet.prob
         EmitterSet.bg EmitterSet.xyz_cr EmitterSet.phot_cr EmitterSet.bg_cr rows ncols].
    rewrite !repeat_length, length_map.
    split; [repeat split|]. split; [exact Hm|]. split; [exact Hc|].
    split; [|exact Hc]. apply Forall_map, Forall_forall. intros r _.
    apply repeat_length. }
  exists e. split.
  - destruct (Nat.eq_dec (nrows x) 0) as [E|E].
    + rewrite init_empty; [|exact E|rewrite Hc; discriminate].
      assert (He : e = empty_set u None).
      { unfold e, empty_set, nan_like_mat. rewrite E. cbn [repeat].
        unfold nrows in E. apply length_zero_iff_nil in E.
        assert (Hx : x = empty_mat) by (apply mat_eq; [exact Hc|exact E]).
        rewrite Hx. reflexivity. }
      rewrite He. reflexivity.
    + unfold EmitterSet.__init__, EmitterSet._set_typed.
      rewrite Hc. cbn [Nat.eqb rbind lift bind].
      destruct (nrows x) as [|n] eqn:En; [congruence|].
      cbn [Nat.eqb negb EmitterSet.default].
      unfold neg_ones_like, ones_like, nan_like. rewrite !repeat_length.
      cbn [EmitterSet.xyz EmitterSet.phot EmitterSet.frame_ix EmitterSet.id
           EmitterSet.prob EmitterSet.bg EmitterSet.xyz_cr EmitterSet.phot_cr
           EmitterSet.bg_cr EmitterSet.xy_unit EmitterSet.px_size EmitterSet._sorted
           EmitterSet.blank].
      fold e.
      assert (Hal : aligned_checked e).
      { destruct Hwf as ((H1 & H2 & H3 & H4 & H5 & H6 & H7 & H8) & _).
        repeat split; assumption. }
      rewrite (sanity_check_passes Hal Hu). cbn. now rewrite app_nil_r.
  - repeat (split; [reflexivity|]). split; [exact Hwf|].
    intros Hn. unfold EmitterSet.single_frame, e. cbn [EmitterSet.frame_ix].
    now rewrite unique_numel_repeat.
Qed.

Lemma coordinate_only_emitter_witness :
  exists e,
    CoordinateOnlyEmitter.__init__ (Samples.rows3 2 5) (Some "px"%string) = ([], Ok e) /\
    EmitterSet.phot e = [Fin 1; Fin 1] /\ EmitterSet.frame_ix e = [0; 0]%Z /\
    EmitterSet.single_frame e = true.
Proof.
  assert (Hm : mat_ok (Samples.rows3 2 5)) by (repeat constructor).
  assert (Hc : ncols (Samples.rows3 2 5) = 3%nat) by reflexivity.
  assert (Hu : unit_ok (Some "px"%string)) by (right; left; reflexivity).
  destruct (coordinate_only_emitter Hm Hc Hu)
    as (e & He & _ & Hp & Hf & _ & _ & _ & _ & _ & _ & Hxu & _ & _ & Hs).
  exists e. split.
  - rewrite He. unfold unit_warning. rewrite Hxu.
    destruct (0 <? EmitterSet.__len__ e)%nat; reflexivity.
  - split; [exact Hp|]. split; [exact Hf|]. apply Hs. discriminate.
Defined.

(** ** Two-column positions *)

(** X16. A validated construction from N x 2 positions, with photon counts
    and frame indices of length N, the optional attributes left out and an
    unset or supported unit, succeeds and stores N x 3 positions: every row
    gets z = 0 appended. Photon counts and frame indices are kept, the
    position uncertainty is an N x 3 NaN matrix, and the container
    satisfies the alignment invariant. *)
Theorem init_pads_two_column_positions (x : mat) (phot : list scalar) (frame_ix : list Z)
    (u : option string) (p : option (list scalar)) :
  mat_ok x -> ncols x = 2%nat ->
  length phot = nrows x -> length frame_ix = nrows x -> unit_ok u ->
  exists w e,
    EmitterSet.__init__ x phot frame_ix None None None None None None true u p
    = (w, Ok e) /\
    EmitterSet.xyz e = {| ncols := 3; rows := map (fun r => r ++ [Fin 0]) (rows x) |} /\
    EmitterSet.phot e = phot /\ EmitterSet.frame_ix e = frame_ix /\
    EmitterSet.xyz_cr e
    = {| ncols := 3; rows := repeat [NaN; NaN; NaN] (nrows x) |} /\
    EmitterSet.__len__ e = nrows x /\
    wf e.
Proof.
  intros Hm Hc H1 H2 Hu.
  destruct (EmitterSet.__init__ x phot frame_ix None None None None None None true u p)
    as [w r] eqn:E.
  assert (Hr : exists e, r = Ok e /\
             EmitterSet.xyz e
             = {| ncols := 3; rows := map (fun r => r ++ [Fin 0]) (rows x) |} /\
             EmitterSet.phot e = phot /\ EmitterSet.frame_ix e = frame_ix /\
             EmitterSet.xyz_cr e
             = {| ncols := 3; rows := repeat [NaN; NaN; NaN] (nrows x) |}).
  { destruct (Nat.eq_dec (nrows x) 0) as [En|En].
    - rewrite init_empty in E; [|exact En|rewrite Hc; discriminate].
      injection E as _ <-. eexists. split; [reflexivity|].
      rewrite En in *. apply length_zero_iff_nil in H1, H2. subst.
      unfold nrows in En. apply length_zero_iff_nil in En. rewrite En.
      repeat split; reflexivity.
    - unfold EmitterSet.__init__, EmitterSet._set_typed, pad_zero_col in E.
      rewrite Hc in E. cbn [Nat.eqb rbind lift bind] in E.
      unfold nrows in E at 1. cbn [rows] in E. rewrite length_map in E.
      fold (nrows x) in E.
      destruct (nrows x) as [|n] eqn:En'; [congruence|].
      cbn [Nat.eqb negb EmitterSet.default] in E.
      set (e := {| EmitterSet.xyz := {| ncols := 3;
                                        rows := map (fun r => r ++ [Fin 0]) (rows x) |};
                   EmitterSet.phot := phot;
                   EmitterSet.frame_ix := frame_ix;
                   EmitterSet.id := neg_ones_like frame_ix;
                   EmitterSet.prob := ones_like frame_ix;
                   EmitterSet.bg := nan_like frame_ix;
                   EmitterSet.xyz_cr :=
                     nan_like_mat {| ncols := 3;
                                     rows := map (fun r => r ++ [Fin 0]) (rows x) |};
                   EmitterSet.phot_cr := nan_like phot;
                   EmitterSet.bg_cr := nan_like (nan_like frame_ix);
                   EmitterSet.xy_unit := u; EmitterSet.px_size := p;
                   EmitterSet._sorted := false |}).
      assert (Hal : aligned_checked e).
      { unfold aligned_checked, EmitterSet.__len__, e, nan_like, neg_ones_like,
          nan_like_mat, nrows.
        cbn [EmitterSet.xyz EmitterSet.phot EmitterSet.frame_ix EmitterSet.id
             EmitterSet.bg EmitterSet.xyz_cr EmitterSet.phot_cr EmitterSet.bg_cr rows].
        rewrite !repeat_length, !length_map. unfold nrows in En'.
        repeat split; congruence. }
      cbn [EmitterSet.xyz EmitterSet.phot EmitterSet.frame_ix EmitterSet.id
           EmitterSet.prob EmitterSet.bg EmitterSet.xyz_cr EmitterSet.phot_cr
           EmitterSet.bg_cr EmitterSet.xy_unit EmitterSet.px_size EmitterSet._sorted
           EmitterSet.blank] in E.
      fold e in E. rewrite (sanity_check_passes Hal Hu) in E. cbn in E.
      injection E as _ <-. exists e. split; [reflexivity|].
      unfold e, nan_like_mat. cbn [EmitterSet.xyz EmitterSet.phot EmitterSet.frame_ix
                                   EmitterSet.xyz_cr rows ncols].
      repeat split. f_equal. rewrite map_map.
      assert (Hrep : forall l : list (list scalar),
                 map (fun _ => repeat NaN 3) l = repeat [NaN; NaN; NaN] (length l)).
      { intros l. induction l as [|a l IH]; [reflexivity|].
        change (repeat NaN 3 :: map (fun _ : list scalar => repeat NaN 3) l
                = [NaN; NaN; NaN] :: repeat [NaN; NaN; NaN] (length l)).
        now rewrite IH. }
      rewrite Hrep. unfold nrows in En'. now rewrite En'. }
  destruct Hr as (e & -> & Hx & Hp & Hf & Hcr).
  exists w, e. split; [reflexivity|].
  repeat (split; [assumption|]).
  split.
  - unfold EmitterSet.__len__, nrows. rewrite Hx. cbn [rows]. now rewrite length_map.
  - eapply init_defaults_wf; [exact E|exact Hm|left; exact Hc].
Qed.

Lemma init_pads_two_column_positions_witness :
  exists w e,
    EmitterSet.__init__ {| ncols := 2; rows := [[Fin 4; Fin 5]] |} [Fin 1] [0%Z]
      None None None None None None true (Some "px"%string) None = (w, Ok e) /\
    EmitterSet.xyz e = {| ncols := 3; rows := [[Fin 4; Fin 5; Fin 0]] |}.
Proof.
  assert (Hm : mat_ok {| ncols := 2; rows := [[Fin 4; Fin 5]] |}) by (repeat constructor).
  assert (Hc : ncols {| ncols := 2; rows := [[Fin 4; Fin 5]] |} = 2%nat) by reflexivity.
  assert (H1 : length [Fin 1] = nrows {| ncols := 2; rows := [[Fin 4; Fin 5]] |})
    by reflexivity.
  assert (H2 : length [0%Z] = nrows {| ncols := 2; rows := [[Fin 4; Fin 5]] |})
    by reflexivity.
  assert (Hu : unit_ok (Some "px"%string)) by (right; left; reflexivity).
  destruct (@init_pads_two_column_positions _ [Fin 1] [0%Z] (Some "px"%string) None
              Hm Hc H1 H2 Hu) as (w & e & He & Hx & _).
  exists w, e. split; [exact He|exact Hx].
Defined.

(** ** Iterating and concatenating *)

Lemma pick_S {A} (k : nat) (a : A) (l : list A) : pick (S k) (a :: l) = pick k l.
Proof. reflexivity. Qed.

Lemma concat_pick {A} (l : list A) :
  concat (map (fun k => pick k l) (seq 0 (length l))) = l.
Proof.
  induction l as [|a l IH]; [reflexivity|].
  cbn [length seq map concat]. rewrite <- seq_shift, map_map.
  cbn [pick nth_error app]. f_equal.
  erewrite map_ext; [exact IH|]. intros k. apply pick_S.
Qed.

Lemma shifted_frames_zero (es : list EmitterSet.t) (n i : nat) :
  shifted_frames es (repeat 0%Z n) i = concat (map EmitterSet.frame_ix es).
Proof.
  revert i. induction es as [|e es IH]; intros i; [reflexivity|].
  cbn [shifted_frames map concat]. rewrite nth_repeat, map_add_0, IH. reflexivity.
Qed.

Lemma first_set_const {A} (f : EmitterSet.t -> option A) (o : option A)
    (es : list EmitterSet.t) :
  es <> [] -> Forall (fun e => f e = o) es -> EmitterSet.first_set f es = o.
Proof.
  intros Hne H. induction H as [|e es He Hes IH]; [contradiction|].
  cbn [EmitterSet.first_set]. rewrite He. destruct o as [a|]; [reflexivity|].
  destruct es as [|e' es']; [reflexivity|]. apply IH. discriminate.
Qed.

Lemma row_wf (e : EmitterSet.t) (k : nat) :
  wf e -> (k < EmitterSet.__len__ e)%nat -> wf (row e k).
Proof.
  intros Hwf Hk. eapply get_subset_wf; [exact Hwf|]. now apply get_subset_row.
Qed.

Lemma joined_rows (e : EmitterSet.t) :
  wf e -> EmitterSet.__len__ e <> 0%nat ->
  joined (map (row e) (seq 0 (EmitterSet.__len__ e)))
         (repeat 0%Z (EmitterSet.__len__ e))
  = fresh e.
Proof.
  intros ((H1 & H2 & H3 & H4 & H5 & H6 & H7 & H8) & Hm & Hc & Hm' & Hc') Hn.
  unfold EmitterSet.__len__, nrows in *.
  set (N := length (rows (EmitterSet.xyz e))) in *.
  assert (Hne : map (row e) (seq 0 N) <> []).
  { destruct N; [contradiction|discriminate]. }
  unfold joined, fresh. rewrite shifted_frames_zero, !map_map.
  cbn [row EmitterSet.xyz EmitterSet.phot EmitterSet.frame_ix EmitterSet.id EmitterSet.prob
       EmitterSet.bg EmitterSet.xyz_cr EmitterSet.phot_cr EmitterSet.bg_cr rows].
  rewrite (first_set_const EmitterSet.xy_unit (o := EmitterSet.xy_unit e)), 
          (first_set_const EmitterSet.px_size (o := EmitterSet.px_size e));
    try exact Hne; try (apply Forall_map, Forall_forall; reflexivity).
  unfold N at 1. rewrite concat_pick.
  rewrite <- H1 at 1. rewrite concat_pick.
  rewrite <- H2 at 1. rewrite concat_pick.
  rewrite <- H3 at 1. rewrite concat_pick.
  rewrite <- H4 at 1. rewrite concat_pick.
  rewrite <- H5 at 1. rewrite concat_pick.
  rewrite <- H6 at 1. rewrite concat_pick.
  rewrite <- H7 at 1. rewrite concat_pick.
  rewrite <- H8 at 1. rewrite concat_pick.
  f_equal; apply mat_eq; cbn [ncols rows]; congruence.
Qed.

(** X17. Iterating over a container and concatenating what the iteration
    yields gives the container back: for a non-empty container that
    satisfies the alignment invariant and carries an unset or supported
    unit, [cat(list(e))] has the attributes, unit and pixel size of [e],
    with the sort flag unset. The iteration of an empty container yields
    nothing, and [cat] of that empty list raises the RuntimeError of
    [torch.cat]. *)
Theorem cat_of_iteration_round_trip (e : EmitterSet.t) (fuel : nat) :
  wf e -> unit_ok (EmitterSet.xy_unit e) -> (EmitterSet.__len__ e < fuel)%nat ->
  exists l,
    EmitterSet.to_list fuel e = ([], Ok (Some l)) /\
    length l = EmitterSet.__len__ e /\
    (EmitterSet.__len__ e <> 0%nat ->
       EmitterSet.cat l None None = (unit_warning e, Ok (fresh e))) /\
    (EmitterSet.__len__ e = 0%nat ->
       EmitterSet.cat l None None
       = ([], Raise (RuntimeError "torch.cat(): expected a non-empty list of Tensors"))).
Proof.
  intros Hwf Hu Hf. exists (map (row e) (seq 0 (EmitterSet.__len__ e))).
  split.
  { unfold EmitterSet.to_list, EmitterSet.__iter__.
    rewrite collect_rows by (assumption || lia). now rewrite Nat.sub_0_r. }
  split; [now rewrite length_map, length_seq|].
  split.
  - intros Hn. rewrite cat_joined.
    + rewrite length_map, length_seq. cbn [shifts].
      rewrite joined_rows by assumption. reflexivity.
    + destruct (EmitterSet.__len__ e); [contradiction|discriminate].
    + apply Forall_map, Forall_forall. intros k Hk. apply in_seq in Hk.
      apply row_wf; [assumption|lia].
    + apply Forall_map, Forall_forall. intros k _. exact Hu.
    + exact I.
  - intros ->. reflexivity.
Qed.

Lemma cat_of_iteration_round_trip_witness :
  exists l,
    EmitterSet.to_list 3 (Samples.pair 1 7) = ([], Ok (Some l)) /\
    EmitterSet.cat l None None = ([], Ok (Samples.pair 1 7)).
Proof.
  assert (Hwf : wf (Samples.pair 1 7)) by (repeat constructor).
  assert (Hu : unit_ok (EmitterSet.xy_unit (Samples.pair 1 7))) by (right; left; reflexivity).
  assert (Hf : (EmitterSet.__len__ (Samples.pair 1 7) < 3)%nat) by (cbn; lia).
  destruct (cat_of_iteration_round_trip Hwf Hu Hf) as (l & Hl & _ & Hc & _).
  exists l. split; [exact Hl|]. apply Hc. discriminate.
Defined.

(** ** The rows of the lowering *)


